(** * Smart Farm backend: device registry, telemetry ingest, liveness sweep

    A shallow embedding of [src/server.js].  JavaScript objects are finite
    maps from property names to values, the module-level variables of the
    server ([memoryDevices], [memorySensorHistory], [deviceLastSeen], the
    MQTT client, the Socket.io server) are the fields of one [State] record
    that every function threads explicitly, and [Date.now()] / [new Date()]
    is an explicit argument [now] (milliseconds since the epoch).  Each
    handler runs to completion before the next one starts: the interleaving
    of [async] handlers at their [await] points is not represented.  The
    account routes are embedded in the module [Auth]; of the dashboard
    script ([src/unnamed/part_000]), [sampleData] and the Socket.io
    handlers (module [Dashboard]) are embedded at the end of the
    definitions. *)

From Stdlib Require Import QArith_base.
From stdpp Require Import gmap strings list fin_maps sorting pretty.

Local Open Scope Z_scope.

(** ** JavaScript values and objects *)

(** The primitive values that occur in device records and JSON payloads.
    A [Date] object is its epoch time; an ISO timestamp string produced by
    [toISOString()] is represented by the same constructor.  Numbers are
    rationals, kept as they are written (no [NaN], no infinities); nested
    objects and arrays do not occur in the records followed here. *)
Inductive Value : Type :=
  | VUndef
  | VNull
  | VBool (b : bool)
  | VNum (q : Q)
  | VStr (s : string)
  | VDate (t : Z).

#[global] Instance Q_eq_dec : EqDecision Q.
Proof. solve_decision. Defined.

#[global] Instance Value_eq_dec : EqDecision Value.
Proof. solve_decision. Defined.

#[global] Instance Value_inhabited : Inhabited Value := populate VUndef.

(** An object: own enumerable properties.  A key may be present with the
    value [undefined], as in the literal [{ mode: undefined }]. *)
Abbreviation Obj := (gmap string Value).

(** [o.k]: reading an absent property gives [undefined]. *)
Definition get (o : Obj) (k : string) : Value := default VUndef (o !! k).

(** ToBoolean. *)
Definition truthy (v : Value) : bool :=
  match v with
  | VUndef | VNull => false
  | VBool b => b
  | VNum q => negb (Qnum q =? 0)%Z
  | VStr s => negb (String.eqb s "")
  | VDate _ => true
  end.

(** [a || b]. *)
Definition js_or (a b : Value) : Value := if truthy a then a else b.

(** [v === s] for a string literal or string variable [s]. *)
Definition str_eq (v : Value) (s : string) : bool :=
  match v with
  | VStr x => String.eqb x s
  | _ => false
  end.

(** [Object.assign(target, source)]: every own property of the source
    overwrites the target's, the others are kept. *)
Definition assign (target source : Obj) : Obj := source ∪ target.

(** [JSON.stringify] drops the properties whose value is [undefined]. *)
Definition json_strip (o : Obj) : Obj := filter (λ kv, kv.2 ≠ VUndef) o.

(** ** Device records in the two formats *)

(** [d => d.id === id], the predicate of [find] and [findIndex], and of
    [.eq('id', id)] on the [devices] table. *)
Definition has_id (id : string) (d : Obj) : bool := str_eq (get d "id") id.

Definition mapDeviceFromDB (dbDevice : Obj) : Obj :=
  {[ "id" := get dbDevice "id";
     "name" := get dbDevice "name";
     "zone" := get dbDevice "zone";
     "zoneLabel" := get dbDevice "zone_label";
     "ip" := get dbDevice "ip";
     "status" := get dbDevice "status";
     "temperature" := get dbDevice "temperature";
     "humidity" := get dbDevice "humidity";
     "soilMoisture" := get dbDevice "soil_moisture";
     "pumpActive" := get dbDevice "pump_active";
     "mode" := get dbDevice "mode";
     "lastUpdate" := get dbDevice "last_update" ]}.

Definition mapDeviceToDB (device : Obj) : Obj :=
  {[ "id" := get device "id";
     "name" := get device "name";
     "zone" := js_or (get device "zone") (VStr "garden");
     "zone_label" := js_or (get device "zoneLabel") (VStr "🌳 สวน");
     "ip" := get device "ip";
     "status" := js_or (get device "status") (VStr "offline");
     "temperature" := js_or (get device "temperature") (VNum 0%Q);
     "humidity" := js_or (get device "humidity") (VNum 0%Q);
     "soil_moisture" := js_or (get device "soilMoisture") (VNum 0%Q);
     "pump_active" := js_or (get device "pumpActive") (VBool false);
     "mode" := js_or (get device "mode") (VStr "auto") ]}.

(** ** Numbers in binary floating point

    A [REAL] column holds an IEEE single, and JavaScript prints a number
    ([String(n)], a number written to a [TEXT] column) as the shortest
    decimal that reads back as the same double.  Both are the two
    functions of this module at a precision: rounding a fraction to the
    format, and the shortest decimal that rounds to a number of the
    format. *)
Module Float.

(** [floor (log2 (n / d))] for positive [n] and [d]. *)
Definition floorLog2 (n d : Z) : Z :=
  let k := Z.log2 n - Z.log2 d in
  let below := if 0 <=? k then n <? d * 2 ^ k else n * 2 ^ (- k) <? d in
  if below then k - 1 else k.

(** [n / d] rounded to the nearest integer, ties to even. *)
Definition roundHalfEven (n d : Z) : Z :=
  let m := n / d in
  let r := n mod d in
  if d <? 2 * r then m + 1
  else if (2 * r =? d) && Z.odd m then m + 1
  else m.

(** The number [m * 2 ^ e] of the format with [prec] bits of precision and
    least exponent [emin] that is nearest to [n / d], for positive [n] and
    [d]; ties to even. *)
Definition nearest (prec emin : Z) (n d : Z) : Z * Z :=
  let e := Z.max (floorLog2 n d) emin - (prec - 1) in
  let m :=
    if 0 <=? e then roundHalfEven n (d * 2 ^ e)
    else roundHalfEven (n * 2 ^ (- e)) d in
  if m =? 2 ^ prec then (2 ^ (prec - 1), e + 1) else (m, e).

(** [f = (m, e)] as a fraction. *)
Definition fraction (f : Z * Z) : Z * Z :=
  let '(m, e) := f in
  if 0 <=? e then (m * 2 ^ e, 1) else (m, 2 ^ (- e)).

(** [f] is zero, or at least [2 ^ emax]: the fraction was too small or too
    large for the format. *)
Definition outOfRange (emax : Z) (f : Z * Z) : bool :=
  let '(n, d) := fraction f in
  (n =? 0) || (d * 2 ^ emax <=? n).

(** [floor (log10 (n / d))] for positive [n] and [d], by search. *)
Fixpoint log10Up (fuel : nat) (n d e : Z) : Z :=
  match fuel with
  | O => e
  | S fuel => if d * 10 ^ (e + 1) <=? n then log10Up fuel n d (e + 1) else e
  end.

Fixpoint log10Down (fuel : nat) (n d e : Z) : Z :=
  match fuel with
  | O => e
  | S fuel => if n * 10 ^ (- e) <? d then log10Down fuel n d (e - 1) else e
  end.

Definition floorLog10 (n d : Z) : Z :=
  if d <=? n then log10Up 400 n d 0 else log10Down 400 n d (-1).

(** The decimal [s / 10 ^ p] as a fraction; [p] may be negative. *)
Definition decimal (s p : Z) : Z * Z :=
  if 0 <=? p then (s, 10 ^ p) else (s * 10 ^ (- p), 1).

(** Among the decimals with [p] places, the one nearest to [n / d] that
    the format rounds to [f], if there is one. *)
Definition decimalAt (prec emin : Z) (f : Z * Z) (n d p : Z) : option Z :=
  let '(sn, sd) :=
    if 0 <=? p then (n * 10 ^ p, d) else (n, d * 10 ^ (- p)) in
  let lo := sn / sd in
  let hi := if sn mod sd =? 0 then lo else lo + 1 in
  let ok s :=
    (0 <? s) &&
    let '(cn, cd) := decimal s p in
    bool_decide (nearest prec emin cn cd = f) in
  let lowerFirst :=
    (2 * (sn mod sd) <? sd) || ((2 * (sn mod sd) =? sd) && Z.even lo) in
  let first := if lowerFirst then lo else hi in
  let second := if lowerFirst then hi else lo in
  if ok first then Some first
  else if ok second then Some second
  else None.

Fixpoint shortestFrom (fuel : nat) (prec emin : Z) (f : Z * Z) (n d p : Z)
  : Z * Z :=
  match fuel with
  | O => (0, 0)
  | S fuel =>
      match decimalAt prec emin f n d p with
      | Some s => (s, p)
      | None => shortestFrom fuel prec emin f n d (p + 1)
      end
  end.

(** The shortest decimal [s / 10 ^ p] that the format rounds to [f]: what
    is printed for [f], and what a reader of the print gets.  Seventeen
    digits are enough for a double. *)
Definition shortest (prec emin : Z) (f : Z * Z) : Z * Z :=
  let '(n, d) := fraction f in
  shortestFrom 20 prec emin f n d (- floorLog10 n d).

(** A decimal without trailing zeros in [s]. *)
Fixpoint normal (fuel : nat) (s p : Z) : Z * Z :=
  match fuel with
  | O => (s, p)
  | S fuel => if s mod 10 =? 0 then normal fuel (s / 10) (p - 1) else (s, p)
  end.

Fixpoint zeros (n : nat) : string :=
  match n with O => "" | S n => "0" +:+ zeros n end.

(** [Number.prototype.toString] on the positive number with the digits
    [s] and the decimal point [p] places from their end. *)
Definition print (s p : Z) : string :=
  let '(s, p) := normal 400 s p in
  let digits := pretty s in
  let k := Z.of_nat (String.length digits) in
  let n := k - p in
  if (k <=? n) && (n <=? 21) then digits +:+ zeros (Z.to_nat (n - k))
  else if (0 <? n) && (n <=? 21) then
    String.substring 0 (Z.to_nat n) digits +:+ "." +:+
    String.substring (Z.to_nat n) (Z.to_nat (k - n)) digits
  else if (-6 <? n) && (n <=? 0) then
    "0." +:+ zeros (Z.to_nat (- n)) +:+ digits
  else
    (if k =? 1 then digits
     else String.substring 0 1 digits +:+ "." +:+
          String.substring 1 (Z.to_nat (k - 1)) digits)
    +:+ "e" +:+ (if 0 <=? n - 1 then "+" else "-") +:+ pretty (Z.abs (n - 1)).

(** [String(q)] for the double nearest to [q]. *)
Definition numberText (q : Q) : string :=
  let n := Z.abs (Qnum q) in
  let d := Zpos (Qden q) in
  let f := nearest 53 (-1022) n d in
  if outOfRange 1024 f then "0"
  else
    let '(s, p) := shortest 53 (-1022) f in
    (if Qnum q <? 0 then "-" else "") +:+ print s p.

(** What a [REAL] column returns for [q]: [None] when [q] is not zero and
    out of the range of a single (the write is refused); [q] itself when
    the print of the single nearest to [q] denotes [q]. *)
Definition single (q : Q) : option Q :=
  let n := Z.abs (Qnum q) in
  let d := Zpos (Qden q) in
  if n =? 0 then Some q
  else
    let f := nearest 24 (-126) n d in
    if outOfRange 128 f then None
    else
      let '(s, p) := shortest 24 (-126) f in
      let '(rn, rd) := decimal s p in
      let r := Qmake (if Qnum q <? 0 then - rn else rn) (Z.to_pos rd) in
      Some (if Qeq_bool q r then q else r).

End Float.

(** ** The storage collaborator

    The Supabase client is an external service.  Its [devices] and
    [sensor_history] tables are lists of rows in insertion order
    ([created_at] / [recorded_at] default to [NOW()]), and the query chains
    that [server.js] builds are the functions below.  From [schema.sql]:
    the types of the columns, [devices.id] as primary key, [devices.name]
    as [NOT NULL], the reference of [sensor_history.device_id] to
    [devices], and the defaults.  A value written to a column is converted
    to the column's type as PostgreSQL converts the JSON value, or the
    whole statement is refused.  The store is taken to be reachable: a
    query fails only for the reasons written here. *)
Module Supabase.

Inductive ColumnType : Type :=
  | TEXT
  | REAL
  | INTEGER
  | BIGINT
  | BOOLEAN
  | TIMESTAMPTZ
  | UUID.

#[global] Instance ColumnType_eq_dec : EqDecision ColumnType.
Proof. solve_decision. Defined.

Abbreviation Table := (gmap string ColumnType).

Definition devices : Table :=
  <["created_at" := TIMESTAMPTZ]>
  {[ "id" := TEXT; "name" := TEXT; "zone" := TEXT; "zone_label" := TEXT;
     "ip" := TEXT; "status" := TEXT; "temperature" := REAL;
     "humidity" := REAL; "soil_moisture" := INTEGER;
     "pump_active" := BOOLEAN; "mode" := TEXT; "owner_id" := UUID;
     "last_update" := TIMESTAMPTZ ]}.

Definition sensor_history : Table :=
  {[ "id" := BIGINT; "device_id" := TEXT; "temperature" := REAL;
     "humidity" := REAL; "soil_moisture" := INTEGER;
     "pump_active" := BOOLEAN; "recorded_at" := TIMESTAMPTZ ]}.

(** *** Reading a string as a value of a column's type *)

Definition code (c : Ascii.ascii) : N := Ascii.N_of_ascii c.

Definition isDigit (c : Ascii.ascii) : bool := ((48 <=? code c) && (code c <=? 57))%N.

Definition lower (c : Ascii.ascii) : Ascii.ascii :=
  if ((65 <=? code c) && (code c <=? 90))%N
  then Ascii.ascii_of_N (code c + 32) else c.

Fixpoint lowercase (s : string) : string :=
  match s with
  | EmptyString => EmptyString
  | String c s => String (lower c) (lowercase s)
  end.

Fixpoint dropSpaces (s : string) : string :=
  match s with
  | String c s' => if Ascii.is_space c then dropSpaces s' else s
  | EmptyString => s
  end.

Definition trim (s : string) : string :=
  String.rev (dropSpaces (String.rev (dropSpaces s))).

(** The digits at the head of [s], continuing the number [acc]: the
    number, how many digits were read, and the rest of [s]. *)
Fixpoint readDigits (s : string) (acc : Z) (count : nat) : Z * nat * string :=
  match s with
  | String c s' =>
      if isDigit c
      then readDigits s' (10 * acc + Z.of_N (code c - 48)) (S count)
      else (acc, count, s)
  | EmptyString => (acc, count, s)
  end.

(** An optional sign: whether it was [-], and the rest. *)
Definition readSign (s : string) : bool * string :=
  match s with
  | String c s' =>
      if (code c =? 45)%N then (true, s')
      else if (code c =? 43)%N then (false, s')
      else (false, s)
  | EmptyString => (false, s)
  end.

(** The input syntax of [INTEGER] and [BIGINT]: a sign and digits. *)
Definition parseInteger (s : string) : option Z :=
  let '(negative, s) := readSign (trim s) in
  let '(n, count, rest) := readDigits s 0 0 in
  if bool_decide (count ≠ 0%nat ∧ rest = "")
  then Some (if negative then - n else n) else None.

(** The input syntax of [REAL] as far as it denotes a number: a sign,
    digits with an optional fraction, an optional exponent.  ([NaN] and
    [Infinity], which the column accepts too, are no [Value]s; a string
    that spells one of them is treated as refused.) *)
Definition parseDecimal (s : string) : option Q :=
  let '(negative, s) := readSign (trim s) in
  let '(whole, wholeCount, s) := readDigits s 0 0 in
  let '(mantissa, places, s) :=
    match s with
    | String c s' => if (code c =? 46)%N then readDigits s' whole 0
                     else (whole, 0%nat, s)
    | EmptyString => (whole, 0%nat, s)
    end in
  let '(exponent, s) :=
    match s with
    | String c s' =>
        if (code (lower c) =? 101)%N then
          let '(down, s'') := readSign s' in
          let '(e, count, rest) := readDigits s'' 0 0 in
          if bool_decide (count ≠ 0%nat)
          then (Some (if down then - e else e), rest)
          else (None, s)
        else (Some 0, s)
    | EmptyString => (Some 0, s)
    end in
  match exponent with
  | Some e =>
      if bool_decide ((wholeCount + places)%nat ≠ 0%nat ∧ s = "") then
        let '(n, d) := Float.decimal mantissa (Z.of_nat places - e) in
        Some (Qmake (if negative then - n else n) (Z.to_pos d))
      else None
  | None => None
  end.

(** The input syntax of [BOOLEAN]: the spellings below and their unique
    prefixes, in either case. *)
Definition parseBoolean (s : string) : option bool :=
  let s := lowercase (trim s) in
  if bool_decide (s ∈ ["t"; "tr"; "tru"; "true"; "y"; "ye"; "yes"; "on"; "1"])
  then Some true
  else if bool_decide
            (s ∈ ["f"; "fa"; "fal"; "fals"; "false"; "n"; "no"; "of"; "off";
                  "0"])
  then Some false
  else None.

(** *** Writing a value to a column *)

Definition isInteger (q : Q) : bool := Qnum q mod Zpos (Qden q) =? 0.

Definition wholeOf (q : Q) : Z := Qnum q / Zpos (Qden q).

(** An integer column of [bits] bits: a whole number in range is stored,
    and returned as it was given. *)
Definition integerColumn (bits : Z) (v : Value) : option Value :=
  let inRange n := (- 2 ^ (bits - 1) <=? n) && (n <? 2 ^ (bits - 1)) in
  match v with
  | VNum q => if isInteger q && inRange (wholeOf q) then Some v else None
  | VStr s =>
      match parseInteger s with
      | Some n => if inRange n then Some (VNum (inject_Z n)) else None
      | None => None
      end
  | _ => None
  end.

(** What the column returns for a value written to it, [None] when the
    write is refused.  [NULL] is stored in a column of any type.  A
    [Date], written as its ISO string, is the one kind of value that the
    server sends to a [TIMESTAMPTZ] column; no statement writes to
    [owner_id]. *)
Definition convert (ty : ColumnType) (v : Value) : option Value :=
  match v with
  | VNull => Some VNull
  | VUndef => None
  | _ =>
      match ty with
      | TEXT =>
          match v with
          | VBool b => Some (VStr (if b then "true" else "false"))
          | VNum q => Some (VStr (Float.numberText q))
          | _ => Some v
          end
      | REAL =>
          match v with
          | VNum q => VNum <$> Float.single q
          | VStr s => VNum <$> (parseDecimal s ≫= Float.single)
          | _ => None
          end
      | INTEGER => integerColumn 32 v
      | BIGINT => integerColumn 64 v
      | BOOLEAN =>
          match v with
          | VBool _ => Some v
          | VNum q =>
              if Qeq_bool q 0 then Some (VBool false)
              else if Qeq_bool q 1 then Some (VBool true)
              else None
          | VStr s => VBool <$> parseBoolean s
          | _ => None
          end
      | TIMESTAMPTZ =>
          match v with
          | VDate _ => Some v
          | _ => None
          end
      | UUID => None
      end
  end.

(** The value that the column [k] of [table] returns for [v]; there is no
    writing to a column that the table does not have. *)
Definition cast (table : Table) (k : string) (v : Value) : option Value :=
  table !! k ≫= λ ty, convert ty v.

(** The columns of a statement as the table takes them.  The request body
    is JSON: a property whose value is [undefined] is not in it. *)
Definition typed (table : Table) (cols : Obj) : option Obj :=
  let sent := json_strip cols in
  if decide (map_Forall (λ k v, is_Some (cast table k v)) sent)
  then Some (map_imap (cast table) sent)
  else None.

(** What an insert stores in a column of [devices] that the statement
    leaves out: the default of the column, [NULL] where it has none.
    ([id] and [name] have to be given.) *)
Definition defaults (now : Z) : Obj :=
  {[ "zone" := VStr "garden";
     "zone_label" := VStr "🌳 สวน";
     "ip" := VNull;
     "status" := VStr "offline";
     "temperature" := VNum 0%Q;
     "humidity" := VNum 0%Q;
     "soil_moisture" := VNum 0%Q;
     "pump_active" := VBool false;
     "mode" := VStr "auto";
     "owner_id" := VNull;
     "last_update" := VDate now;
     "created_at" := VDate now ]}.

(** [.select('*').eq('id', id).single()] *)
Definition select_single (tbl : list Obj) (id : string) : option Obj :=
  snd <$> list_find (λ row, has_id id row) tbl.

(** [.insert(row).select().single()] on [devices]: refused on a value
    that a column does not take, on a missing [id] or [name] and on a
    primary-key conflict. *)
Definition insert (tbl : list Obj) (row : Obj) (now : Z)
  : option (list Obj * Obj) :=
  match typed devices row with
  | None => None
  | Some cols =>
      match get cols "id", get cols "name" with
      | VStr id, VStr _ =>
          match select_single tbl id with
          | Some _ => None
          | None =>
              let stored := cols ∪ defaults now in
              Some (tbl ++ [stored], stored)
          end
      | _, _ => None
      end
  end.

(** The rows after [cols] was written to those with the id [id]. *)
Definition patch (tbl : list Obj) (id : string) (cols : Obj) : list Obj :=
  (λ row, if has_id id row then assign row cols else row) <$> tbl.

(** [.update(cols).eq('id', id)] on [devices]: the table afterwards, or
    [None] when a column refuses its value; nothing is written then. *)
Definition update (tbl : list Obj) (id : string) (cols : Obj)
  : option (list Obj) :=
  patch tbl id <$> typed devices cols.

(** [.insert(row)] on [sensor_history]: refused on a value that a column
    does not take and on a [device_id] that is not in [devices].  A column
    that the statement leaves out gets its default, [NULL] where it has
    none; the serial [id] of the row is not represented. *)
Definition insert_sample (registered history : list Obj) (row : Obj)
    (now : Z) : option (list Obj) :=
  match typed sensor_history row with
  | None => None
  | Some cols =>
      let stored :=
        cols ∪
        {[ "device_id" := VNull; "temperature" := VNull;
           "humidity" := VNull; "soil_moisture" := VNull;
           "pump_active" := VBool false; "recorded_at" := VDate now ]} in
      match get cols "device_id" with
      | VStr id =>
          match select_single registered id with
          | Some _ => Some (history ++ [stored])
          | None => None
          end
      | _ => Some (history ++ [stored])
      end
  end.

(** [.delete().eq('id', id)] *)
Definition delete (tbl : list Obj) (id : string) : list Obj :=
  filter (λ row, has_id id row = false) tbl.

(** What is left of [sensor_history] when the device [id] is deleted:
    [device_id] references [devices(id)] with [ON DELETE CASCADE]. *)
Definition delete_cascade (history : list Obj) (id : string) : list Obj :=
  filter (λ row, str_eq (get row "device_id") id = false) history.

End Supabase.

(** ** Server state *)

(** What [io.emit(name, payload)] sent; the payload is [None] when the
    JavaScript value was [null] or [undefined]. *)
Definition Event : Type := string * option Obj.

Record State : Type := mkState {
  useDatabase : bool;
  db_devices : list Obj;
  db_history : list Obj;
  memoryDevices : list Obj;
  memorySensorHistory : gmap string (list Obj);
  deviceLastSeen : gmap string Z;
  mqttConnected : bool;
  mqttPublished : list (string * Obj);
  ioEmitted : list Event
}.

Definition set_db_devices (st : State) (v : list Obj) : State :=
  mkState (useDatabase st) v (db_history st) (memoryDevices st)
          (memorySensorHistory st) (deviceLastSeen st) (mqttConnected st)
          (mqttPublished st) (ioEmitted st).

Definition set_db_history (st : State) (v : list Obj) : State :=
  mkState (useDatabase st) (db_devices st) v (memoryDevices st)
          (memorySensorHistory st) (deviceLastSeen st) (mqttConnected st)
          (mqttPublished st) (ioEmitted st).

Definition set_memoryDevices (st : State) (v : list Obj) : State :=
  mkState (useDatabase st) (db_devices st) (db_history st) v
          (memorySensorHistory st) (deviceLastSeen st) (mqttConnected st)
          (mqttPublished st) (ioEmitted st).

Definition set_memorySensorHistory (st : State) (v : gmap string (list Obj))
  : State :=
  mkState (useDatabase st) (db_devices st) (db_history st) (memoryDevices st)
          v (deviceLastSeen st) (mqttConnected st)
          (mqttPublished st) (ioEmitted st).

Definition set_deviceLastSeen (st : State) (v : gmap string Z) : State :=
  mkState (useDatabase st) (db_devices st) (db_history st) (memoryDevices st)
          (memorySensorHistory st) v (mqttConnected st)
          (mqttPublished st) (ioEmitted st).

(** [mqttClient.publish(topic, JSON.stringify(payload))] *)
Definition mqtt_publish (st : State) (topic : string) (payload : Obj) : State :=
  mkState (useDatabase st) (db_devices st) (db_history st) (memoryDevices st)
          (memorySensorHistory st) (deviceLastSeen st) (mqttConnected st)
          (mqttPublished st ++ [(topic, json_strip payload)]) (ioEmitted st).

(** [io.emit(name, payload)] *)
Definition io_emit (st : State) (name : string) (payload : option Obj)
  : State :=
  mkState (useDatabase st) (db_devices st) (db_history st) (memoryDevices st)
          (memorySensorHistory st) (deviceLastSeen st) (mqttConnected st)
          (mqttPublished st) (ioEmitted st ++ [(name, payload)]).

(** The seeded in-memory device, with the keys as the source spells them. *)
Definition seedDevice (boot : Z) : Obj :=
  {[ "id" := VStr "device_001";
     "name" := VStr "สวนหน้าบ้าน";
     "zone" := VStr "garden";
     "zone_label" := VStr "🌳 สวน";
     "ip" := VStr "192.168.0.110";
     "status" := VStr "online";
     "temperature" := VNum (65 # 2)%Q;
     "humidity" := VNum 65%Q;
     "soil_moisture" := VNum 78%Q;
     "pump_active" := VBool false;
     "mode" := VStr "auto";
     "last_update" := VDate boot ]}.

(** The state at process start without Supabase credentials. *)
Definition initialMemoryState (boot : Z) : State :=
  mkState false [] [] [seedDevice boot] ∅ ∅ false [] [].

Definition OFFLINE_TIMEOUT : Z := 20000.
Definition MQTT_TOPIC_PREFIX : string := "smartfarm".

(** ** Registry operations ([getDevices] ... [deleteDevice]) *)

Definition getDevices (st : State) : list Obj :=
  if useDatabase st then mapDeviceFromDB <$> db_devices st
  else memoryDevices st.

(** [null] and [undefined] are both [None]. *)
Definition getDevice (st : State) (id : string) : option Obj :=
  if useDatabase st then
    mapDeviceFromDB <$> Supabase.select_single (db_devices st) id
  else
    snd <$> list_find (λ d, has_id id d) (memoryDevices st).

Definition createDevice (st : State) (device : Obj) (now : Z)
  : State * option Obj :=
  if useDatabase st then
    match Supabase.insert (db_devices st) (mapDeviceToDB device) now with
    | None => (st, None)
    | Some (tbl, data) => (set_db_devices st tbl, Some (mapDeviceFromDB data))
    end
  else
    (set_memoryDevices st (memoryDevices st ++ [device]), Some device).

(** [if (updates.k !== undefined) dbUpdates.col = updates.k] *)
Definition copy_defined (updates : Obj) (k col : string) (dbUpdates : Obj)
  : Obj :=
  if decide (get updates k = VUndef) then dbUpdates
  else <[col := get updates k]> dbUpdates.

Definition dbUpdatesOf (updates : Obj) (now : Z) : Obj :=
  <["last_update" := VDate now]>
    (copy_defined updates "mode" "mode"
    (copy_defined updates "status" "status"
    (copy_defined updates "pumpActive" "pump_active"
    (copy_defined updates "soilMoisture" "soil_moisture"
    (copy_defined updates "humidity" "humidity"
    (copy_defined updates "temperature" "temperature" ∅)))))).

Definition updateDevice (st : State) (id : string) (updates : Obj) (now : Z)
  : State * option Obj :=
  if useDatabase st then
    match Supabase.update (db_devices st) id (dbUpdatesOf updates now) with
    | None => (st, None)
    | Some tbl =>
        match Supabase.select_single tbl id with
        | None => (st, None)
        | Some data => (set_db_devices st tbl, Some (mapDeviceFromDB data))
        end
    end
  else
    match list_find (λ d, has_id id d) (memoryDevices st) with
    | Some (i, device) =>
        let device' :=
          assign (assign device updates) {[ "lastUpdate" := VDate now ]} in
        (set_memoryDevices st (<[i := device']> (memoryDevices st)),
         Some device')
    | None => (st, None)
    end.

Definition deleteDevice (st : State) (id : string) : State * bool :=
  if useDatabase st then
    (set_db_history
       (set_db_devices st (Supabase.delete (db_devices st) id))
       (Supabase.delete_cascade (db_history st) id),
     true)
  else
    match list_find (λ d, has_id id d) (memoryDevices st) with
    | Some (index, _) =>
        (set_memoryDevices st (delete index (memoryDevices st)), true)
    | None => (st, false)
    end.

(** ** Sensor history *)

(** The object that the fallback pushes onto the device's history. *)
Definition historySample (data : Obj) (now : Z) : Obj :=
  {[ "timestamp" := VDate now;
     "temperature" := get data "temperature";
     "humidity" := get data "humidity";
     "soilMoisture" := get data "soilPercent" ]}.

Definition storeSensorHistory (st : State) (deviceId : string) (data : Obj)
    (now : Z) : State :=
  if useDatabase st then
    let row : Obj :=
      {[ "device_id" := VStr deviceId;
         "temperature" := get data "temperature";
         "humidity" := get data "humidity";
         "soil_moisture" := get data "soilPercent";
         "pump_active" := get data "pumpActive" ]} in
    match Supabase.insert_sample (db_devices st) (db_history st) row now with
    | Some history => set_db_history st history
    | None => st
    end
  else
    let history := default [] (memorySensorHistory st !! deviceId) in
    let history' := history ++ [historySample data now] in
    let kept :=
      if 720 <? Z.of_nat (length history') then tail history' else history' in
    set_memorySensorHistory st (<[deviceId := kept]> (memorySensorHistory st)).

(** A [startDate] / [endDate] option: absent (or [null], or the empty
    string), a string that [new Date] cannot parse, or an instant. *)
Inductive DateArg : Type :=
  | NoDate
  | BadDate
  | GoodDate (t : Z).

Definition date_given (d : DateArg) : bool :=
  match d with NoDate => false | _ => true end.

(** [new Date(v).getTime()], [None] for [NaN]. *)
Definition getTime (v : Value) : option Z :=
  match v with
  | VDate t => Some t
  | _ => None
  end.

(** The callback of [history.filter]; a comparison with [NaN] is false. *)
Definition inWindow (startDate endDate : DateArg) (h : Obj) : bool :=
  match getTime (get h "timestamp") with
  | Some ts =>
      match startDate, endDate with
      | GoodDate s, GoodDate e => negb (ts <? s) && negb (e <? ts)
      | GoodDate s, _ => negb (ts <? s)
      | _, GoodDate e => negb (e <? ts)
      | _, _ => true
      end
  | None => true
  end.

(** [arr.slice(start)] for an integer [start]. *)
Definition slice_from {A} (start : Z) (arr : list A) : list A :=
  let len := Z.of_nat (length arr) in
  let k := if start <? 0 then Z.max (len + start) 0 else Z.min start len in
  drop (Z.to_nat k) arr.

Definition recorded_at (row : Obj) : Z :=
  default 0 (getTime (get row "recorded_at")).

(** [.order('recorded_at', { ascending: false })] *)
Definition newer_first (a b : Obj) : Prop := recorded_at b ≤ recorded_at a.

#[global] Instance newer_first_dec a b : Decision (newer_first a b).
Proof. unfold newer_first. apply _. Defined.

(** [limit] is the integer that the caller passes ([parseInt(limit)], or
    1000 when the query has none). *)
Definition getSensorHistory (st : State) (deviceId : string) (limit : Z)
    (startDate endDate : DateArg) : list Obj :=
  if useDatabase st then
    match startDate, endDate with
    | BadDate, _ | _, BadDate => []
    | _, _ =>
        let rows :=
          filter (λ r, str_eq (get r "device_id") deviceId = true)
                 (db_history st) in
        let ordered :=
          merge_sort newer_first rows in
        let ge :=
          match startDate with
          | GoodDate s => filter (λ r, s ≤ recorded_at r) ordered
          | _ => ordered
          end in
        let le :=
          match endDate with
          | GoodDate e => filter (λ r, recorded_at r ≤ e) ge
          | _ => ge
          end in
        let data := take (Z.to_nat limit) le in
        reverse
          ((λ h, ({[ "timestamp" := get h "recorded_at";
                     "temperature" := get h "temperature";
                     "humidity" := get h "humidity";
                     "soilMoisture" := get h "soil_moisture" ]} : Obj))
             <$> data)
    end
  else
    let history := default [] (memorySensorHistory st !! deviceId) in
    let history :=
      if date_given startDate || date_given endDate
      then filter (λ h, inWindow startDate endDate h = true) history
      else history in
    slice_from (- limit) history.

(** ** Offline detection *)

(** [deviceLastSeen[device.id]]; every record that the server stores has a
    string [id] (the seed's, or [device_<time>] from the create route). *)
Definition lastSeenOf (lastSeen : gmap string Z) (device : Obj) : option Z :=
  match get device "id" with
  | VStr id => lastSeen !! id
  | _ => None
  end.

(** [lastSeen && (now - lastSeen) > OFFLINE_TIMEOUT] *)
Definition silent (lastSeen : option Z) (now : Z) : bool :=
  match lastSeen with
  | Some t => negb (t =? 0) && (OFFLINE_TIMEOUT <? now - t)
  | None => false
  end.

(** [.update({ status: 'offline', last_update: ... }).eq('id', device.id)];
    the result of the statement is not looked at. *)
Definition markOfflineInDB (tbl : list Obj) (device : Obj) (now : Z)
  : list Obj :=
  match get device "id" with
  | VStr id =>
      default tbl
        (Supabase.update tbl id
           {[ "status" := VStr "offline"; "last_update" := VDate now ]})
  | _ => tbl
  end.

(** The body of [memoryDevices.forEach]: the records are mutated in place,
    so the result is the array after the loop, the [devices] table after the
    loop and the events emitted, in order. *)
Fixpoint sweepDevices (useDb : bool) (lastSeen : gmap string Z) (now : Z)
    (devices tbl : list Obj) : list Obj * list Obj * list Event :=
  match devices with
  | [] => ([], tbl, [])
  | device :: rest =>
      if silent (lastSeenOf lastSeen device) now
         && negb (str_eq (get device "status") "offline")
      then
        let device' := <["status" := VStr "offline"]> device in
        let tbl' := if useDb then markOfflineInDB tbl device' now else tbl in
        let '(rest', tbl'', events) :=
          sweepDevices useDb lastSeen now rest tbl' in
        (device' :: rest', tbl'',
         ("deviceUpdate", Some (<["status" := VStr "offline"]> device'))
           :: events)
      else
        let '(rest', tbl', events) :=
          sweepDevices useDb lastSeen now rest tbl in
        (device :: rest', tbl', events)
  end.

Definition checkOfflineDevices (st : State) (now : Z) : State :=
  let '(devices, tbl, events) :=
    sweepDevices (useDatabase st) (deviceLastSeen st) now
                 (memoryDevices st) (db_devices st) in
  mkState (useDatabase st) tbl (db_history st) devices
          (memorySensorHistory st) (deviceLastSeen st) (mqttConnected st)
          (mqttPublished st) (ioEmitted st ++ events).

(** ** Telemetry and status messages *)

(** [data.pumpActive ? 'watering' : 'online'] *)
Definition statusOfPump (pumpActive : Value) : Value :=
  if truthy pumpActive then VStr "watering" else VStr "online".

Definition telemetryUpdates (data : Obj) : Obj :=
  {[ "temperature" := get data "temperature";
     "humidity" := get data "humidity";
     "soilMoisture" := get data "soilPercent";
     "pumpActive" := js_or (get data "pumpActive") (VBool false);
     "status" := statusOfPump (get data "pumpActive") ]}.

Definition handleDeviceData (st : State) (deviceId : string) (data : Obj)
    (now : Z) : State :=
  let st := set_deviceLastSeen st (<[deviceId := now]> (deviceLastSeen st)) in
  let updates := telemetryUpdates data in
  match updateDevice st deviceId updates now with
  | (st, Some device) =>
      let st := storeSensorHistory st deviceId data now in
      io_emit st "deviceUpdate" (Some device)
  | (st, None) => st
  end.

Definition handleDeviceStatus (st : State) (deviceId : string) (data : Obj)
    (now : Z) : State :=
  match updateDevice st deviceId {[ "status" := get data "status" ]} now with
  | (st, Some device) => io_emit st "deviceUpdate" (Some device)
  | (st, None) => st
  end.

(** The MQTT [message] handler for the topic
    [smartfarm/<deviceId>/<messageType>]; [data] is the object that
    [JSON.parse] returns, or [None] when it throws, which the handler
    catches and logs. *)
Definition onMqttMessage (st : State) (deviceId messageType : string)
    (data : option Obj) (now : Z) : State :=
  match data with
  | None => st
  | Some data =>
      if String.eqb messageType "data" then
        handleDeviceData st deviceId data now
      else if String.eqb messageType "status" then
        handleDeviceStatus st deviceId data now
      else st
  end.

(** ** HTTP routes and Socket.io events *)

Inductive Response : Type :=
  | BadRequest                       (* 400 *)
  | NotFound                         (* 404, 'Device not found' *)
  | ServerError                      (* 500 *)
  | Created (data : Obj)             (* 201 *)
  | Ok (data : option Obj).          (* 200, success: true *)

Definition commandTopic (id : string) : string :=
  MQTT_TOPIC_PREFIX +:+ "/" +:+ id +:+ "/command".

Definition pumpUpdates (turnOn : bool) : Obj :=
  {[ "pumpActive" := VBool turnOn;
     "status" := if turnOn then VStr "watering" else VStr "online" ]}.

(** [POST /api/devices/:id/pump]; [device.id] is [req.params.id], the
    record having been found by that id. *)
Definition postPump (st : State) (id : string) (body : Obj) (now : Z)
  : State * Response :=
  let action := get body "action" in
  match getDevice st id with
  | None => (st, NotFound)
  | Some device =>
      let turnOn := str_eq action "on" in
      let st :=
        if mqttConnected st
        then mqtt_publish st (commandTopic id) {[ "pump" := VBool turnOn ]}
        else st in
      let '(st, updated) := updateDevice st id (pumpUpdates turnOn) now in
      (io_emit st "deviceUpdate" updated, Ok updated)
  end.

(** [POST /api/devices/:id/mode] *)
Definition postMode (st : State) (id : string) (body : Obj) (now : Z)
  : State * Response :=
  let mode := get body "mode" in
  match getDevice st id with
  | None => (st, NotFound)
  | Some device =>
      let st :=
        if mqttConnected st
        then mqtt_publish st (commandTopic id) {[ "mode" := mode ]}
        else st in
      let '(st, updated) := updateDevice st id {[ "mode" := mode ]} now in
      (io_emit st "deviceUpdate" updated, Ok updated)
  end.

(** [POST /api/devices/:id/data] *)
Definition postData (st : State) (id : string) (body : Obj) (now : Z)
  : State * Response :=
  (handleDeviceData st id body now, Ok None).

(** [socket.on('pumpControl', ...)]: the event has no acknowledgement, the
    handler replies nothing to the sender. *)
Definition onPumpControl (st : State) (deviceId : string) (action : Value)
    (now : Z) : State :=
  let turnOn := str_eq action "on" in
  let st :=
    if mqttConnected st
    then mqtt_publish st (commandTopic deviceId) {[ "pump" := VBool turnOn ]}
    else st in
  match updateDevice st deviceId (pumpUpdates turnOn) now with
  | (st, Some updated) => io_emit st "deviceUpdate" (Some updated)
  | (st, None) => st
  end.

Definition zoneLabels : gmap string Value :=
  {[ "garden" := VStr "🌳 สวน";
     "balcony" := VStr "🏠 ระเบียง";
     "greenhouse" := VStr "🏡 โรงเรือน";
     "indoor" := VStr "🪴 ในร่ม" ]}.

Definition newDevice (body : Obj) (now : Z) : Obj :=
  {[ "id" := VStr ("device_" +:+ pretty now);
     "name" := get body "name";
     "zone" := js_or (get body "zone") (VStr "garden");
     "zoneLabel" :=
       js_or (match get body "zone" with
              | VStr z => default VUndef (zoneLabels !! z)
              | _ => VUndef
              end) (VStr "🌳 สวน");
     "ip" := get body "ip";
     "status" := VStr "offline";
     "temperature" := VNum 0%Q;
     "humidity" := VNum 0%Q;
     "soilMoisture" := VNum 0%Q;
     "pumpActive" := VBool false;
     "mode" := VStr "auto" ]}.

(** [POST /api/devices] *)
Definition postDevices (st : State) (body : Obj) (now : Z)
  : State * Response :=
  if negb (truthy (get body "name")) || negb (truthy (get body "ip")) then
    (st, BadRequest)
  else
    match createDevice st (newDevice body now) now with
    | (st, None) => (st, ServerError)
    | (st, Some created) =>
        (io_emit st "deviceAdded" (Some created), Created created)
    end.

(** [DELETE /api/devices/:id] *)
Definition deleteDevices (st : State) (id : string) : State * Response :=
  match getDevice st id with
  | None => (st, NotFound)
  | Some device =>
      match deleteDevice st id with
      | (st, false) => (st, ServerError)
      | (st, true) =>
          (io_emit st "deviceDeleted" (Some {[ "id" := VStr id ]}), Ok None)
      end
  end.

(** ** The initial state with Supabase configured

    [schema.sql] seeds the [devices] table with the same device; the
    in-memory array is initialised whether or not the database is used. *)
Definition seedRow (boot : Z) : Obj :=
  <["created_at" := VDate boot]>
  {[ "id" := VStr "device_001";
     "name" := VStr "สวนหน้าบ้าน";
     "zone" := VStr "garden";
     "zone_label" := VStr "🌳 สวน";
     "ip" := VStr "192.168.0.110";
     "status" := VStr "online";
     "temperature" := VNum (65 # 2)%Q;
     "humidity" := VNum 65%Q;
     "soil_moisture" := VNum 78%Q;
     "pump_active" := VBool false;
     "mode" := VStr "auto";
     "owner_id" := VNull;
     "last_update" := VDate boot ]}.

Definition initialDatabaseState (boot : Z) : State :=
  mkState true [seedRow boot] [] [seedDevice boot] ∅ ∅ true [] [].

(** ** Operations as data, for statements over runs of the server *)

Inductive Op : Type :=
  | MqttMessage (deviceId messageType : string) (data : option Obj)
  | HttpData (id : string) (body : Obj)
  | HttpPump (id : string) (body : Obj)
  | HttpMode (id : string) (body : Obj)
  | SocketPump (deviceId : string) (action : Value)
  | HttpCreate (body : Obj)
  | Sweep.

Definition step (st : State) (op : Op * Z) : State :=
  let '(op, now) := op in
  match op with
  | MqttMessage deviceId messageType data =>
      onMqttMessage st deviceId messageType data now
  | HttpData id body => fst (postData st id body now)
  | HttpPump id body => fst (postPump st id body now)
  | HttpMode id body => fst (postMode st id body now)
  | SocketPump deviceId action => onPumpControl st deviceId action now
  | HttpCreate body => fst (postDevices st body now)
  | Sweep => checkOfflineDevices st now
  end.

Definition run (st : State) (ops : list (Op * Z)) : State := foldl step st ops.

(** The operator commands of the dispatcher, with the reply each one sends
    back ([None] for the Socket.io event, which has no reply). *)
Inductive Command : Type :=
  | PumpRequest (id : string) (body : Obj)
  | ModeRequest (id : string) (body : Obj)
  | PumpEvent (deviceId : string) (action : Value).

Definition target (c : Command) : string :=
  match c with
  | PumpRequest id _ | ModeRequest id _ | PumpEvent id _ => id
  end.

Definition dispatch (st : State) (c : Command) (now : Z)
  : State * option Response :=
  match c with
  | PumpRequest id body =>
      let '(st, r) := postPump st id body now in (st, Some r)
  | ModeRequest id body =>
      let '(st, r) := postMode st id body now in (st, Some r)
  | PumpEvent deviceId action => (onPumpControl st deviceId action now, None)
  end.

(** ** Auxiliary definitions for the statements *)

(** The record that [Object.assign(device, updates, { lastUpdate })]
    leaves in the array. *)
Definition merged (device updates : Obj) (now : Z) : Obj :=
  assign (assign device updates) {[ "lastUpdate" := VDate now ]}.

(** The camelCase keys that the database branch of [updateDevice] copies. *)
Definition patchable : list string :=
  ["temperature"; "humidity"; "soilMoisture"; "pumpActive"; "status"; "mode"].

Definition inb (k : string) (l : list string) : bool := bool_decide (k ∈ l).

(** [v !== undefined ? v : (nothing)] *)
Definition defined (v : Value) : option Value :=
  if decide (v = VUndef) then None else Some v.

(** The column that [mapDeviceFromDB] reads for each key of its result. *)
Definition columns : gmap string string :=
  {[ "id" := "id"; "name" := "name"; "zone" := "zone";
     "zoneLabel" := "zone_label"; "ip" := "ip"; "status" := "status";
     "temperature" := "temperature"; "humidity" := "humidity";
     "soilMoisture" := "soil_moisture"; "pumpActive" := "pump_active";
     "mode" := "mode"; "lastUpdate" := "last_update" ]}.

(** Everything but the two device stores is left alone. *)
Definition same_periphery (st st' : State) : Prop :=
  useDatabase st' = useDatabase st ∧
  db_history st' = db_history st ∧
  memorySensorHistory st' = memorySensorHistory st ∧
  deviceLastSeen st' = deviceLastSeen st ∧
  mqttConnected st' = mqttConnected st ∧
  mqttPublished st' = mqttPublished st ∧
  ioEmitted st' = ioEmitted st.

(** The wire format of a telemetry payload: numeric readings and an
    optional boolean actuator flag. *)
Definition is_number (v : Value) : bool :=
  match v with VNum _ => true | _ => false end.

Definition is_flag (v : Value) : bool :=
  match v with VUndef | VBool _ => true | _ => false end.

Definition requiredNumeric (data : Obj) : bool :=
  is_number (get data "temperature") && is_number (get data "humidity")
  && is_number (get data "soilPercent").

Definition acceptedTelemetry (data : Obj) : bool :=
  requiredNumeric data && is_flag (get data "pumpActive").

(** [status == watering] exactly when the pump flag is set. *)
Definition status_matches_pump (d : Obj) : Prop :=
  get d "status" = VStr "watering" ↔ truthy (get d "pumpActive") = true.

(** ** Concrete payloads used in the examples *)

(** [{ temperature: 30, humidity: 60, soilPercent: 50 }] *)
Definition reading : Obj :=
  {[ "temperature" := VNum 30%Q; "humidity" := VNum 60%Q;
     "soilPercent" := VNum 50%Q ]}.

(** [{ temperature: 31, humidity: 55, soilPercent: 40, pumpActive: true }] *)
Definition wateringReading : Obj :=
  {[ "temperature" := VNum 31%Q; "humidity" := VNum 55%Q;
     "soilPercent" := VNum 40%Q; "pumpActive" := VBool true ]}.

(** [{ temperature: "hot", humidity: null }], no [soilPercent] at all. *)
Definition malformedReading : Obj :=
  {[ "temperature" := VStr "hot"; "humidity" := VNull ]}.

(** [{ temperature: 30, humidity: 60, soilPercent: 50.5 }] *)
Definition fractionalReading : Obj :=
  {[ "temperature" := VNum 30%Q; "humidity" := VNum 60%Q;
     "soilPercent" := VNum (101 # 2)%Q ]}.

(** [{ temperature: 32.123456789, humidity: 60, soilPercent: 50 }] *)
Definition preciseReading : Obj :=
  {[ "temperature" := VNum (32123456789 # 1000000000)%Q;
     "humidity" := VNum 60%Q; "soilPercent" := VNum 50%Q ]}.

(** [{ mode: 'manual' }] *)
Definition manualPatch : Obj := {[ "mode" := VStr "manual" ]}.

(** The state in which a command handler calls [updateDevice]: the one it
    was entered in, after the publish if the client is connected. *)
Definition published (st : State) (topic : string) (payload : Obj) : State :=
  if mqttConnected st then mqtt_publish st topic payload else st.

(** The reply expected for a command that names an unknown device. *)
Definition replies_not_found (reply : option Response) : Prop :=
  reply = Some NotFound.

(** The pump state that a command leaves in the record. *)
Definition pump_set (d' : Obj) (action : Value) : Prop :=
  get d' "pumpActive" = VBool (str_eq action "on") ∧
  get d' "status" =
    (if str_eq action "on" then VStr "watering" else VStr "online").

(** The test that the sweep's callback applies to a record, and what it
    does to the record when the test succeeds. *)
Definition goesOffline (lastSeen : gmap string Z) (now : Z) (device : Obj)
  : bool :=
  silent (lastSeenOf lastSeen device) now
  && negb (str_eq (get device "status") "offline").

Definition markOffline (device : Obj) : Obj :=
  <["status" := VStr "offline"]> device.

(** No event in the list carries a record with this id. *)
Definition silent_about (id : string) (events : list Event) : Prop :=
  Forall (λ e : Event, ∀ d, e.2 = Some d → has_id id d = false) events.

(** Successive timer ticks of [setInterval(checkOfflineDevices, 30000)]. *)
Definition sweeps (st : State) (times : list Z) : State :=
  foldl checkOfflineDevices st times.

(** [{ name: 'bed-2', ip: '192.168.0.111' }], a registration request. *)
Definition registration : Obj :=
  {[ "name" := VStr "bed-2"; "ip" := VStr "192.168.0.111" ]}.

(** With Supabase configured: a device is registered at 5000, reports at
    6000 and is silent from then on. *)
Definition databaseDeviceReported : State :=
  handleDeviceData
    (fst (postDevices (initialDatabaseState 1000) registration 5000))
    "device_5000" reading 6000.

(** Without Supabase: the seeded device reports, pump running, at 2000 and
    is silent from then on. *)
Definition memoryDeviceWatering : State :=
  handleDeviceData (initialMemoryState 1000) "device_001" wateringReading 2000.

(** Without Supabase: two telemetry messages of the seeded device, hence
    two samples in its history. *)
Definition twoSamples : State :=
  handleDeviceData
    (handleDeviceData (initialMemoryState 1000) "device_001" reading 2000)
    "device_001" wateringReading 3000.

(** The seeded record still carries its snake_case properties with the
    values given at process start. *)
Definition seedKept (boot : Z) (d0 : Obj) : Prop :=
  get d0 "id" = VStr "device_001" ∧
  d0 !! "soil_moisture" = Some (VNum 78%Q) ∧
  d0 !! "pump_active" = Some (VBool false) ∧
  d0 !! "last_update" = Some (VDate boot).

(** A patch as the callers of [updateDevice] build them: camelCase keys,
    no [id]. *)
Definition camelPatch (updates : Obj) : Prop :=
  updates !! "id" = None ∧
  updates !! "soil_moisture" = None ∧
  updates !! "pump_active" = None ∧
  updates !! "last_update" = None.

(** The fallback is in use, and every record stored under the seeded id
    is one that has kept the seed's properties. *)
Definition fallbackInv (boot : Z) (st : State) : Prop :=
  useDatabase st = false ∧
  ∀ d, d ∈ memoryDevices st → has_id "device_001" d = true →
       seedKept boot d.

(** A telemetry message of the seeded device over HTTP, then a sweep. *)
Definition reportThenSweep : list (Op * Z) :=
  [(HttpData "device_001" reading, 2000); (Sweep, 30000)].

(** With Supabase configured: the seeded device reports, falls silent past
    a sweep, reports again and falls silent for good. *)
Definition seedSilentTwice : list (Op * Z) :=
  [(MqttMessage "device_001" "data" (Some reading), 2000);
   (Sweep, 30000);
   (MqttMessage "device_001" "data" (Some reading), 31000);
   (Sweep, 60000);
   (Sweep, 90000)].

(** ** Further definitions for statements about runs *)

(** A stream of telemetry messages, each with its device id and its time of
    arrival, handled in order. *)
Definition ingest (st : State) (msgs : list (string * Obj * Z)) : State :=
  foldl (λ st m, handleDeviceData st m.1.1 m.1.2 m.2) st msgs.

(** What one sweep at [now] makes of a record, given the [deviceLastSeen]
    map it reads. *)
Definition swept (lastSeen : gmap string Z) (now : Z) (d : Obj) : Obj :=
  if goesOffline lastSeen now d then markOffline d else d.

(** The parts of the state that only telemetry ingest writes. *)
Definition same_ingest_state (st st' : State) : Prop :=
  useDatabase st' = useDatabase st ∧
  deviceLastSeen st' = deviceLastSeen st ∧
  memorySensorHistory st' = memorySensorHistory st ∧
  db_history st' = db_history st.

(** The device that an operation reports telemetry for, if it is one. *)
Definition telemetryOf (op : Op) : option (string * Obj) :=
  match op with
  | MqttMessage deviceId messageType (Some data) =>
      if String.eqb messageType "data" then Some (deviceId, data) else None
  | HttpData id body => Some (id, body)
  | _ => None
  end.

(** [history.push(sample)] followed by the trimming to 720 entries. *)
Definition pushSample (history : list Obj) (sample : Obj) : list Obj :=
  if 720 <? Z.of_nat (length (history ++ [sample]))
  then tail (history ++ [sample]) else history ++ [sample].

(** Every in-memory history holds at most 720 samples. *)
Definition historyBounded (st : State) : Prop :=
  ∀ id h, memorySensorHistory st !! id = Some h → (length h ≤ 720)%nat.

(** The timestamps of a history, oldest first. *)
Definition timestamps (h : list Obj) : list Z :=
  (λ s, default 0 (getTime (get s "timestamp"))) <$> h.

(** Every in-memory history is in chronological order and ends no later
    than [t]. *)
Definition historyChronological (t : Z) (st : State) : Prop :=
  ∀ id h, memorySensorHistory st !! id = Some h →
    StronglySorted Z.le (timestamps h) ∧
    Forall (λ ts, ts ≤ t) (timestamps h).

(** The times of a run never go backwards, starting from [t]. *)
Fixpoint monotone (t : Z) (ops : list (Op * Z)) : Prop :=
  match ops with
  | [] => True
  | (_, now) :: ops => t ≤ now ∧ monotone now ops
  end.


(** The defaults that [mapDeviceToDB] substitutes for falsy fields, by
    camelCase key. *)
Definition dbDefaults : gmap string Value :=
  {[ "zone" := VStr "garden";
     "zoneLabel" := VStr "🌳 สวน";
     "status" := VStr "offline";
     "temperature" := VNum 0%Q;
     "humidity" := VNum 0%Q;
     "soilMoisture" := VNum 0%Q;
     "pumpActive" := VBool false;
     "mode" := VStr "auto" ]}.

(** What the round trip through the database format makes of the field
    [k] of a device. *)
Definition roundTripField (device : Obj) (k : string) : Value :=
  match dbDefaults !! k with
  | Some dflt => js_or (get device k) dflt
  | None => if inb k ["id"; "name"; "ip"] then get device k else VUndef
  end.

(** The id that the create route gives a device registered at [now]. *)
Definition newId (now : Z) : string := "device_" +:+ pretty now.

(** No two records of the in-memory array have the same [id]. *)
Definition uniqueIds (st : State) : Prop :=
  NoDup ((λ d, get d "id") <$> memoryDevices st).

(** The defaults of the [devices] table that an insert fills in. *)
Definition insertDefaults (now : Z) : Obj :=
  {[ "owner_id" := VNull;
     "last_update" := VDate now;
     "created_at" := VDate now ]}.

(** Case analysis on a property name: the twelve keys of a device record
    in the API format, then all the others. *)
Ltac device_key_cases k :=
  destruct (decide ("id" = k)) as [<-|?];
  [|destruct (decide ("name" = k)) as [<-|?];
  [|destruct (decide ("zone" = k)) as [<-|?];
  [|destruct (decide ("zoneLabel" = k)) as [<-|?];
  [|destruct (decide ("ip" = k)) as [<-|?];
  [|destruct (decide ("status" = k)) as [<-|?];
  [|destruct (decide ("temperature" = k)) as [<-|?];
  [|destruct (decide ("humidity" = k)) as [<-|?];
  [|destruct (decide ("soilMoisture" = k)) as [<-|?];
  [|destruct (decide ("pumpActive" = k)) as [<-|?];
  [|destruct (decide ("mode" = k)) as [<-|?];
  [|destruct (decide ("lastUpdate" = k)) as [<-|?]]]]]]]]]]]].

(** ** The statistics endpoint *)

Record Stats : Type := mkStats {
  total : nat;
  online : nat;
  watering : nat;
  alerts : nat
}.

Section statistics.
(** [ToNumber] on strings and on dates is left to the caller of these
    definitions ([None] stands for [NaN]); no statement below depends on
    what it returns. *)
Variable toNumber : Value → option Q.

Definition numberOf (v : Value) : option Q :=
  match v with
  | VUndef => None
  | VNull => Some 0%Q
  | VBool b => Some (if b then 1%Q else 0%Q)
  | VNum q => Some q
  | VStr _ | VDate _ => toNumber v
  end.

(** [v < n] for a number [n]; a comparison with [NaN] is false. *)
Definition js_lt (v : Value) (n : Q) : bool :=
  match numberOf v with
  | Some q => negb (Qle_bool n q)
  | None => false
  end.

(** [d.status !== 'offline'] *)
Definition isOnline (d : Obj) : bool := negb (str_eq (get d "status") "offline").

(** [d.status === 'watering' || d.pumpActive] *)
Definition isWatering (d : Obj) : bool :=
  str_eq (get d "status") "watering" || truthy (get d "pumpActive").

(** [d.soilMoisture < 30 && d.status !== 'offline'] *)
Definition isAlert (d : Obj) : bool :=
  js_lt (get d "soilMoisture") 30 && isOnline d.

(** [GET /api/stats] *)
Definition getStats (st : State) : Stats :=
  let devices := getDevices st in
  mkStats (length devices)
          (length (filter (λ d, isOnline d) devices))
          (length (filter (λ d, isWatering d) devices))
          (length (filter (λ d, isAlert d) devices)).

End statistics.

(** A sweep either leaves a record as it is or leaves it [offline] with the
    same soil moisture. *)
Definition demoted (d d' : Obj) : Prop :=
  d' = d ∨
  (get d' "status" = VStr "offline" ∧
   get d' "soilMoisture" = get d "soilMoisture").

(** The property names that every plain object inherits from
    [Object.prototype].  [deviceLastSeen], [memorySensorHistory] and
    [activeTokens] are plain objects: reading one of these names from them
    gives the inherited value, not [undefined], and assigning to
    [__proto__] creates no property.  The finite maps of this development
    hold the own properties only, so statements that read such a map at an
    arbitrary name exclude these. *)
Definition objectPrototypeKeys : list string :=
  ["constructor"; "__defineGetter__"; "__defineSetter__"; "hasOwnProperty";
   "__lookupGetter__"; "__lookupSetter__"; "isPrototypeOf";
   "propertyIsEnumerable"; "toString"; "valueOf"; "__proto__";
   "toLocaleString"].

(** ** Accounts and sessions ([/api/auth/login], [register], [verify])

    The routes are followed for requests whose [username] and [password]
    are strings or absent ([None]).  [bcrypt] is not modelled: the hash
    that [hashSync] returns is an input of [register], and [compareSync]
    is a parameter, as is the length that JavaScript gives a string.  The
    [createdAt] property of a user is never read and is left out. *)
Module Auth.

Record User : Type := mkUser
  { userId : string;
    username : string;
    passwordHash : string;
    role : string }.

(** [{ id, username, role }]: what a token stands for. *)
Record Session : Type := mkSession
  { sessionId : string;
    sessionUsername : string;
    sessionRole : string }.

(** The [app_users] table of [schema.sql] and the two module-level
    variables of the routes.  [activeTokens] holds the own properties of
    the object. *)
Record Store : Type := mkStore
  { app_users : list User;
    memoryUsers : list User;
    activeTokens : gmap string Session }.

Inductive LoginReply : Type :=
  | LoginMissing                                   (* 400 *)
  | LoginRejected                                  (* 401 *)
  | LoggedIn (token : string) (user : Session).    (* 200 *)

Inductive RegisterReply : Type :=
  | RegisterMissing                                (* 400 *)
  | PasswordTooShort                               (* 400 *)
  | UsernameTaken                                  (* 400 *)
  | RegisterFailed                                 (* 500 *)
  | Registered.                                    (* 200 *)

(** [user] is [None] when the value found is not a session but a property
    inherited from [Object.prototype], which [res.json] cannot render. *)
Inductive VerifyReply : Type :=
  | TokenInvalid                                   (* 401 *)
  | TokenValid (user : option Session).            (* 200 *)

Definition sessionOf (u : User) : Session :=
  mkSession (userId u) (username u) (role u).

(** The account created at process start; its hash is
    [bcrypt.hashSync('admin123', 8)]. *)
Definition adminUser (adminHash : string) : User :=
  mkUser "user_admin" "admin" adminHash "admin".

Definition initialStore (rows : list User) (adminHash : string) : Store :=
  mkStore rows [adminUser adminHash] ∅.

(** [users.find(u => u.username === name)], and likewise
    [.eq('username', name).single()] on a table whose [username] column
    is [UNIQUE]. *)
Definition findUser (name : string) (users : list User) : option User :=
  snd <$> list_find (λ u, username u = name) users.

(** An insert into [app_users]: refused when the primary key or the
    [UNIQUE] user name is already there. *)
Definition insertUser (rows : list User) (row : User) : option (list User) :=
  if decide (Exists (λ u, userId u = userId row ∨ username u = username row)
               rows)
  then None
  else Some (rows ++ [row]).

(** A field that passes [!field] as false: a non-empty string. *)
Definition given (field : option string) : option string :=
  match field with
  | Some (String a s) => Some (String a s)
  | _ => None
  end.

(** ['token_' + Date.now() + '_' + Math.random().toString(36).substr(2, 9)],
    with the random part as an argument. *)
Definition generateToken (now : Z) (random : string) : string :=
  "token_" +:+ pretty now +:+ "_" +:+ random.

(** [s.replace(pattern, '')] for a string pattern: the first occurrence
    is removed. *)
Definition replaceFirst (pattern s : string) : string :=
  match String.index 0 pattern s with
  | Some i =>
      String.substring 0 i s +:+
      String.substring (i + String.length pattern)
        (String.length s - (i + String.length pattern)) s
  | None => s
  end.

Section bcrypt.
Variable compareSync : string → string → bool.
Variable jsLength : string → nat.

(** [found && bcrypt.compareSync(password, found.passwordHash)] *)
Definition checkPassword (pass : string) (found : option User)
  : option Session :=
  match found with
  | Some u => if compareSync pass (passwordHash u) then Some (sessionOf u)
              else None
  | None => None
  end.

(** [POST /api/auth/login] *)
Definition login (db : bool) (s : Store) (name pass : option string)
    (now : Z) (random : string) : Store * LoginReply :=
  match given name, given pass with
  | Some name, Some pass =>
      let fromTable :=
        if db then checkPassword pass (findUser name (app_users s))
        else None in
      let user :=
        match fromTable with
        | Some u => Some u
        | None => checkPassword pass (findUser name (memoryUsers s))
        end in
      match user with
      | None => (s, LoginRejected)
      | Some u =>
          let token := generateToken now random in
          (mkStore (app_users s) (memoryUsers s)
             (<[token := u]> (activeTokens s)),
           LoggedIn token u)
      end
  | _, _ => (s, LoginMissing)
  end.

(** [POST /api/auth/register]; [hash] is what [bcrypt.hashSync(password, 8)]
    returned and [uuid] the key that the table generates for a new row. *)
Definition register (db : bool) (s : Store) (name pass : option string)
    (hash uuid : string) (now : Z) : Store * RegisterReply :=
  match given name, given pass with
  | Some name, Some pass =>
      if (jsLength pass <? 4)%nat then (s, PasswordTooShort)
      else if db then
        match findUser name (app_users s) with
        | Some _ => (s, UsernameTaken)
        | None =>
            match insertUser (app_users s) (mkUser uuid name hash "user") with
            | None => (s, RegisterFailed)
            | Some rows =>
                (mkStore rows (memoryUsers s) (activeTokens s), Registered)
            end
        end
      else
        match findUser name (memoryUsers s) with
        | Some _ => (s, UsernameTaken)
        | None =>
            (mkStore (app_users s)
               (memoryUsers s
                  ++ [mkUser ("user_" +:+ pretty now) name hash "user"])
               (activeTokens s),
             Registered)
        end
  | _, _ => (s, RegisterMissing)
  end.

(** [GET /api/auth/verify].  [activeTokens[token]] finds an own property
    or, failing that, a property inherited from [Object.prototype]; both
    are truthy. *)
Definition verify (s : Store) (authorization : option string) : VerifyReply :=
  match authorization with
  | None => TokenInvalid
  | Some header =>
      match replaceFirst "Bearer " header with
      | EmptyString => TokenInvalid
      | token =>
          match activeTokens s !! token with
          | Some u => TokenValid (Some u)
          | None =>
              if inb token objectPrototypeKeys then TokenValid None
              else TokenInvalid
          end
      end
  end.

(** Requests as data, for statements over runs. *)
Inductive Request : Type :=
  | Login (name pass : option string) (random : string)
  | Register (name pass : option string) (hash uuid : string)
  | Verify (authorization : option string).

Definition handle (db : bool) (s : Store) (r : Request * Z) : Store :=
  match r with
  | (Login name pass random, now) => (login db s name pass now random).1
  | (Register name pass hash uuid, now) =>
      (register db s name pass hash uuid now).1
  | (Verify _, _) => s
  end.

Definition serve (db : bool) (s : Store) (requests : list (Request * Z))
  : Store :=
  foldl (handle db) s requests.

End bcrypt.

(** A request that draws the token [token] again. *)
Definition drawsToken (token : string) (r : Request * Z) : Prop :=
  match r with
  | (Login _ _ random, now) => generateToken now random = token
  | _ => False
  end.

(** A stand-in for [bcrypt] in concrete runs: the hash of a password is
    the password behind a marker. *)
Definition plainHash (pass : string) : string := "$plain$" +:+ pass.
Definition plainCompare (pass hash : string) : bool :=
  String.eqb hash (plainHash pass).

(** The user names of each store are pairwise distinct. *)
Definition uniqueNames (s : Store) : Prop :=
  NoDup (username <$> app_users s) ∧ NoDup (username <$> memoryUsers s).

End Auth.

(** ** The dashboard: thinning a history for the chart

    [sampleData] of the dashboard script.  The rows of a history are
    distinct objects, so [!==] between two of them compares their
    positions in [data]; the function is followed on positions first. *)

(** [Math.ceil(a / b)], for [b > 0]. *)
Definition ceilDiv (a b : nat) : nat := (a + b - 1) / b.

(** [for (let i = 0; i < length; i += step) sampled.push(data[i])]: the
    positions pushed, starting from [i].  [fuel] bounds the number of
    iterations; with a positive [step], [length] iterations are enough. *)
Fixpoint sampleLoop (fuel i step len : nat) : list nat :=
  match fuel with
  | O => []
  | S fuel =>
      if (i <? len)%nat then i :: sampleLoop fuel (i + step) step len else []
  end.

(** The positions that [sampleData] keeps of an array of [len > maxPoints]
    elements.  For [maxPoints = 0] the step is [Infinity]; any step of at
    least [len] stops the loop after the first position as well. *)
Definition sampleIndices (len maxPoints : nat) : list nat :=
  let step :=
    match maxPoints with O => len | _ => ceilDiv len maxPoints end in
  let sampled := sampleLoop len 0 step len in
  if decide (last sampled = Some (len - 1)%nat) then sampled
  else sampled ++ [(len - 1)%nat].

Definition sampleData {A : Type} (data : list A) (maxPoints : nat) : list A :=
  if (length data <=? maxPoints)%nat then data
  else omap (λ i, data !! i) (sampleIndices (length data) maxPoints).

(** ** What the tables store as it is given

    A column converts what is written to it ([Supabase.convert]): a
    [REAL] column rounds to single precision, an [INTEGER] column refuses
    a fraction and a number beyond 32 bits, a [TEXT] column returns a
    number or a boolean as a string.  Statements that read back what the
    database stored are made for values that their column keeps. *)
Definition keeps (ty : Supabase.ColumnType) (v : Value) : Prop :=
  Supabase.convert ty v = Some v.

Definition textual (v : Value) : Prop :=
  v = VUndef ∨ v = VNull ∨ ∃ s, v = VStr s.

(** A whole number of 32 bits. *)
Definition integral (v : Value) : Prop :=
  ∃ n : Z, v = VNum (inject_Z n) ∧ - 2 ^ 31 ≤ n < 2 ^ 31.

(** The readings of a telemetry payload are kept by the columns they are
    written to: temperature and humidity by a [REAL] column, the soil
    moisture by an [INTEGER] column. *)
Definition keptReadings (data : Obj) : Prop :=
  keeps Supabase.REAL (get data "temperature") ∧
  keeps Supabase.REAL (get data "humidity") ∧
  keeps Supabase.INTEGER (get data "soilPercent").

(** What the [devices] table returns for the field [k] of a patch when
    [v] is written to it; [None] when the column refuses [v]. *)
Definition written (k : string) (v : Value) : option Value :=
  columns !! k ≫= λ col, Supabase.cast Supabase.devices col v.

(** What the registry returns for a value written to a field whose
    column has the type [ty]: what the column returns with the database,
    the value itself with the in-memory array. *)
Definition storedAs (st : State) (ty : Supabase.ColumnType) (v : Value)
  : option Value :=
  if useDatabase st then Supabase.convert ty v else Some v.

(** A patch that the [devices] table does not refuse. *)
Definition storable (updates : Obj) : Prop :=
  ∀ k, k ∈ patchable → get updates k ≠ VUndef →
       is_Some (written k (get updates k)).

(** A field that [mapDeviceToDB] writes as [field || default]: falsy, or
    of the column's type. *)
Definition defaulted (P : Value → Prop) (v : Value) : Prop :=
  truthy v = false ∨ P v.

(** A device record that the [devices] table stores as it is given. *)
Definition fitsSchema (device : Obj) : Prop :=
  (∃ s, get device "name" = VStr s) ∧
  (get device "ip" = VNull ∨ ∃ s, get device "ip" = VStr s) ∧
  defaulted (λ v, ∃ s, v = VStr s) (get device "zone") ∧
  defaulted (λ v, ∃ s, v = VStr s) (get device "zoneLabel") ∧
  defaulted (λ v, ∃ s, v = VStr s) (get device "status") ∧
  defaulted (λ v, ∃ s, v = VStr s) (get device "mode") ∧
  defaulted (keeps Supabase.REAL) (get device "temperature") ∧
  defaulted (keeps Supabase.REAL) (get device "humidity") ∧
  defaulted integral (get device "soilMoisture") ∧
  defaulted (λ v, ∃ b, v = VBool b) (get device "pumpActive").

(** A registration request with the fields the dashboard sends: [name]
    and [ip] are strings, [zone] is absent or a string.  ([zoneLabels] is
    a plain object: a zone that names a property inherited from
    [Object.prototype] is excluded.) *)
Definition registrationFields (body : Obj) : Prop :=
  (∃ s, get body "name" = VStr s) ∧
  (∃ s, get body "ip" = VStr s) ∧
  (get body "zone" = VUndef ∨
   ∃ z, get body "zone" = VStr z ∧ z ∉ objectPrototypeKeys).

(** ** The dashboard's copy of the registry

    The Socket.io handlers of the dashboard script keep a [devices] array
    in step with the server.  A payload arrives as JSON: properties whose
    value is [undefined] are not in it. *)
Module Dashboard.

(** [a === b] for values decoded from JSON. *)
Definition strict_eq (a b : Value) : bool :=
  match a, b with
  | VUndef, VUndef | VNull, VNull => true
  | VBool x, VBool y => Bool.eqb x y
  | VNum x, VNum y => Qeq_bool x y
  | VStr x, VStr y => String.eqb x y
  | VDate x, VDate y => x =? y
  | _, _ => false
  end.

(** [socket.on('initialData', data => { devices = data.devices })] *)
Definition onInitialData (sent : list Obj) : list Obj := json_strip <$> sent.

(** [socket.on('deviceUpdate', ...)]: the first record with the id of the
    one received is replaced; a record with an unknown id is dropped. *)
Definition onDeviceUpdate (devices : list Obj) (device : Obj) : list Obj :=
  match list_find (λ d, strict_eq (get d "id") (get device "id") = true)
          devices with
  | Some (index, _) => <[index := device]> devices
  | None => devices
  end.

(** [socket.on('deviceAdded', device => devices.push(device))] *)
Definition onDeviceAdded (devices : list Obj) (device : Obj) : list Obj :=
  devices ++ [device].

(** [socket.on('deviceDeleted', ({ id }) =>
       devices = devices.filter(d => d.id !== id))] *)
Definition onDeviceDeleted (devices : list Obj) (payload : Obj) : list Obj :=
  filter (λ d, strict_eq (get d "id") (get payload "id") = false) devices.

(** One event of [io.emit] as the dashboard handles it.  A [null] payload
    makes the handlers of [deviceUpdate] and [deviceDeleted] throw before
    they write; the server emits [deviceAdded] with a device only. *)
Definition receive (devices : list Obj) (e : Event) : list Obj :=
  match e with
  | (name, Some payload) =>
      let payload := json_strip payload in
      if String.eqb name "deviceUpdate" then onDeviceUpdate devices payload
      else if String.eqb name "deviceAdded" then onDeviceAdded devices payload
      else if String.eqb name "deviceDeleted"
           then onDeviceDeleted devices payload
      else devices
  | (_, None) => devices
  end.

Definition receiveAll (devices : list Obj) (events : list Event) : list Obj :=
  foldl receive devices events.

End Dashboard.

(** What the server is asked to do, the delete route included. *)
Inductive Activity : Type :=
  | Operation (op : Op)
  | HttpDelete (id : string).

Definition perform (st : State) (a : Activity * Z) : State :=
  match a with
  | (Operation op, now) => step st (op, now)
  | (HttpDelete id, _) => (deleteDevices st id).1
  end.

Definition performAll (st : State) (acts : list (Activity * Z)) : State :=
  foldl perform st acts.

(** Without Supabase: a device is registered, the seeded device reports,
    the new device is deleted again, and a sweep finds the seeded device
    silent. *)
Definition registerReportDelete : list (Activity * Z) :=
  [(Operation (HttpCreate registration), 5000);
   (Operation (HttpData "device_001" reading), 6000);
   (HttpDelete "device_5000", 7000);
   (Operation Sweep, 30000)].

(** No device is created under an id that is taken: no two creations
    fall into the same millisecond, and none hits a seeded id. *)
Fixpoint createsFresh (st : State) (acts : list (Activity * Z)) : Prop :=
  match acts with
  | [] => True
  | a :: acts =>
      match a with
      | (Operation (HttpCreate _), now) => getDevice st (newId now) = None
      | _ => True
      end ∧ createsFresh (perform st a) acts
  end.

(** After the server went from [st] to [st'], a dashboard that showed the
    in-memory registry of [st] and received the events emitted in between
    shows that of [st']. *)
Definition follows (st st' : State) : Prop :=
  ∃ events,
    ioEmitted st' = ioEmitted st ++ events ∧
    Dashboard.receiveAll (Dashboard.onInitialData (memoryDevices st)) events
      = Dashboard.onInitialData (memoryDevices st').

(* ================================================================== *)
(** * Properties *)

(** ** Objects *)

Section objects.
Implicit Types (o target source : Obj) (k : string) (v : Value).

Lemma get_lookup o k v : o !! k = Some v → get o k = v.
Proof. unfold get. by intros ->. Qed.

Lemma get_absent o k : o !! k = None → get o k = VUndef.
Proof. unfold get. by intros ->. Qed.

Lemma get_insert o k k' v :
  get (<[k := v]> o) k' = if decide (k = k') then v else get o k'.
Proof. unfold get. rewrite lookup_insert. by case_decide. Qed.

Lemma get_singleton k k' v :
  get ({[ k := v ]} : Obj) k' = if decide (k = k') then v else VUndef.
Proof. unfold get. rewrite lookup_singleton. by case_decide. Qed.

Lemma get_assign target source k :
  get (assign target source) k =
    match source !! k with Some v => v | None => get target k end.
Proof.
  unfold get, assign. rewrite lookup_union.
  by destruct (source !! k), (target !! k).
Qed.

Lemma get_assign_absent target source k :
  source !! k = None → get (assign target source) k = get target k.
Proof. intros H. by rewrite get_assign, H. Qed.

Lemma str_eq_true v s : str_eq v s = true ↔ v = VStr s.
Proof.
  unfold str_eq. destruct v; try (split; congruence).
  rewrite String.eqb_eq. split; congruence.
Qed.

Lemma str_eq_false v s : str_eq v s = false ↔ v ≠ VStr s.
Proof. rewrite <- str_eq_true. by destruct (str_eq v s). Qed.

Lemma has_id_true id o : has_id id o = true ↔ get o "id" = VStr id.
Proof. apply str_eq_true. Qed.

Lemma has_id_same_id id o o' :
  get o' "id" = get o "id" → has_id id o' = has_id id o.
Proof. unfold has_id. by intros ->. Qed.

Lemma has_id_distinct id id' o :
  id ≠ id' → has_id id o = true → has_id id' o = false.
Proof.
  intros Hne H%has_id_true. unfold has_id. rewrite H. simpl.
  by apply String.eqb_neq.
Qed.

Lemma get_json_strip (o : Obj) k : get (json_strip o) k = get o k.
Proof.
  unfold get, json_strip.
  destruct (o !! k) as [v|] eqn:Hv; simpl.
  - destruct (decide (v = VUndef)) as [->|Hne].
    + rewrite (proj2 (map_lookup_filter_None _ _ _)); [done|].
      right. intros x Hx. simpl. rewrite Hv in Hx. injection Hx as <-.
      by intros H.
    + by rewrite (map_lookup_filter_Some_2 _ _ k v).
  - rewrite (proj2 (map_lookup_filter_None _ _ _)); [done|]. by left.
Qed.

Lemma json_strip_lookup (o : Obj) k :
  json_strip o !! k = o !! k ≫= defined.
Proof.
  unfold json_strip, defined.
  destruct (o !! k) as [v|] eqn:Hv; simpl.
  - destruct (decide (v = VUndef)) as [->|Hne].
    + apply map_lookup_filter_None. right. intros x Hx.
      rewrite Hv in Hx. injection Hx as <-. by intros H.
    + by apply map_lookup_filter_Some_2.
  - apply map_lookup_filter_None. by left.
Qed.

End objects.

(** ** The two record formats *)

Section formats.
Implicit Types (row updates cols : Obj) (k c : string) (now : Z).
Implicit Types (table : Supabase.Table) (v : Value).

Lemma get_mapDeviceFromDB row k :
  get (mapDeviceFromDB row) k = from_option (get row) VUndef (columns !! k).
Proof.
  unfold mapDeviceFromDB, columns. rewrite !get_insert, get_singleton.
  rewrite !lookup_insert, lookup_singleton.
  repeat (case_decide; [done|]). done.
Qed.

Lemma lookup_copy_defined updates k col acc c :
  copy_defined updates k col acc !! c =
    if decide (col = c) then defined (get updates k) ∪ acc !! c else acc !! c.
Proof.
  unfold copy_defined, defined.
  destruct (decide (get updates k = VUndef)) as [E|E].
  - case_decide; [|done]. by rewrite (left_id_L None _).
  - rewrite lookup_insert. case_decide; [|done]. by destruct (acc !! c).
Qed.

Lemma dbUpdatesOf_lookup updates now c :
  dbUpdatesOf updates now !! c =
    if decide ("last_update" = c) then Some (VDate now)
    else if decide ("mode" = c) then defined (get updates "mode")
    else if decide ("status" = c) then defined (get updates "status")
    else if decide ("pump_active" = c) then defined (get updates "pumpActive")
    else if decide ("soil_moisture" = c) then
      defined (get updates "soilMoisture")
    else if decide ("humidity" = c) then defined (get updates "humidity")
    else if decide ("temperature" = c) then
      defined (get updates "temperature")
    else None.
Proof.
  unfold dbUpdatesOf. rewrite lookup_insert, !lookup_copy_defined, lookup_empty.
  repeat (case_decide;
    [subst; rewrite ?decide_False by (intro; discriminate);
     try done; by rewrite ?(right_id_L None _)|]).
  done.
Qed.

Lemma dbUpdatesOf_id updates now : dbUpdatesOf updates now !! "id" = None.
Proof. by rewrite dbUpdatesOf_lookup. Qed.

(** What a statement with the columns [cols] writes, column by column. *)
Lemma typed_lookup table cols cols' c :
  Supabase.typed table cols = Some cols' →
  cols' !! c = (cols !! c ≫= defined) ≫= Supabase.cast table c.
Proof.
  unfold Supabase.typed. case_decide; [|done]. intros [= <-].
  by rewrite map_lookup_imap, json_strip_lookup.
Qed.

Lemma typed_lookup_get table cols cols' c :
  Supabase.typed table cols = Some cols' →
  cols' !! c = defined (get cols c) ≫= Supabase.cast table c.
Proof.
  intros H. rewrite (typed_lookup _ _ _ c H). unfold get.
  by destruct (cols !! c).
Qed.

Lemma typed_cast table cols cols' c v :
  Supabase.typed table cols = Some cols' →
  cols !! c = Some v → v ≠ VUndef →
  ∃ v', Supabase.cast table c v = Some v' ∧ cols' !! c = Some v'.
Proof.
  intros H Hv Hne. rewrite (typed_lookup _ _ _ c H), Hv. simpl.
  unfold defined. rewrite decide_False by done. simpl.
  revert H. unfold Supabase.typed. case_decide as Hall; [|done]. intros _.
  destruct (Hall c v) as [v' Hv']; [|by exists v'].
  rewrite json_strip_lookup, Hv. simpl. unfold defined.
  by rewrite decide_False.
Qed.

Lemma typed_accepted table cols :
  (∀ c v, cols !! c = Some v → v ≠ VUndef →
          is_Some (Supabase.cast table c v)) →
  is_Some (Supabase.typed table cols).
Proof.
  intros H. unfold Supabase.typed. rewrite decide_True; [done|].
  intros c v Hv. rewrite json_strip_lookup in Hv.
  destruct (cols !! c) as [w|] eqn:Hw; [|done]. simpl in Hv.
  unfold defined in Hv. case_decide; [done|]. injection Hv as <-. eauto.
Qed.

Lemma typed_refused table cols c v :
  cols !! c = Some v → v ≠ VUndef → Supabase.cast table c v = None →
  Supabase.typed table cols = None.
Proof.
  intros Hv Hne Hc. unfold Supabase.typed. rewrite decide_False; [done|].
  intros H. specialize (H c v). rewrite json_strip_lookup, Hv in H.
  simpl in H. unfold defined in H. rewrite decide_False in H by done.
  specialize (H eq_refl). rewrite Hc in H. by destruct H.
Qed.

(** [TEXT] takes every value and keeps strings. *)
Lemma convert_text v : v ≠ VUndef → is_Some (Supabase.convert Supabase.TEXT v).
Proof. by destruct v. Qed.

Lemma keeps_textual v :
  textual v → v ≠ VUndef → keeps Supabase.TEXT v.
Proof. by intros [->|[->|[s ->]]]. Qed.

(** The column types behind the fields of a patch. *)
Lemma written_reading v :
  written "temperature" v = Supabase.convert Supabase.REAL v ∧
  written "humidity" v = Supabase.convert Supabase.REAL v ∧
  written "soilMoisture" v = Supabase.convert Supabase.INTEGER v.
Proof. done. Qed.

Lemma written_pumpActive v :
  written "pumpActive" v = Supabase.convert Supabase.BOOLEAN v.
Proof. done. Qed.

Lemma written_text v :
  written "status" v = Supabase.convert Supabase.TEXT v ∧
  written "mode" v = Supabase.convert Supabase.TEXT v.
Proof. done. Qed.

(** The columns that the database branch of [updateDevice] writes. *)
Lemma typed_dbUpdatesOf updates now cols c :
  Supabase.typed Supabase.devices (dbUpdatesOf updates now) = Some cols →
  cols !! c =
    if decide ("last_update" = c) then Some (VDate now)
    else if decide ("mode" = c) then
      defined (get updates "mode") ≫= written "mode"
    else if decide ("status" = c) then
      defined (get updates "status") ≫= written "status"
    else if decide ("pump_active" = c) then
      defined (get updates "pumpActive") ≫= written "pumpActive"
    else if decide ("soil_moisture" = c) then
      defined (get updates "soilMoisture") ≫= written "soilMoisture"
    else if decide ("humidity" = c) then
      defined (get updates "humidity") ≫= written "humidity"
    else if decide ("temperature" = c) then
      defined (get updates "temperature") ≫= written "temperature"
    else None.
Proof.
  intros H. rewrite (typed_lookup _ _ _ c H), dbUpdatesOf_lookup.
  assert (∀ v, defined v ≫= defined = defined v) as Hdd.
  { intros v. unfold defined. case_decide; [done|]. simpl.
    unfold defined. by rewrite decide_False. }
  repeat (case_decide; [subst c; rewrite ?Hdd; reflexivity|]).
  done.
Qed.

Lemma typed_dbUpdatesOf_id updates now cols :
  Supabase.typed Supabase.devices (dbUpdatesOf updates now) = Some cols →
  cols !! "id" = None.
Proof. intros H. by rewrite (typed_dbUpdatesOf _ _ _ _ H). Qed.

Lemma storable_typed updates now :
  storable updates →
  is_Some (Supabase.typed Supabase.devices (dbUpdatesOf updates now)).
Proof.
  intros Hs. apply typed_accepted. intros c v.
  rewrite dbUpdatesOf_lookup.
  assert (∀ k, k ∈ patchable → defined (get updates k) = Some v →
               is_Some (written k v)) as H.
  { intros k Hk. unfold defined. case_decide; [done|]. intros [= <-].
    by apply Hs. }
  repeat (case_decide;
    [subst c; intros Hv _;
     first [by injection Hv as <-
           |apply H in Hv; [exact Hv|set_solver]]|]).
  done.
Qed.

(** What a client reads after the database branch of [updateDevice]. *)
Lemma get_mapDeviceFromDB_patched row updates now cols k :
  Supabase.typed Supabase.devices (dbUpdatesOf updates now) = Some cols →
  get (mapDeviceFromDB (assign row cols)) k =
    if decide ("lastUpdate" = k) then VDate now
    else if inb k patchable then
      from_option id (get (mapDeviceFromDB row) k)
        (defined (get updates k) ≫= written k)
    else get (mapDeviceFromDB row) k.
Proof.
  intros Hc.
  rewrite (get_mapDeviceFromDB (assign _ _)). unfold columns.
  rewrite !lookup_insert, lookup_singleton.
  repeat
    match goal with
    | |- from_option _ _ (if decide (?a = k) then _ else _) = _ =>
        destruct (decide (a = k)) as [<-|?];
        [cbn [from_option];
         rewrite get_assign, (typed_dbUpdatesOf _ _ _ _ Hc);
         rewrite ?get_mapDeviceFromDB; reflexivity|]
    end.
  rewrite get_mapDeviceFromDB. unfold columns.
  rewrite !lookup_insert_ne by done. rewrite lookup_singleton_ne by done.
  assert (inb k patchable = false) as ->; [|done].
  apply bool_decide_eq_false_2. unfold patchable.
  rewrite !elem_of_cons, elem_of_nil.
  intros [?|[?|[?|[?|[?|[?|[]]]]]]]; congruence.
Qed.

(** The conversions at work: a [REAL] column rounds to single precision
    and keeps what a single holds as it is printed; an [INTEGER] column
    refuses a fraction and a number beyond 32 bits; a [TEXT] column
    returns numbers and booleans as strings. *)
Example real_column_rounds :
  Supabase.convert Supabase.REAL (VNum (32123456789 # 1000000000)%Q)
    = Some (VNum (32123455 # 1000000)%Q) ∧
  Supabase.convert Supabase.REAL (VNum (16777217 # 1)%Q)
    = Some (VNum (16777216 # 1)%Q) ∧
  keeps Supabase.REAL (VNum (65 # 2)%Q) ∧
  keeps Supabase.REAL (VNum (3247 # 100)%Q) ∧
  Supabase.convert Supabase.REAL (VStr "25.5") = Some (VNum (255 # 10)%Q) ∧
  Supabase.convert Supabase.REAL (VStr "hot") = None.
Proof. split_and!; reflexivity. Qed.

Example integer_column_refuses :
  Supabase.convert Supabase.INTEGER (VNum (101 # 2)%Q) = None ∧
  Supabase.convert Supabase.INTEGER (VNum 3000000000%Q) = None ∧
  keeps Supabase.INTEGER (VNum 78%Q) ∧
  keeps Supabase.INTEGER (VNum (-2147483648)%Q).
Proof. split_and!; reflexivity. Qed.

Example text_column_prints :
  Supabase.convert Supabase.TEXT (VNum 5%Q) = Some (VStr "5") ∧
  Supabase.convert Supabase.TEXT (VNum (65 # 2)%Q) = Some (VStr "32.5") ∧
  Supabase.convert Supabase.TEXT (VNum (1 # 10000000)%Q)
    = Some (VStr "1e-7") ∧
  Supabase.convert Supabase.TEXT (VBool true) = Some (VStr "true") ∧
  keeps Supabase.TEXT (VStr "manual") ∧
  keeps Supabase.TEXT VNull.
Proof. split_and!; reflexivity. Qed.

End formats.

(** ** The registry *)

Section registry.
Implicit Types (st : State) (id : string) (updates d row cols : Obj).
Implicit Types (now : Z) (tbl : list Obj).

Lemma list_find_replace (P : Obj → Prop) `{!∀ x, Decision (P x)}
    (l : list Obj) i x y :
  list_find P l = Some (i, x) → P y →
  list_find P (<[i := y]> l) = Some (i, y).
Proof.
  intros (Hl & HP & Hleast)%list_find_Some Hy.
  apply list_find_insert_Some. right; left.
  split_and!; eauto using lookup_lt_Some.
Qed.

Lemma get_merged d updates now k :
  get (merged d updates now) k =
    if decide ("lastUpdate" = k) then VDate now
    else match updates !! k with Some v => v | None => get d k end.
Proof.
  unfold merged. rewrite get_assign, lookup_singleton.
  case_decide; [done|]. apply get_assign.
Qed.

Lemma updateDevice_memory st id updates now i d :
  useDatabase st = false →
  list_find (λ d, has_id id d) (memoryDevices st) = Some (i, d) →
  updateDevice st id updates now =
    (set_memoryDevices st (<[i := merged d updates now]> (memoryDevices st)),
     Some (merged d updates now)).
Proof. intros Hm Hf. unfold updateDevice. by rewrite Hm, Hf. Qed.

Lemma patchable_not_lastUpdate k :
  inb k patchable = true → "lastUpdate" ≠ k.
Proof. intros H E. subst k. vm_compute in H. discriminate H. Qed.

Lemma has_id_updated id id' row cols :
  cols !! "id" = None →
  has_id id (if has_id id' row then assign row cols else row) = has_id id row.
Proof.
  intros Hc. destruct (has_id id' row); [|done].
  apply has_id_same_id. by apply get_assign_absent.
Qed.

(** Looking a row up by id after [cols] was written to the rows with the
    id [id']. *)
Lemma find_patch tbl id id' cols :
  cols !! "id" = None →
  list_find (λ row, has_id id row) (Supabase.patch tbl id' cols) =
    prod_map (λ i, i) (λ row, if has_id id' row then assign row cols else row)
      <$> list_find (λ row, has_id id row) tbl.
Proof.
  intros Hc. unfold Supabase.patch. rewrite list_find_fmap.
  f_equal. apply list_find_ext. intros row. simpl.
  by rewrite has_id_updated.
Qed.

(** The database branch of [updateDevice] when the table takes the
    columns, and when it refuses one. *)
Lemma updateDevice_database st id updates now cols :
  useDatabase st = true →
  Supabase.typed Supabase.devices (dbUpdatesOf updates now) = Some cols →
  updateDevice st id updates now =
    match list_find (λ row, has_id id row) (db_devices st) with
    | Some (_, row) =>
        (set_db_devices st (Supabase.patch (db_devices st) id cols),
         Some (mapDeviceFromDB (assign row cols)))
    | None => (st, None)
    end.
Proof.
  intros Hm Hc. unfold updateDevice, Supabase.update, Supabase.select_single.
  rewrite Hm, Hc. simpl.
  rewrite find_patch by eauto using typed_dbUpdatesOf_id.
  destruct (list_find _ (db_devices st)) as [[i row]|] eqn:Hfind; [|done].
  simpl. apply list_find_Some in Hfind as (_ & Hid & _).
  apply Is_true_true in Hid. by rewrite Hid.
Qed.

Lemma updateDevice_refused st id updates now :
  useDatabase st = true →
  Supabase.typed Supabase.devices (dbUpdatesOf updates now) = None →
  updateDevice st id updates now = (st, None).
Proof.
  intros Hm Hc. unfold updateDevice, Supabase.update. by rewrite Hm, Hc.
Qed.

Lemma updateDevice_missing st id updates now :
  getDevice st id = None → updateDevice st id updates now = (st, None).
Proof.
  unfold getDevice, Supabase.select_single.
  destruct (useDatabase st) eqn:Hm.
  - rewrite !fmap_None. intros Hnone.
    destruct (Supabase.typed Supabase.devices (dbUpdatesOf updates now))
      as [cols|] eqn:Hc.
    + by rewrite (updateDevice_database _ _ _ _ cols), Hnone.
    + by apply updateDevice_refused.
  - rewrite fmap_None. unfold updateDevice. rewrite Hm. by intros ->.
Qed.

(** The effect of a successful [updateDevice], in either storage mode, as a
    client of [getDevice] / [getDevices] sees it.  With the database the
    update succeeds when the table takes the columns, and a field reads
    as it was given when its column keeps the value. *)
Lemma updateDevice_found st id updates now d :
  getDevice st id = Some d →
  (useDatabase st = true →
   is_Some (Supabase.typed Supabase.devices (dbUpdatesOf updates now))) →
  ∃ st' d' i,
    updateDevice st id updates now = (st', Some d') ∧
    same_periphery st st' ∧
    getDevices st !! i = Some d ∧
    getDevices st' !! i = Some d' ∧
    length (getDevices st') = length (getDevices st) ∧
    get d' "lastUpdate" = VDate now ∧
    (∀ k, updates !! k = None → "lastUpdate" ≠ k → get d' k = get d k) ∧
    (∀ k, inb k patchable = true → get updates k ≠ VUndef →
          (useDatabase st = true →
           written k (get updates k) = Some (get updates k)) →
          get d' k = get updates k) ∧
    (useDatabase st = false → d' = merged d updates now) ∧
    (updates !! "id" = None → getDevice st' id = Some d').
Proof.
  destruct (useDatabase st) eqn:Hmode.
  - intros Hd [cols Hc]; [done|]. revert Hd.
    rewrite (updateDevice_database _ _ _ _ cols) by done.
    unfold getDevice, getDevices, Supabase.select_single. rewrite Hmode.
    intros (row & ([i row'] & Hfind & ->)%fmap_Some & ->)%fmap_Some.
    simpl in *. rewrite Hfind.
    pose proof Hfind as (Hi & Hid & _)%list_find_Some.
    apply Is_true_true in Hid.
    eexists _, _, i. split; [done|]. simpl. rewrite Hmode.
    split_and!; try done.
    + by rewrite list_lookup_fmap, Hi.
    + unfold Supabase.patch.
      by rewrite !list_lookup_fmap, Hi; simpl; rewrite Hid.
    + unfold Supabase.patch. by rewrite !length_fmap.
    + by rewrite (get_mapDeviceFromDB_patched _ updates now).
    + intros k Hk Hne. rewrite (get_mapDeviceFromDB_patched _ updates now) by done.
      rewrite decide_False by done.
      destruct (inb k patchable); [|done].
      unfold defined. by rewrite (get_absent _ _ Hk).
    + intros k Hk Hdef Hkept.
      rewrite (get_mapDeviceFromDB_patched _ updates now) by done.
      rewrite decide_False by by apply patchable_not_lastUpdate.
      rewrite Hk. unfold defined. rewrite decide_False by done. simpl.
      by rewrite Hkept.
    + intros _. rewrite find_patch, Hfind by eauto using typed_dbUpdatesOf_id.
      simpl. by rewrite Hid.
  - intros Hd _. revert Hd.
    unfold getDevice, getDevices, updateDevice. rewrite Hmode.
    intros ([i d0] & Hfind & ->)%fmap_Some. simpl in *.
    pose proof Hfind as (Hi & Hid & _)%list_find_Some.
    rewrite Hfind. fold (merged d0 updates now).
    eexists _, _, i. split; [done|]. simpl. rewrite Hmode.
    split_and!; try done.
    + apply list_lookup_insert_eq. eauto using lookup_lt_Some.
    + apply length_insert.
    + by rewrite get_merged.
    + intros k Hk Hne. by rewrite get_merged, decide_False, Hk.
    + intros k Hk Hdef _. rewrite get_merged.
      rewrite decide_False by by apply patchable_not_lastUpdate.
      unfold get in *. by destruct (updates !! k).
    + intros Hnoid.
      erewrite list_find_replace; [done|done|].
      apply Is_true_true. apply Is_true_true in Hid.
      rewrite <- Hid. apply has_id_same_id.
      rewrite get_merged, decide_False by done. by rewrite Hnoid.
Qed.

(** With the database, a field of the patch reads afterwards as its
    column returns what was written. *)
Lemma updateDevice_written st id updates now st' d' k :
  useDatabase st = true →
  updateDevice st id updates now = (st', Some d') →
  inb k patchable = true → get updates k ≠ VUndef →
  written k (get updates k) = Some (get d' k).
Proof.
  intros Hm Hupd Hk Hne.
  destruct (Supabase.typed Supabase.devices (dbUpdatesOf updates now))
    as [cols|] eqn:Hc; [|by rewrite updateDevice_refused in Hupd].
  rewrite (updateDevice_database _ _ _ _ cols) in Hupd by done.
  destruct (list_find _ _) as [[i row]|]; [|done]. injection Hupd as _ <-.
  rewrite (get_mapDeviceFromDB_patched _ updates now) by done.
  rewrite decide_False by by apply patchable_not_lastUpdate.
  rewrite Hk. unfold defined. rewrite decide_False by done. simpl.
  assert (is_Some (written k (get updates k))) as [v' Hv']; [|by rewrite Hv'].
  apply bool_decide_eq_true_1 in Hk. unfold patchable in Hk.
  rewrite !elem_of_cons, elem_of_nil in Hk.
  assert (∀ c, dbUpdatesOf updates now !! c = Some (get updates k) →
            is_Some (Supabase.cast Supabase.devices c (get updates k)))
    as Hcast.
  { intros c Hl. destruct (typed_cast _ _ _ c _ Hc Hl Hne) as (v' & -> & _).
    done. }
  destruct Hk as [->|[->|[->|[->|[->|[->|[]]]]]]];
    (apply Hcast; rewrite dbUpdatesOf_lookup; simpl;
     unfold defined; by rewrite decide_False).
Qed.

(** A successful [updateDevice] found the device, and the table took the
    columns. *)
Lemma updateDevice_succeeded st id updates now st' d' :
  updateDevice st id updates now = (st', Some d') →
  is_Some (getDevice st id) ∧
  (useDatabase st = true →
   is_Some (Supabase.typed Supabase.devices (dbUpdatesOf updates now))).
Proof.
  intros Hupd. split.
  - destruct (getDevice st id) eqn:Hd; [done|].
    by rewrite updateDevice_missing in Hupd.
  - intros Hm.
    destruct (Supabase.typed Supabase.devices (dbUpdatesOf updates now))
      eqn:Hc; [done|].
    by rewrite updateDevice_refused in Hupd.
Qed.

End registry.

(** ** Telemetry ingest *)

Section ingest.
Implicit Types (st : State) (id : string) (data updates d : Obj) (now : Z).

Lemma getDevice_ext st st' id :
  useDatabase st' = useDatabase st →
  db_devices st' = db_devices st →
  memoryDevices st' = memoryDevices st →
  getDevice st' id = getDevice st id.
Proof. unfold getDevice. by intros -> -> ->. Qed.

Lemma getDevices_ext st st' :
  useDatabase st' = useDatabase st →
  db_devices st' = db_devices st →
  memoryDevices st' = memoryDevices st →
  getDevices st' = getDevices st.
Proof. unfold getDevices. by intros -> -> ->. Qed.

Lemma storeSensorHistory_devices st id data now :
  useDatabase (storeSensorHistory st id data now) = useDatabase st ∧
  db_devices (storeSensorHistory st id data now) = db_devices st ∧
  memoryDevices (storeSensorHistory st id data now) = memoryDevices st ∧
  ioEmitted (storeSensorHistory st id data now) = ioEmitted st ∧
  deviceLastSeen (storeSensorHistory st id data now) = deviceLastSeen st.
Proof.
  unfold storeSensorHistory.
  destruct (useDatabase st) eqn:E;
    [destruct (Supabase.insert_sample _ _ _ _)|]; simpl; by rewrite ?E.
Qed.

Lemma telemetryUpdates_lookup data k :
  telemetryUpdates data !! k =
    if decide ("temperature" = k) then Some (get data "temperature")
    else if decide ("humidity" = k) then Some (get data "humidity")
    else if decide ("soilMoisture" = k) then Some (get data "soilPercent")
    else if decide ("pumpActive" = k) then
      Some (js_or (get data "pumpActive") (VBool false))
    else if decide ("status" = k) then
      Some (statusOfPump (get data "pumpActive"))
    else None.
Proof.
  unfold telemetryUpdates. rewrite !lookup_insert, lookup_singleton.
  by repeat case_decide.
Qed.

Lemma handleDeviceData_missing st id data now :
  getDevice st id = None →
  handleDeviceData st id data now =
    set_deviceLastSeen st (<[id := now]> (deviceLastSeen st)).
Proof.
  intros Hnone. unfold handleDeviceData.
  rewrite updateDevice_missing; [done|].
  rewrite <- Hnone. by apply getDevice_ext.
Qed.

(** With the database, a message whose readings a column refuses leaves
    the record as it was: [updateDevice] returns [null], no sample is
    stored and no event is emitted. *)
Lemma handleDeviceData_refused st id data now :
  useDatabase st = true →
  Supabase.typed Supabase.devices (dbUpdatesOf (telemetryUpdates data) now)
    = None →
  handleDeviceData st id data now =
    set_deviceLastSeen st (<[id := now]> (deviceLastSeen st)).
Proof.
  intros Hm Hc. unfold handleDeviceData.
  by rewrite updateDevice_refused.
Qed.

(** The patch of a telemetry message is one that the table takes when
    the columns keep the readings and the flag is a boolean or absent. *)
Lemma telemetryUpdates_storable data :
  is_Some (Supabase.convert Supabase.REAL (get data "temperature")) →
  is_Some (Supabase.convert Supabase.REAL (get data "humidity")) →
  is_Some (Supabase.convert Supabase.INTEGER (get data "soilPercent")) →
  is_flag (get data "pumpActive") = true →
  storable (telemetryUpdates data).
Proof.
  intros Ht Hh Hs Hflag k Hk. unfold get at 1 2.
  rewrite telemetryUpdates_lookup.
  unfold patchable in Hk. rewrite !elem_of_cons, elem_of_nil in Hk.
  destruct Hk as [->|[->|[->|[->|[->|[->|[]]]]]]]; simpl; intros Hne.
  - by rewrite (proj1 (written_reading _)).
  - by rewrite (proj1 (proj2 (written_reading _))).
  - by rewrite (proj2 (proj2 (written_reading _))).
  - rewrite written_pumpActive. unfold js_or.
    by destruct (get data "pumpActive") as [| |[]| | |].
  - rewrite (proj1 (written_text _)). unfold statusOfPump.
    by destruct (truthy _).
  - done.
Qed.

Lemma keptReadings_storable data now :
  keptReadings data → is_flag (get data "pumpActive") = true →
  is_Some (Supabase.typed Supabase.devices
             (dbUpdatesOf (telemetryUpdates data) now)).
Proof.
  intros (Ht & Hh & Hs) Hflag. apply storable_typed.
  apply telemetryUpdates_storable; try done;
    unfold keeps in *; by rewrite ?Ht, ?Hh, ?Hs.
Qed.

(** A reading that its column refuses makes the table refuse the patch. *)
Lemma telemetryUpdates_refused data now k :
  k ∈ ["temperature"; "humidity"; "soilMoisture"] →
  get (telemetryUpdates data) k ≠ VUndef →
  written k (get (telemetryUpdates data) k) = None →
  Supabase.typed Supabase.devices (dbUpdatesOf (telemetryUpdates data) now)
    = None.
Proof.
  intros Hk Hne Hw. rewrite !elem_of_cons, elem_of_nil in Hk.
  destruct Hk as [->|[->|[->|[]]]].
  - apply (typed_refused _ _ "temperature" (get (telemetryUpdates data) "temperature"));
      [|exact Hne|exact Hw].
    rewrite dbUpdatesOf_lookup. simpl. unfold defined.
    by rewrite decide_False.
  - apply (typed_refused _ _ "humidity" (get (telemetryUpdates data) "humidity"));
      [|exact Hne|exact Hw].
    rewrite dbUpdatesOf_lookup. simpl. unfold defined.
    by rewrite decide_False.
  - apply (typed_refused _ _ "soil_moisture" (get (telemetryUpdates data) "soilMoisture"));
      [|exact Hne|exact Hw].
    rewrite dbUpdatesOf_lookup. simpl. unfold defined.
    by rewrite decide_False.
Qed.

(** The shape of a successful ingest: the update, then the sample, then
    the event carrying the updated record. *)
Lemma handleDeviceData_found st id data now d :
  getDevice st id = Some d →
  (useDatabase st = true →
   is_Some (Supabase.typed Supabase.devices
              (dbUpdatesOf (telemetryUpdates data) now))) →
  ∃ st1 d',
    updateDevice (set_deviceLastSeen st (<[id := now]> (deviceLastSeen st)))
                 id (telemetryUpdates data) now = (st1, Some d') ∧
    handleDeviceData st id data now =
      io_emit (storeSensorHistory st1 id data now) "deviceUpdate" (Some d') ∧
    useDatabase st1 = useDatabase st ∧
    getDevice (handleDeviceData st id data now) id = Some d' ∧
    ioEmitted (handleDeviceData st id data now) =
      ioEmitted st ++ [("deviceUpdate", Some d')] ∧
    get d' "lastUpdate" = VDate now ∧
    get d' "status" = statusOfPump (get data "pumpActive") ∧
    (useDatabase st = false ∨ is_flag (get data "pumpActive") = true →
     get d' "pumpActive" = js_or (get data "pumpActive") (VBool false)) ∧
    (∀ k, telemetryUpdates data !! k = None → "lastUpdate" ≠ k →
          get d' k = get d k) ∧
    (∀ k, inb k patchable = true → get (telemetryUpdates data) k ≠ VUndef →
          (useDatabase st = true →
           written k (get (telemetryUpdates data) k)
             = Some (get (telemetryUpdates data) k)) →
          get d' k = get (telemetryUpdates data) k) ∧
    (useDatabase st = false → d' = merged d (telemetryUpdates data) now).
Proof.
  intros Hd Hacc. unfold handleDeviceData.
  set (st0 := set_deviceLastSeen st _).
  destruct (updateDevice_found st0 id (telemetryUpdates data) now d)
    as (st1 & d' & i & Hupd & Hper & _ & _ & _ & Hlast & Hframe & Hset
        & Hmem & Hget); [|done|].
  { rewrite <- Hd. by apply getDevice_ext. }
  destruct Hper as (Hmode & _ & _ & _ & _ & _ & Hio).
  rewrite Hupd. exists st1, d'.
  destruct (storeSensorHistory_devices st1 id data now)
    as (Hs1 & Hs2 & Hs3 & Hs4 & _).
  split_and!; try done.
  - rewrite <- Hget by by rewrite telemetryUpdates_lookup.
    by apply getDevice_ext.
  - simpl. by rewrite Hs4, Hio.
  - rewrite Hset; [|done| |].
    + unfold get. by rewrite telemetryUpdates_lookup.
    + unfold get. rewrite telemetryUpdates_lookup. simpl.
      unfold statusOfPump. by destruct (truthy _).
    + intros _. unfold get. rewrite telemetryUpdates_lookup. simpl.
      unfold statusOfPump. by destruct (truthy _).
  - intros Hflag. rewrite Hset; [|done| |].
    + unfold get at 1. by rewrite telemetryUpdates_lookup.
    + unfold get at 1. rewrite telemetryUpdates_lookup. simpl.
      unfold js_or. destruct (truthy _) eqn:E; [|done].
      intros Hu. by rewrite Hu in E.
    + intros Hm. destruct Hflag as [Hflag|Hflag]; [simpl in *; congruence|].
      unfold get at 1 2. rewrite telemetryUpdates_lookup. simpl.
      unfold js_or. by destruct (get data "pumpActive") as [| |[]| | |].
Qed.

End ingest.

(** ** Telemetry ingest: main results *)

Section ingest_results.
Implicit Types (st : State) (id : string) (data d : Obj) (now : Z).

Lemma last_tail {A} (l : list A) :
  (2 ≤ length l)%nat → last (tail l) = last l.
Proof. destruct l as [|x [|y l]]; simpl; intros; try lia. done. Qed.

Lemma storeSensorHistory_memory_last st id data now :
  useDatabase st = false →
  last (default [] (memorySensorHistory (storeSensorHistory st id data now)
                      !! id)) = Some (historySample data now).
Proof.
  intros Hm. unfold storeSensorHistory. rewrite Hm. simpl.
  rewrite lookup_insert_eq. simpl.
  set (h := default [] _).
  destruct (720 <? _) eqn:E.
  - rewrite last_tail, last_snoc; [done|].
    apply Z.ltb_lt in E. lia.
  - apply last_snoc.
Qed.

Lemma get_telemetryUpdates data :
  get (telemetryUpdates data) "temperature" = get data "temperature" ∧
  get (telemetryUpdates data) "humidity" = get data "humidity" ∧
  get (telemetryUpdates data) "soilMoisture" = get data "soilPercent".
Proof. unfold get at 1 3 5. by rewrite !telemetryUpdates_lookup. Qed.

(** The readings in the record after a telemetry message that the
    database took: what the columns return for the carried values. *)
Lemma handleDeviceData_written st id data now d :
  useDatabase st = true →
  getDevice st id = Some d →
  is_Some (Supabase.typed Supabase.devices
             (dbUpdatesOf (telemetryUpdates data) now)) →
  ∃ d',
    getDevice (handleDeviceData st id data now) id = Some d' ∧
    get d' "status" = statusOfPump (get data "pumpActive") ∧
    (get data "temperature" ≠ VUndef →
     Supabase.convert Supabase.REAL (get data "temperature")
       = Some (get d' "temperature")) ∧
    (get data "humidity" ≠ VUndef →
     Supabase.convert Supabase.REAL (get data "humidity")
       = Some (get d' "humidity")) ∧
    (get data "soilPercent" ≠ VUndef →
     Supabase.convert Supabase.INTEGER (get data "soilPercent")
       = Some (get d' "soilMoisture")).
Proof.
  intros Hm Hd Hacc.
  destruct (handleDeviceData_found st id data now d Hd)
    as (st1 & d' & Hupd & _ & _ & Hget & _ & _ & Hstatus & _); [done|].
  destruct (get_telemetryUpdates data) as (Et & Eh & Es).
  exists d'. split_and!; try done.
  - intros Hne. rewrite <- Et in *.
    by refine (updateDevice_written _ _ _ _ _ _ "temperature" _ Hupd _ _).
  - intros Hne. rewrite <- Eh in *.
    by refine (updateDevice_written _ _ _ _ _ _ "humidity" _ Hupd _ _).
  - intros Hne. rewrite <- Es in *.
    by refine (updateDevice_written _ _ _ _ _ _ "soilMoisture" _ Hupd _ _).
Qed.

Lemma handleDeviceData_dropped st id data now k :
  useDatabase st = true →
  k ∈ ["temperature"; "humidity"; "soilMoisture"] →
  get (telemetryUpdates data) k ≠ VUndef →
  written k (get (telemetryUpdates data) k) = None →
  let st' := handleDeviceData st id data now in
  getDevices st' = getDevices st ∧
  db_history st' = db_history st ∧
  memorySensorHistory st' = memorySensorHistory st ∧
  ioEmitted st' = ioEmitted st.
Proof.
  intros Hm Hk Hne Hw st'. subst st'.
  rewrite handleDeviceData_refused by eauto using telemetryUpdates_refused.
  done.
Qed.

(** C4 (as amended).  An accepted telemetry message for a registered
    device leaves the record with status [watering] when its actuator flag
    is true and [online] otherwise, and with the temperature, humidity and
    soil moisture that the store returns for the carried values: the
    values themselves with the in-memory registry, and with the database
    what the [REAL], [REAL] and [INTEGER] columns make of them.  When one
    of the columns refuses its value the message is dropped: the Registry,
    the history and the emitted events are unchanged. *)
Theorem C4_accepted_telemetry_is_stored st id data now d :
  getDevice st id = Some d →
  acceptedTelemetry data = true →
  let st' := handleDeviceData st id data now in
  match storedAs st Supabase.REAL (get data "temperature"),
        storedAs st Supabase.REAL (get data "humidity"),
        storedAs st Supabase.INTEGER (get data "soilPercent") with
  | Some temperature, Some humidity, Some soilMoisture =>
      ∃ d',
        getDevice st' id = Some d' ∧
        get d' "status" =
          (if decide (get data "pumpActive" = VBool true)
           then VStr "watering" else VStr "online") ∧
        get d' "temperature" = temperature ∧
        get d' "humidity" = humidity ∧
        get d' "soilMoisture" = soilMoisture
  | _, _, _ =>
      getDevices st' = getDevices st ∧
      db_history st' = db_history st ∧
      memorySensorHistory st' = memorySensorHistory st ∧
      ioEmitted st' = ioEmitted st
  end.
Proof.
  intros Hd Hacc st'. subst st'.
  unfold acceptedTelemetry, requiredNumeric in Hacc.
  apply andb_true_iff in Hacc as [Hnum Hflag].
  apply andb_true_iff in Hnum as [Hnum Hsoil].
  apply andb_true_iff in Hnum as [Htemp Hhum].
  assert (statusOfPump (get data "pumpActive") =
            if decide (get data "pumpActive" = VBool true)
            then VStr "watering" else VStr "online") as Hstatus.
  { unfold statusOfPump.
    destruct (get data "pumpActive") as [| |[]| | |]; try done. }
  assert (get data "temperature" ≠ VUndef) as Nt
    by (by destruct (get data "temperature")).
  assert (get data "humidity" ≠ VUndef) as Nh
    by (by destruct (get data "humidity")).
  assert (get data "soilPercent" ≠ VUndef) as Ns
    by (by destruct (get data "soilPercent")).
  destruct (get_telemetryUpdates data) as (Et & Eh & Es).
  unfold storedAs. destruct (useDatabase st) eqn:Hm.
  - destruct (Supabase.convert _ (get data "temperature")) as [t|] eqn:Ct;
      [destruct (Supabase.convert _ (get data "humidity")) as [h|] eqn:Ch;
       [destruct (Supabase.convert _ (get data "soilPercent")) as [m|] eqn:Cs
       |]|].
    + destruct (handleDeviceData_written st id data now d Hm Hd)
        as (d' & Hget & Hst & Ht & Hh & Hs).
      { apply storable_typed, telemetryUpdates_storable; try done;
          by rewrite ?Ct, ?Ch, ?Cs. }
      exists d'. rewrite <- Hstatus.
      specialize (Ht Nt). specialize (Hh Nh). specialize (Hs Ns).
      split_and!; [done|done|congruence..].
    + apply (handleDeviceData_dropped st id data now "soilMoisture");
        [done|set_solver|by rewrite Es|by rewrite Es].
    + apply (handleDeviceData_dropped st id data now "humidity");
        [done|set_solver|by rewrite Eh|by rewrite Eh].
    + apply (handleDeviceData_dropped st id data now "temperature");
        [done|set_solver|by rewrite Et|by rewrite Et].
  - destruct (handleDeviceData_found st id data now d Hd)
      as (st1 & d' & _ & _ & _ & Hget & _ & _ & Hst & _ & _ & Hset & _).
    { intros Hdb. by rewrite Hdb in Hm. }
    exists d'. rewrite <- Hstatus. split_and!; try done.
    + rewrite <- Et. apply Hset; [done|by rewrite Et|]. congruence.
    + rewrite <- Eh. apply Hset; [done|by rewrite Eh|]. congruence.
    + rewrite <- Es. apply Hset; [done|by rewrite Es|]. congruence.
Qed.

Lemma C4_accepted_telemetry_is_stored_witness :
  getDevice (initialDatabaseState 1000) "device_001"
    = Some (mapDeviceFromDB (seedRow 1000)) ∧
  acceptedTelemetry preciseReading = true ∧
  ∃ d',
    getDevice (handleDeviceData (initialDatabaseState 1000) "device_001"
                 preciseReading 2000) "device_001" = Some d' ∧
    get d' "status" = VStr "online" ∧
    get d' "temperature" = VNum (32123455 # 1000000)%Q ∧
    get d' "humidity" = VNum 60%Q ∧
    get d' "soilMoisture" = VNum 50%Q.
Proof.
  split; [reflexivity|]. split; [reflexivity|].
  exact (C4_accepted_telemetry_is_stored (initialDatabaseState 1000)
           "device_001" preciseReading 2000 (mapDeviceFromDB (seedRow 1000))
           eq_refl eq_refl).
Defined.

(** C4, counterexample.  With the database, the seeded device reports a
    soil moisture of 50.5: the message is accepted by the claim's standard
    (numeric readings), the [INTEGER] column refuses the value, and the
    Registry still holds the previous readings; no sample is stored and no
    event is emitted. *)
Lemma C4_database_refuses_fractional_soil_moisture :
  let st := initialDatabaseState 1000 in
  let st' := handleDeviceData st "device_001" fractionalReading 2000 in
  acceptedTelemetry fractionalReading = true ∧
  get fractionalReading "soilPercent" = VNum (101 # 2)%Q ∧
  (∃ d', getDevice st' "device_001" = Some d' ∧
         get d' "temperature" = VNum (65 # 2)%Q ∧
         get d' "humidity" = VNum 65%Q ∧
         get d' "soilMoisture" = VNum 78%Q) ∧
  db_history st' = [] ∧
  ioEmitted st' = [].
Proof.
  split; [reflexivity|]. split; [reflexivity|].
  split; [|split; reflexivity].
  eexists. split; [reflexivity|]. split_and!; reflexivity.
Qed.

(** C2 (as amended).  Telemetry is not validated.  When the device id is
    not registered nothing is written: the Registry, the history and the
    emitted events are unchanged.  When it is registered and the registry
    is the in-memory one, the message is applied whatever its fields hold:
    the record takes the carried temperature, humidity and soil moisture
    verbatim ([undefined] for an absent field), a sample is appended to the
    history and one [deviceUpdate] event is emitted. *)
Theorem C2_telemetry_is_not_validated st id data now :
  let st' := handleDeviceData st id data now in
  match getDevice st id with
  | None =>
      getDevices st' = getDevices st ∧
      db_history st' = db_history st ∧
      memorySensorHistory st' = memorySensorHistory st ∧
      ioEmitted st' = ioEmitted st
  | Some d =>
      useDatabase st = false →
      ∃ d',
        getDevice st' id = Some d' ∧
        get d' "temperature" = get data "temperature" ∧
        get d' "humidity" = get data "humidity" ∧
        get d' "soilMoisture" = get data "soilPercent" ∧
        get d' "status" = statusOfPump (get data "pumpActive") ∧
        last (default [] (memorySensorHistory st' !! id))
          = Some (historySample data now) ∧
        ioEmitted st' = ioEmitted st ++ [("deviceUpdate", Some d')]
  end.
Proof.
  intros st'. subst st'. destruct (getDevice st id) as [d|] eqn:Hd.
  - intros Hm.
    destruct (handleDeviceData_found st id data now d Hd)
      as (st1 & d' & Hupd & Hrun & Hmode & Hget & Hio & _ & Hstatus & _ & _ & _
          & Hmem); [congruence|].
    exists d'. rewrite (Hmem Hm) in *.
    split_and!; try done.
    + by rewrite get_merged, telemetryUpdates_lookup.
    + by rewrite get_merged, telemetryUpdates_lookup.
    + by rewrite get_merged, telemetryUpdates_lookup.
    + rewrite Hrun. simpl. apply storeSensorHistory_memory_last.
      by rewrite Hmode.
  - rewrite handleDeviceData_missing by done. split_and!; try done.
Qed.

Lemma C2_telemetry_is_not_validated_witness :
  let st := initialMemoryState 1000 in
  let st' := handleDeviceData st "device_001" malformedReading 2000 in
  useDatabase st = false ∧
  ∃ d',
    getDevice st' "device_001" = Some d' ∧
    get d' "temperature" = get malformedReading "temperature" ∧
    get d' "humidity" = get malformedReading "humidity" ∧
    get d' "soilMoisture" = get malformedReading "soilPercent" ∧
    get d' "status" = statusOfPump (get malformedReading "pumpActive") ∧
    last (default [] (memorySensorHistory st' !! "device_001"))
      = Some (historySample malformedReading 2000) ∧
    ioEmitted st' = ioEmitted st ++ [("deviceUpdate", Some d')].
Proof.
  intros st st'. split; [reflexivity|].
  exact (C2_telemetry_is_not_validated st "device_001" malformedReading 2000
           eq_refl).
Defined.

(** C2, counterexample.  The seeded device receives a payload whose
    temperature is a string, whose humidity is [null] and that has no soil
    reading: the record is overwritten with these values and a history
    sample is stored. *)
Lemma C2_malformed_telemetry_is_applied :
  let st := initialMemoryState 1000 in
  let st' := handleDeviceData st "device_001" malformedReading 2000 in
  requiredNumeric malformedReading = false ∧
  (λ d, get d "temperature") <$> getDevice st "device_001"
    = Some (VNum (65 # 2)%Q) ∧
  ∃ d',
    getDevice st' "device_001" = Some d' ∧
    get d' "temperature" = VStr "hot" ∧
    get d' "humidity" = VNull ∧
    get d' "soilMoisture" = VUndef ∧
    memorySensorHistory st' !! "device_001"
      = Some [historySample malformedReading 2000].
Proof.
  split; [reflexivity|]. split; [reflexivity|].
  eexists. split; [reflexivity|].
  split_and!; reflexivity.
Qed.

End ingest_results.

(** ** [updateDevice]: main results *)

Section update_results.
Implicit Types (st : State) (id : string) (updates d : Obj) (now : Z).

(** C6.  A successful [updateDevice] changes, in the stored record, only
    the fields present in the patch: every field that the patch does not
    mention keeps its previous value, and [lastUpdate] is set to the time
    of the update whatever the patch contains. *)
Theorem C6_update_is_a_partial_merge st id updates now st' d' :
  updateDevice st id updates now = (st', Some d') →
  ∃ d i,
    getDevice st id = Some d ∧
    getDevices st !! i = Some d ∧
    getDevices st' !! i = Some d' ∧
    length (getDevices st') = length (getDevices st) ∧
    (∀ k, updates !! k = None → k ≠ "lastUpdate" → get d' k = get d k) ∧
    get d' "lastUpdate" = VDate now.
Proof.
  intros Hupd. destruct (getDevice st id) as [d|] eqn:Hd.
  - destruct (updateDevice_found st id updates now d Hd)
      as (st2 & d2 & i & Hupd2 & _ & Hi & Hi' & Hlen & Hlast & Hframe & _).
    { by apply (updateDevice_succeeded _ _ _ _ _ _ Hupd). }
    rewrite Hupd in Hupd2. injection Hupd2 as <- <-.
    exists d, i. split_and!; try done.
    intros k Hk Hne. apply Hframe; [done|]. congruence.
  - by rewrite updateDevice_missing in Hupd.
Qed.

Lemma C6_update_is_a_partial_merge_witness :
  let st := initialMemoryState 1000 in
  let st' := fst (updateDevice st "device_001" manualPatch 2000) in
  let d' := merged (seedDevice 1000) manualPatch 2000 in
  updateDevice st "device_001" manualPatch 2000 = (st', Some d') ∧
  ∃ d i,
    getDevice st "device_001" = Some d ∧
    getDevices st !! i = Some d ∧
    getDevices st' !! i = Some d' ∧
    length (getDevices st') = length (getDevices st) ∧
    (∀ k, manualPatch !! k = None → k ≠ "lastUpdate" →
          get d' k = get d k) ∧
    get d' "lastUpdate" = VDate 2000.
Proof.
  intros st st' d'. split; [reflexivity|].
  apply (C6_update_is_a_partial_merge st "device_001" manualPatch 2000 st' d').
  reflexivity.
Defined.

End update_results.

(** ** Operator commands *)

Section commands.
Implicit Types (st : State) (id : string) (body updates d : Obj) (now : Z).

Lemma pumpUpdates_lookup turnOn k :
  pumpUpdates turnOn !! k =
    if decide ("pumpActive" = k) then Some (VBool turnOn)
    else if decide ("status" = k) then
      Some (if turnOn then VStr "watering" else VStr "online")
    else None.
Proof.
  unfold pumpUpdates. rewrite lookup_insert, lookup_singleton.
  by repeat case_decide.
Qed.

Lemma published_devices st topic payload :
  useDatabase (published st topic payload) = useDatabase st ∧
  db_devices (published st topic payload) = db_devices st ∧
  memoryDevices (published st topic payload) = memoryDevices st ∧
  ioEmitted (published st topic payload) = ioEmitted st.
Proof. unfold published. by destruct (mqttConnected st). Qed.

(** The patches of the command handlers are ones that the table takes. *)
Lemma pumpUpdates_storable turnOn : storable (pumpUpdates turnOn).
Proof.
  intros k Hk. unfold get. rewrite pumpUpdates_lookup.
  unfold patchable in Hk. rewrite !elem_of_cons, elem_of_nil in Hk.
  destruct Hk as [->|[->|[->|[->|[->|[->|[]]]]]]]; simpl; intros Hne;
    try done.
  by destruct turnOn.
Qed.

Lemma text_patch_storable k v :
  k = "status" ∨ k = "mode" → storable {[ k := v ]}.
Proof.
  intros Hk k' Hk'. rewrite get_singleton.
  case_decide as E; [|done]. subst k'. intros Hne.
  destruct Hk as [->| ->]; by destruct v.
Qed.

(** An update issued by a command handler for a registered device. *)
Lemma command_update st st0 id updates now d :
  useDatabase st0 = useDatabase st →
  db_devices st0 = db_devices st →
  memoryDevices st0 = memoryDevices st →
  ioEmitted st0 = ioEmitted st →
  updates !! "id" = None →
  storable updates →
  getDevice st id = Some d →
  ∃ st1 d',
    updateDevice st0 id updates now = (st1, Some d') ∧
    getDevice (io_emit st1 "deviceUpdate" (Some d')) id = Some d' ∧
    ioEmitted (io_emit st1 "deviceUpdate" (Some d'))
      = ioEmitted st ++ [("deviceUpdate", Some d')] ∧
    get d' "lastUpdate" = VDate now ∧
    (∀ k, updates !! k = None → "lastUpdate" ≠ k → get d' k = get d k) ∧
    (∀ k, inb k patchable = true → get updates k ≠ VUndef →
          (useDatabase st = true →
           written k (get updates k) = Some (get updates k)) →
          get d' k = get updates k).
Proof.
  intros H1 H2 H3 H4 Hid Hst Hd.
  destruct (updateDevice_found st0 id updates now d)
    as (st1 & d' & i & Hupd & Hper & _ & _ & _ & Hlast & Hframe & Hset
        & _ & Hget).
  { rewrite <- Hd. by apply getDevice_ext. }
  { intros _. by apply storable_typed. }
  destruct Hper as (_ & _ & _ & _ & _ & _ & Hio).
  exists st1, d'. split_and!; try done.
  - rewrite <- (Hget Hid). by apply getDevice_ext.
  - simpl. by rewrite Hio, H4.
  - intros k Hk Hne Hw. apply Hset; [done|done|]. by rewrite H1.
Qed.

Lemma pump_update st st0 id action now d :
  useDatabase st0 = useDatabase st →
  db_devices st0 = db_devices st →
  memoryDevices st0 = memoryDevices st →
  ioEmitted st0 = ioEmitted st →
  getDevice st id = Some d →
  ∃ st1 d',
    updateDevice st0 id (pumpUpdates (str_eq action "on")) now
      = (st1, Some d') ∧
    getDevice (io_emit st1 "deviceUpdate" (Some d')) id = Some d' ∧
    ioEmitted (io_emit st1 "deviceUpdate" (Some d'))
      = ioEmitted st ++ [("deviceUpdate", Some d')] ∧
    pump_set d' action ∧
    (∀ k, k ≠ "pumpActive" → k ≠ "status" → k ≠ "lastUpdate" →
          get d' k = get d k).
Proof.
  intros H1 H2 H3 H4 Hd.
  destruct (command_update st st0 id (pumpUpdates (str_eq action "on")) now d)
    as (st1 & d' & Hupd & Hget & Hio & _ & Hframe & Hset);
    try done; [apply pumpUpdates_storable|].
  exists st1, d'. split_and!; try done.
  - split.
    + rewrite Hset; [|done| |]; unfold get;
        by rewrite pumpUpdates_lookup.
    + rewrite Hset; [|done| |]; unfold get;
        rewrite pumpUpdates_lookup; simpl; [done| |];
        by destruct (str_eq action "on").
  - intros k Hp Hs Hl. apply Hframe; [|congruence].
    rewrite pumpUpdates_lookup.
    by rewrite !decide_False by congruence.
Qed.

Lemma postPump_known st id body now d :
  getDevice st id = Some d →
  ∃ d',
    getDevice (fst (postPump st id body now)) id = Some d' ∧
    snd (postPump st id body now) = Ok (Some d') ∧
    ioEmitted (fst (postPump st id body now))
      = ioEmitted st ++ [("deviceUpdate", Some d')] ∧
    pump_set d' (get body "action") ∧
    (∀ k, k ≠ "pumpActive" → k ≠ "status" → k ≠ "lastUpdate" →
          get d' k = get d k).
Proof.
  intros Hd. unfold postPump. rewrite Hd.
  fold (published st (commandTopic id)
          {[ "pump" := VBool (str_eq (get body "action") "on") ]}).
  set (st0 := published st _ _).
  destruct (published_devices st (commandTopic id)
              {[ "pump" := VBool (str_eq (get body "action") "on") ]})
    as (H1 & H2 & H3 & H4).
  destruct (pump_update st st0 id (get body "action") now d)
    as (st1 & d' & Hupd & Hget & Hio & Hset & Hframe); try done.
  rewrite Hupd. simpl. exists d'. by split_and!.
Qed.

Lemma onPumpControl_known st id action now d :
  getDevice st id = Some d →
  ∃ d',
    getDevice (onPumpControl st id action now) id = Some d' ∧
    ioEmitted (onPumpControl st id action now)
      = ioEmitted st ++ [("deviceUpdate", Some d')] ∧
    pump_set d' action ∧
    (∀ k, k ≠ "pumpActive" → k ≠ "status" → k ≠ "lastUpdate" →
          get d' k = get d k).
Proof.
  intros Hd. unfold onPumpControl.
  fold (published st (commandTopic id)
          {[ "pump" := VBool (str_eq action "on") ]}).
  set (st0 := published st _ _).
  destruct (published_devices st (commandTopic id)
              {[ "pump" := VBool (str_eq action "on") ]})
    as (H1 & H2 & H3 & H4).
  destruct (pump_update st st0 id action now d)
    as (st1 & d' & Hupd & Hget & Hio & Hset & Hframe); try done.
  rewrite Hupd. exists d'. by split_and!.
Qed.

Lemma onPumpControl_unknown st id action now :
  getDevice st id = None →
  onPumpControl st id action now =
    published st (commandTopic id) {[ "pump" := VBool (str_eq action "on") ]}.
Proof.
  intros Hd. unfold onPumpControl.
  fold (published st (commandTopic id)
          {[ "pump" := VBool (str_eq action "on") ]}).
  rewrite updateDevice_missing; [done|].
  rewrite <- Hd. by apply getDevice_ext; apply published_devices.
Qed.

Lemma postMode_known st id body now d :
  getDevice st id = Some d →
  ∃ d',
    getDevice (fst (postMode st id body now)) id = Some d' ∧
    snd (postMode st id body now) = Ok (Some d') ∧
    ioEmitted (fst (postMode st id body now))
      = ioEmitted st ++ [("deviceUpdate", Some d')] ∧
    (get body "mode" ≠ VUndef →
     storedAs st Supabase.TEXT (get body "mode") = Some (get d' "mode")) ∧
    (∀ k, k ≠ "mode" → k ≠ "lastUpdate" → get d' k = get d k).
Proof.
  intros Hd. unfold postMode. rewrite Hd.
  fold (published st (commandTopic id) {[ "mode" := get body "mode" ]}).
  set (st0 := published st _ _).
  destruct (published_devices st (commandTopic id)
              {[ "mode" := get body "mode" ]}) as (H1 & H2 & H3 & H4).
  destruct (command_update st st0 id {[ "mode" := get body "mode" ]} now d)
    as (st1 & d' & Hupd & Hget & Hio & _ & Hframe & Hset); try done.
  { apply text_patch_storable. by right. }
  rewrite Hupd. simpl. exists d'. split_and!; try done.
  - intros Hmode. unfold storedAs.
    destruct (useDatabase st) eqn:Hm.
    + rewrite <- (proj2 (written_text _)).
      replace (get body "mode")
        with (get ({[ "mode" := get body "mode" ]} : Obj) "mode") at 1
        by (unfold get; by rewrite lookup_singleton_eq).
      refine (updateDevice_written _ _ _ _ _ _ "mode" _ Hupd _ _);
        [exact H1|done|].
      unfold get at 1. by rewrite lookup_singleton_eq.
    + f_equal. symmetry. rewrite Hset; [|done| |];
        unfold get at 1; rewrite ?lookup_singleton_eq; try done.
  - intros k Hk Hl. apply Hframe; [|congruence].
    by rewrite lookup_singleton_ne.
Qed.

Lemma pump_set_matches d' action :
  pump_set d' action → status_matches_pump d'.
Proof.
  intros [Hp Hs]. unfold status_matches_pump. rewrite Hp, Hs.
  by destruct (str_eq action "on").
Qed.

(** C5 (as amended).  A pump or mode request over HTTP for an unknown
    device is answered [NotFound], and a [pumpControl] event for an unknown
    device is dropped without any reply (the command having been published
    if the broker is connected); in both cases the Registry is unchanged and
    no event is emitted.  For a known device the update is applied (pump:
    [pumpActive] and the derived status; mode: [mode] alone, which then
    reads as the store returns the given value: the value itself with the
    in-memory registry, what the [TEXT] column makes of it with the
    database) and one [deviceUpdate] event carrying the updated record is
    emitted, whether or not the MQTT client is connected. *)
Theorem C5_command_dispatch st c now :
  let st' := fst (dispatch st c now) in
  let reply := snd (dispatch st c now) in
  match getDevice st (target c) with
  | None =>
      getDevices st' = getDevices st ∧
      ioEmitted st' = ioEmitted st ∧
      match c with
      | PumpEvent deviceId action =>
          reply = None ∧
          mqttPublished st' =
            mqttPublished
              (published st (commandTopic deviceId)
                 {[ "pump" := VBool (str_eq action "on") ]})
      | _ => reply = Some NotFound ∧ mqttPublished st' = mqttPublished st
      end
  | Some d =>
      ∃ d',
        getDevice st' (target c) = Some d' ∧
        ioEmitted st' = ioEmitted st ++ [("deviceUpdate", Some d')] ∧
        match c with
        | PumpRequest _ body =>
            reply = Some (Ok (Some d')) ∧
            pump_set d' (get body "action") ∧
            (∀ k, k ≠ "pumpActive" → k ≠ "status" → k ≠ "lastUpdate" →
                  get d' k = get d k)
        | PumpEvent _ action =>
            reply = None ∧
            pump_set d' action ∧
            (∀ k, k ≠ "pumpActive" → k ≠ "status" → k ≠ "lastUpdate" →
                  get d' k = get d k)
        | ModeRequest _ body =>
            reply = Some (Ok (Some d')) ∧
            (get body "mode" ≠ VUndef →
             storedAs st Supabase.TEXT (get body "mode")
               = Some (get d' "mode")) ∧
            (∀ k, k ≠ "mode" → k ≠ "lastUpdate" → get d' k = get d k)
        end
  end.
Proof.
  destruct c as [id body|id body|id action]; simpl;
    destruct (getDevice st id) as [d|] eqn:Hd.
  - destruct (postPump_known st id body now d Hd)
      as (d' & Hget & Hreply & Hio & Hset & Hframe).
    destruct (postPump st id body now) as [st2 r]. simpl in *. subst r.
    exists d'. by split_and!.
  - unfold postPump. by rewrite Hd.
  - destruct (postMode_known st id body now d Hd)
      as (d' & Hget & Hreply & Hio & Hset & Hframe).
    destruct (postMode st id body now) as [st2 r]. simpl in *. subst r.
    exists d'. by split_and!.
  - unfold postMode. by rewrite Hd.
  - destruct (onPumpControl_known st id action now d Hd)
      as (d' & Hget & Hio & Hset & Hframe).
    exists d'. by split_and!.
  - rewrite onPumpControl_unknown by done.
    destruct (published_devices st (commandTopic id)
                {[ "pump" := VBool (str_eq action "on") ]})
      as (H1 & H2 & H3 & H4).
    split_and!; try done. by apply getDevices_ext.
Qed.

(** C5, counterexample.  A [pumpControl] event that names a device that
    does not exist gets no not-found indication: the handler sends nothing
    back. *)
Lemma C5_pump_event_for_unknown_device_is_silent :
  let st := initialMemoryState 1000 in
  getDevice st "ghost" = None ∧
  ¬ replies_not_found (snd (dispatch st (PumpEvent "ghost" (VStr "on")) 2000)).
Proof. split; [reflexivity|]. intros H. discriminate H. Qed.

(** With the database, a mode that is not a string comes back as one:
    [{ mode: 5 }] is stored in a [TEXT] column. *)
Example database_mode_is_text :
  let st := initialDatabaseState 1000 in
  let body : Obj := {[ "mode" := VNum 5%Q ]} in
  (λ d, get d "mode") <$> getDevice (postMode st "device_001" body 2000).1
                            "device_001"
    = Some (VStr "5").
Proof. reflexivity. Qed.

End commands.

(** ** The liveness sweep *)

Section sweep.
Implicit Types (st : State) (id : string) (d device : Obj) (now : Z).
Implicit Types (ls : gmap string Z) (devices tbl : list Obj).

Lemma markOffline_idemp d : markOffline (markOffline d) = markOffline d.
Proof. unfold markOffline. apply insert_insert_eq. Qed.

Lemma has_id_markOffline id d : has_id id (markOffline d) = has_id id d.
Proof.
  apply has_id_same_id. unfold markOffline. by rewrite get_insert.
Qed.

Lemma sweepDevices_spec useDb ls now devices tbl :
  sweepDevices useDb ls now devices tbl =
    ((λ d, if goesOffline ls now d then markOffline d else d) <$> devices,
     foldl (λ t d, if useDb then markOfflineInDB t (markOffline d) now else t)
           tbl (filter (λ d, goesOffline ls now d) devices),
     (λ d, ("deviceUpdate", Some (markOffline d)))
       <$> filter (λ d, goesOffline ls now d) devices).
Proof.
  revert tbl. induction devices as [|d devices IH]; intros tbl; [done|].
  simpl. fold (goesOffline ls now d). fold (markOffline d).
  fold (markOffline (markOffline d)). rewrite markOffline_idemp.
  destruct (goesOffline ls now d) eqn:E.
  - rewrite IH. rewrite filter_cons_True by by rewrite E. reflexivity.
  - rewrite IH. rewrite filter_cons_False by (rewrite E; intros []).
    reflexivity.
Qed.

Lemma checkOfflineDevices_spec st now :
  checkOfflineDevices st now =
    mkState (useDatabase st)
      (foldl (λ t d, if useDatabase st
                     then markOfflineInDB t (markOffline d) now else t)
             (db_devices st)
             (filter (λ d, goesOffline (deviceLastSeen st) now d)
                     (memoryDevices st)))
      (db_history st)
      ((λ d, if goesOffline (deviceLastSeen st) now d
             then markOffline d else d) <$> memoryDevices st)
      (memorySensorHistory st) (deviceLastSeen st) (mqttConnected st)
      (mqttPublished st)
      (ioEmitted st ++
       ((λ d, ("deviceUpdate", Some (markOffline d)))
          <$> filter (λ d, goesOffline (deviceLastSeen st) now d)
                     (memoryDevices st))).
Proof. unfold checkOfflineDevices. by rewrite sweepDevices_spec. Qed.

(** The sweep selects a record exactly when its id has a (non-zero)
    [deviceLastSeen] entry older than the timeout and its status is not
    [offline]. *)
Lemma goesOffline_iff ls now d :
  goesOffline ls now d = true ↔
  ∃ t, lastSeenOf ls d = Some t ∧ t ≠ 0 ∧ OFFLINE_TIMEOUT < now - t ∧
       get d "status" ≠ VStr "offline".
Proof.
  unfold goesOffline, silent. rewrite andb_true_iff, negb_true_iff.
  rewrite str_eq_false. destruct (lastSeenOf ls d) as [t|].
  - rewrite andb_true_iff, negb_true_iff, Z.eqb_neq, Z.ltb_lt. split.
    + intros [[? ?] ?]. by exists t.
    + intros (? & [= <-] & ? & ? & ?). done.
  - split; [by intros [? _]|]. by intros (? & ? & _).
Qed.

Lemma offline_not_swept ls now d :
  get d "status" = VStr "offline" → goesOffline ls now d = false.
Proof.
  intros H. unfold goesOffline. rewrite H. simpl.
  by rewrite andb_false_r.
Qed.

Lemma unseen_not_swept ls now id d :
  ls !! id = None → has_id id d = true → goesOffline ls now d = false.
Proof.
  intros Hls Hid%has_id_true. unfold goesOffline, lastSeenOf.
  by rewrite Hid, Hls.
Qed.

Lemma swept_has_other_id ls now id d :
  ls !! id = None → goesOffline ls now d = true → has_id id d = false.
Proof.
  intros Hls Hgo. destruct (has_id id d) eqn:E; [|done].
  by rewrite (unseen_not_swept ls now id d) in Hgo.
Qed.

(** The table takes the columns that the sweep writes. *)
Lemma typed_offline now :
  Supabase.typed Supabase.devices
    {[ "status" := VStr "offline"; "last_update" := VDate now ]}
  = Some {[ "status" := VStr "offline"; "last_update" := VDate now ]}.
Proof. reflexivity. Qed.

Lemma markOfflineInDB_patch tbl d now :
  markOfflineInDB tbl d now =
    match get d "id" with
    | VStr id =>
        Supabase.patch tbl id
          {[ "status" := VStr "offline"; "last_update" := VDate now ]}
    | _ => tbl
    end.
Proof.
  unfold markOfflineInDB, Supabase.update. rewrite typed_offline.
  by destruct (get d "id").
Qed.

(** Marking another device offline in the table does not change what a
    lookup of [id] returns. *)
Lemma find_markOfflineInDB tbl id d now :
  has_id id d = false →
  list_find (λ row, has_id id row) (markOfflineInDB tbl d now) =
    list_find (λ row, has_id id row) tbl.
Proof.
  intros Hid. rewrite markOfflineInDB_patch.
  destruct (get d "id") as [| | | |id'|] eqn:E; try done.
  assert (id' ≠ id) as Hne.
  { intros ->. apply has_id_true in E. congruence. }
  rewrite find_patch by done.
  destruct (list_find _ tbl) as [[i row]|] eqn:Hfind; [|done].
  simpl. apply list_find_Some in Hfind as (_ & Hrow & _).
  apply Is_true_true in Hrow.
  by rewrite (has_id_distinct id id' row).
Qed.

Lemma find_swept_table tbl id now (useDb : bool) (swept : list Obj) :
  Forall (λ d, has_id id d = false) swept →
  list_find (λ row, has_id id row)
    (foldl (λ t d, if useDb then markOfflineInDB t (markOffline d) now else t)
           tbl swept) =
    list_find (λ row, has_id id row) tbl.
Proof.
  intros H. revert tbl. induction H as [|d swept Hd _ IH]; intros tbl; [done|].
  simpl. rewrite IH. destruct useDb; [|done].
  apply find_markOfflineInDB. by rewrite has_id_markOffline.
Qed.

(** One sweep, seen from a device that has no [deviceLastSeen] entry. *)
Lemma sweep_ignores_unseen st id now :
  deviceLastSeen st !! id = None →
  deviceLastSeen (checkOfflineDevices st now) = deviceLastSeen st ∧
  getDevice (checkOfflineDevices st now) id = getDevice st id ∧
  (∀ i d, memoryDevices st !! i = Some d → has_id id d = true →
          memoryDevices (checkOfflineDevices st now) !! i = Some d) ∧
  ∃ events,
    ioEmitted (checkOfflineDevices st now) = ioEmitted st ++ events ∧
    silent_about id events.
Proof.
  intros Hls. rewrite checkOfflineDevices_spec.
  set (ls := deviceLastSeen st).
  assert (Forall (λ d, has_id id d = false)
            (filter (λ d, goesOffline ls now d) (memoryDevices st))) as Hswept.
  { apply Forall_forall. intros d [Hgo _]%list_elem_of_filter.
    apply Is_true_true in Hgo. eauto using swept_has_other_id. }
  split_and!; [done| | |].
  - unfold getDevice, Supabase.select_single. simpl.
    destruct (useDatabase st).
    + by rewrite (find_swept_table (db_devices st) id now true _ Hswept).
    + rewrite list_find_fmap.
      rewrite (list_find_ext _ (λ d, has_id id d)).
      * destruct (list_find _ (memoryDevices st)) as [[i d]|] eqn:Hfind;
          [|done].
        simpl. apply list_find_Some in Hfind as (_ & Hd & _).
        apply Is_true_true in Hd.
        by rewrite (unseen_not_swept ls now id d).
      * intros d. simpl.
        destruct (goesOffline ls now d); [|done].
        by rewrite has_id_markOffline.
  - intros i d Hi Hd. simpl. rewrite list_lookup_fmap, Hi. simpl.
    by rewrite (unseen_not_swept ls now id d).
  - eexists. split; [done|]. unfold silent_about.
    apply Forall_fmap. eapply Forall_impl; [exact Hswept|].
    intros d Hd d' [= <-]. by rewrite has_id_markOffline.
Qed.

(** With the in-memory registry, a record that a sweep marks is offline
    afterwards and no later sweep selects it again. *)
Lemma swept_stays_quiet st now now' i d :
  memoryDevices st !! i = Some d →
  goesOffline (deviceLastSeen st) now d = true →
  memoryDevices (checkOfflineDevices st now) !! i = Some (markOffline d) ∧
  ("deviceUpdate", Some (markOffline d))
    ∈ drop (length (ioEmitted st)) (ioEmitted (checkOfflineDevices st now)) ∧
  goesOffline (deviceLastSeen (checkOfflineDevices st now)) now'
              (markOffline d) = false.
Proof.
  intros Hi Hgo. rewrite checkOfflineDevices_spec. simpl. split_and!.
  - by rewrite list_lookup_fmap, Hi; simpl; rewrite Hgo.
  - rewrite drop_app_length. apply list_elem_of_fmap. exists d.
    split; [done|]. apply list_elem_of_filter. split.
    + by rewrite Hgo.
    + eauto using list_elem_of_lookup_2.
  - apply offline_not_swept. unfold markOffline. by rewrite get_insert.
Qed.

(** With the in-memory registry, the events of one sweep are one
    [deviceUpdate] per selected record, in array order, each carrying the
    record with status [offline]; a device all of whose records are already
    [offline] gets none. *)
Lemma sweep_quiet_about_offline_device st id now :
  (∀ d, d ∈ memoryDevices st → has_id id d = true →
        get d "status" = VStr "offline") →
  ∃ events,
    ioEmitted (checkOfflineDevices st now) = ioEmitted st ++ events ∧
    length events
      = length (filter (λ d, goesOffline (deviceLastSeen st) now d)
                       (memoryDevices st)) ∧
    silent_about id events.
Proof.
  intros Hoff. rewrite checkOfflineDevices_spec. simpl.
  eexists. split; [done|]. split; [by rewrite length_fmap|].
  unfold silent_about. apply Forall_fmap, Forall_forall.
  intros d [Hgo Hin]%list_elem_of_filter d' [= <-].
  rewrite has_id_markOffline. apply Is_true_true in Hgo.
  destruct (has_id id d) eqn:E; [|done].
  by rewrite (offline_not_swept _ now d (Hoff d Hin E)) in Hgo.
Qed.

(** C9.  A registered device without a [deviceLastSeen] entry is not
    touched by any number of liveness sweeps: [getDevice] returns the same
    record as before, the record stored in the in-memory array is the same,
    and none of the events that the sweeps emit is about it. *)
Theorem C9_unseen_device_is_never_swept st id (times : list Z) :
  deviceLastSeen st !! id = None →
  getDevice (sweeps st times) id = getDevice st id ∧
  (∀ i d, memoryDevices st !! i = Some d → has_id id d = true →
          memoryDevices (sweeps st times) !! i = Some d) ∧
  ∃ events,
    ioEmitted (sweeps st times) = ioEmitted st ++ events ∧
    silent_about id events.
Proof.
  revert st. induction times as [|now times IH]; intros st Hls.
  - split_and!; [done..|]. exists []. split; [by rewrite app_nil_r|].
    by apply Forall_nil.
  - destruct (sweep_ignores_unseen st id now Hls)
      as (Hls' & Hget & Hmem & ev1 & Hio & Hev1).
    destruct (IH (checkOfflineDevices st now))
      as (Hget' & Hmem' & ev2 & Hio' & Hev2); [by rewrite Hls'|].
    unfold sweeps in *. simpl. split_and!.
    + by rewrite Hget'.
    + eauto.
    + exists (ev1 ++ ev2). rewrite Hio', Hio, app_assoc. split; [done|].
      by apply Forall_app.
Qed.

Lemma C9_unseen_device_is_never_swept_witness :
  let st := initialMemoryState 1000 in
  let times := [30000; 60000; 90000] in
  deviceLastSeen st !! "device_001" = None ∧
  getDevice (sweeps st times) "device_001" = getDevice st "device_001" ∧
  (∀ i d, memoryDevices st !! i = Some d → has_id "device_001" d = true →
          memoryDevices (sweeps st times) !! i = Some d) ∧
  ∃ events,
    ioEmitted (sweeps st times) = ioEmitted st ++ events ∧
    silent_about "device_001" events.
Proof.
  intros st times. split; [reflexivity|].
  apply (C9_unseen_device_is_never_swept st "device_001" times).
  reflexivity.
Defined.

(** C1, at the failing input.  With Supabase configured, a device that was
    registered through the API lives in the [devices] table only.  It has
    reported once, its [deviceLastSeen] entry is older than the timeout and
    its status in the Registry is [online]; the sweep, which walks
    [memoryDevices], leaves that status [online] and emits no event. *)
Theorem C1_sweep_skips_devices_stored_in_database :
  let st := databaseDeviceReported in
  let st' := checkOfflineDevices st 40000 in
  useDatabase st = true ∧
  deviceLastSeen st !! "device_5000" = Some 6000 ∧
  OFFLINE_TIMEOUT < 40000 - 6000 ∧
  (λ d, get d "status") <$> getDevice st "device_5000"
    = Some (VStr "online") ∧
  (λ d, get d "status") <$> getDevice st' "device_5000"
    = Some (VStr "online") ∧
  drop (length (ioEmitted st)) (ioEmitted st') = [].
Proof. split_and!; reflexivity. Qed.

(** The seeded device is in both stores.  With Supabase configured its
    in-memory copy is marked [offline] by the first sweep and never reset by
    telemetry, which only writes to the table; when the device falls silent
    a second time the sweep takes it for already offline and the Registry
    keeps saying [online]. *)
Example database_seed_is_demoted_only_once :
  let st := run (initialDatabaseState 1000) seedSilentTwice in
  deviceLastSeen st !! "device_001" = Some 31000 ∧
  (λ d, get d "status") <$> getDevice st "device_001"
    = Some (VStr "online") ∧
  (λ d, get d "status") <$> head (memoryDevices st)
    = Some (VStr "offline") ∧
  length (ioEmitted st) = 3%nat.
Proof. split_and!; reflexivity. Qed.

End sweep.

(** ** Device creation *)

Section creation.
Implicit Types (st : State) (id : string) (device d : Obj) (now : Z).

Lemma get_mapDeviceToDB_id device :
  get (mapDeviceToDB device) "id" = get device "id".
Proof. reflexivity. Qed.

(** An insert under an id that is in the table is refused. *)
Lemma insert_conflict tbl row now id r :
  get row "id" = VStr id →
  Supabase.select_single tbl id = Some r →
  Supabase.insert tbl row now = None.
Proof.
  intros Hid Hr. unfold Supabase.insert.
  destruct (Supabase.typed _ row) as [cols|] eqn:Hc; [|done].
  assert (get cols "id" = VStr id) as ->.
  { unfold get at 1. by rewrite (typed_lookup_get _ _ _ "id" Hc), Hid. }
  destruct (get cols "name"); try done. by rewrite Hr.
Qed.

(** [createDevice] with an id that is already registered: with the
    database the insert is refused on the primary key, the function
    returns [null] and the state is unchanged; with the in-memory fallback
    there is no check, the device is appended and returned, and
    [getDevice] goes on returning the older record with that id. *)
Lemma createDevice_with_registered_id st device id now d0 :
  get device "id" = VStr id →
  getDevice st id = Some d0 →
  if useDatabase st then createDevice st device now = (st, None)
  else
    createDevice st device now
      = (set_memoryDevices st (memoryDevices st ++ [device]), Some device) ∧
    getDevice (fst (createDevice st device now)) id = Some d0.
Proof.
  intros Hid. unfold getDevice, createDevice.
  destruct (useDatabase st) eqn:Hmode.
  - intros (row & Hrow & _)%fmap_Some.
    by rewrite (insert_conflict _ _ _ id row).
  - intros ([i d] & Hfind & ->)%fmap_Some. split; [done|].
    simpl. rewrite Hmode. by erewrite list_find_app_l.
Qed.

(** C7, at the failing input.  Two registration requests handled in the
    same millisecond get the same id.  Without Supabase the second one is
    answered [201 Created] like the first, and the Registry then holds two
    records with that id.  With Supabase the same second request is
    refused by the primary key of [devices]: the route answers [500] and
    the Registry holds one record with that id. *)
Theorem C7_memory_registry_accepts_duplicate_id :
  let st1 := fst (postDevices (initialMemoryState 1000) registration 5000) in
  let second := postDevices st1 registration 5000 in
  let db1 := fst (postDevices (initialDatabaseState 1000) registration 5000) in
  let refused := postDevices db1 registration 5000 in
  (λ d, get d "id") <$> getDevice st1 "device_5000"
    = Some (VStr "device_5000") ∧
  (∃ d, snd second = Created d ∧ get d "id" = VStr "device_5000") ∧
  length (filter (λ d, has_id "device_5000" d) (getDevices (fst second)))
    = 2%nat ∧
  (λ d, get d "id") <$> getDevice db1 "device_5000"
    = Some (VStr "device_5000") ∧
  snd refused = ServerError ∧
  length (filter (λ d, has_id "device_5000" d) (getDevices (fst refused)))
    = 1%nat.
Proof.
  split; [reflexivity|]. split; [|split_and!; reflexivity].
  eexists. split; reflexivity.
Qed.

End creation.

(** ** Sensor history *)

Section history.
Implicit Types (st : State) (id : string) (h : Obj) (limit s e : Z).

Lemma length_slice_from {A} (limit : Z) (arr : list A) :
  0 < limit → Z.of_nat (length (slice_from (- limit) arr)) ≤ limit.
Proof.
  intros Hpos. unfold slice_from. rewrite length_drop.
  rewrite (proj2 (Z.ltb_lt _ _)) by lia. lia.
Qed.

Lemma inWindow_bounds s e h ts :
  inWindow (GoodDate s) (GoodDate e) h = true →
  getTime (get h "timestamp") = Some ts → s ≤ ts ≤ e.
Proof.
  unfold inWindow. intros H Hts. rewrite Hts in H.
  apply andb_true_iff in H as [H1 H2].
  apply negb_true_iff, Z.ltb_ge in H1, H2. lia.
Qed.

(** With the in-memory history and a positive limit, a query bounded on
    both sides returns at most [limit] samples, all of them inside the
    window, in the order in which they were stored. *)
Lemma getSensorHistory_memory_positive_limit st id limit s e :
  useDatabase st = false →
  0 < limit →
  let result := getSensorHistory st id limit (GoodDate s) (GoodDate e) in
  Z.of_nat (length result) ≤ limit ∧
  (∀ h ts, h ∈ result → getTime (get h "timestamp") = Some ts → s ≤ ts ≤ e) ∧
  sublist result (default [] (memorySensorHistory st !! id)).
Proof.
  intros Hm Hpos. unfold getSensorHistory. rewrite Hm. simpl.
  set (stored := default [] _). split_and!.
  - by apply length_slice_from.
  - intros h ts Hin Hts. unfold slice_from in Hin.
    apply subseteq_drop in Hin.
    apply list_elem_of_filter in Hin as [Hw _].
    eauto using inWindow_bounds.
  - unfold slice_from. etrans; [apply sublist_drop|apply sublist_filter].
Qed.

(** The database branch of the same query returns nothing for a limit
    of zero. *)
Lemma getSensorHistory_database_limit_zero st id s e :
  useDatabase st = true →
  getSensorHistory st id 0 (GoodDate s) (GoodDate e) = [] ∧
  getSensorHistory st id 0 NoDate NoDate = [].
Proof. intros Hdb. unfold getSensorHistory. by rewrite Hdb. Qed.

(** C8, at the failing input.  The seeded device has two samples in the
    in-memory history; a query with [limit = 0] (as in [?limit=0]) takes
    [history.slice(-0)], which is the whole array: two samples are returned
    where the limit allows none. *)
Theorem C8_limit_zero_returns_whole_history :
  useDatabase twoSamples = false ∧
  length (getSensorHistory twoSamples "device_001" 0 NoDate NoDate) = 2%nat ∧
  length (getSensorHistory twoSamples "device_001" 0
            (GoodDate 0) (GoodDate 10000)) = 2%nat.
Proof. split_and!; reflexivity. Qed.

End history.

(** ** The in-memory fallback and the seeded record *)

Section fallback.
Implicit Types (st : State) (id : string) (updates d : Obj) (now boot : Z).

Lemma merged_lookup d updates now k :
  merged d updates now !! k =
    if decide ("lastUpdate" = k) then Some (VDate now)
    else updates !! k ∪ d !! k.
Proof.
  unfold merged, assign. rewrite !lookup_union, lookup_singleton.
  case_decide; [|by rewrite (left_id_L None _)].
  by destruct (updates !! k), (d !! k).
Qed.

Lemma seedKept_merged boot d updates now :
  seedKept boot d → camelPatch updates → seedKept boot (merged d updates now).
Proof.
  intros (Hid & H1 & H2 & H3) (Pid & P1 & P2 & P3). unfold seedKept.
  rewrite get_merged, !merged_lookup.
  rewrite !decide_False by done.
  by rewrite Pid, P1, P2, P3, H1, H2, H3.
Qed.

Lemma seedKept_markOffline boot d :
  seedKept boot d → seedKept boot (markOffline d).
Proof.
  intros (Hid & H1 & H2 & H3). unfold seedKept, markOffline.
  rewrite get_insert, !lookup_insert_ne by done. by rewrite decide_False.
Qed.

(** The id that the create route makes is never the seeded one: the
    decimal notation of a time has no leading zero. *)
Lemma pretty_N_go_head x s :
  (0 < x)%N →
  ∃ c t, pretty_N_go x s = String c t ∧ c ≠ pretty_N_char 0.
Proof.
  revert s. induction (N.lt_wf_0 x) as [x _ IH]. intros s Hx.
  rewrite pretty_N_go_step by done.
  destruct (decide (x `div` 10 = 0)%N) as [E|E].
  - rewrite E, pretty_N_go_0. eexists _, _. split; [done|].
    apply N.div_small_iff in E; [|done].
    rewrite N.mod_small by done.
    intros Hc. assert (x = 0%N) as Hx0 by by apply pretty_N_char_inj.
    rewrite Hx0 in Hx. by apply N.lt_irrefl in Hx.
  - apply IH; [by apply N.div_lt|by apply N.neq_0_lt_0].
Qed.

Lemma pretty_no_leading_zero now : pretty now ≠ "001".
Proof.
  destruct now as [|p|p]; [done| |].
  - change (pretty (Z.pos p)) with (pretty_N_go (N.pos p) "").
    destruct (pretty_N_go_head (N.pos p) "") as (c & t & -> & Hc); [lia|].
    intros [= -> _]. by apply Hc.
  - change (pretty (Z.neg p)) with ("-" +:+ pretty (N.pos p)).
    intros H. discriminate H.
Qed.

Lemma newId_not_seed now : newId now ≠ "device_001".
Proof.
  unfold newId. intros H.
  apply (pretty_no_leading_zero now).
  by apply (inj (String.app "device_")).
Qed.

Lemma fallbackInv_ext boot st st' :
  useDatabase st' = useDatabase st →
  memoryDevices st' = memoryDevices st →
  fallbackInv boot st → fallbackInv boot st'.
Proof. unfold fallbackInv. by intros -> ->. Qed.

Lemma updateDevice_inv boot st id updates now :
  fallbackInv boot st → camelPatch updates →
  fallbackInv boot (updateDevice st id updates now).1.
Proof.
  intros (Hm & Hseed) Hpatch. unfold updateDevice. rewrite Hm.
  destruct (list_find _ _) as [[i d]|] eqn:Hfind; [|by split].
  fold (merged d updates now). split; [done|].
  apply list_find_Some in Hfind as (Hi & _ & _).
  cbn [fst memoryDevices set_memoryDevices].
  intros d' [j Hj]%list_elem_of_lookup Hid.
  apply list_lookup_insert_Some in Hj as [(<- & <- & _)|[_ Hj]].
  - apply seedKept_merged; [|done]. apply Hseed.
    + eauto using list_elem_of_lookup_2.
    + rewrite <- (has_id_same_id "device_001" d (merged d updates now));
        [done|].
      rewrite get_merged, decide_False by done.
      by rewrite (proj1 Hpatch).
  - apply Hseed; eauto using list_elem_of_lookup_2.
Qed.

Lemma telemetryUpdates_camel data : camelPatch (telemetryUpdates data).
Proof. by split_and!. Qed.

Lemma pumpUpdates_camel turnOn : camelPatch (pumpUpdates turnOn).
Proof. by split_and!. Qed.

Lemma singleton_camel k v :
  k ∈ patchable → camelPatch ({[ k := v ]} : Obj).
Proof.
  unfold patchable. rewrite !elem_of_cons, elem_of_nil.
  intros [->|[->|[->|[->|[->|[->|[]]]]]]]; by split_and!.
Qed.

Lemma handleDeviceData_inv boot st id data now :
  fallbackInv boot st → fallbackInv boot (handleDeviceData st id data now).
Proof.
  intros Hinv. unfold handleDeviceData.
  set (st0 := set_deviceLastSeen st _).
  assert (fallbackInv boot st0) as Hinv0 by by eapply fallbackInv_ext.
  pose proof (updateDevice_inv boot st0 id (telemetryUpdates data) now
                Hinv0 (telemetryUpdates_camel data)) as Hupd.
  destruct (updateDevice st0 id _ now) as [st1 [device|]]; simpl in *; [|done].
  eapply fallbackInv_ext; [..|exact Hupd]; simpl;
    by apply storeSensorHistory_devices.
Qed.

Lemma handleDeviceStatus_inv boot st id data now :
  fallbackInv boot st → fallbackInv boot (handleDeviceStatus st id data now).
Proof.
  intros Hinv. unfold handleDeviceStatus.
  pose proof (updateDevice_inv boot st id {[ "status" := get data "status" ]}
                now Hinv) as Hupd.
  destruct (updateDevice st id _ now) as [st1 [device|]]; simpl in *;
    apply Hupd; apply singleton_camel; set_solver.
Qed.

Lemma published_inv boot st topic payload :
  fallbackInv boot st → fallbackInv boot (published st topic payload).
Proof.
  intros Hinv. eapply fallbackInv_ext; [..|exact Hinv];
    by apply published_devices.
Qed.

Lemma postPump_inv boot st id body now :
  fallbackInv boot st → fallbackInv boot (postPump st id body now).1.
Proof.
  intros Hinv. unfold postPump. destruct (getDevice st id); [|done].
  fold (published st (commandTopic id)
          {[ "pump" := VBool (str_eq (get body "action") "on") ]}).
  set (st0 := published st _ _).
  pose proof (updateDevice_inv boot st0 id
                (pumpUpdates (str_eq (get body "action") "on")) now
                (published_inv boot st _ _ Hinv) (pumpUpdates_camel _)) as Hupd.
  by destruct (updateDevice st0 id _ now) as [st1 updated].
Qed.

Lemma postMode_inv boot st id body now :
  fallbackInv boot st → fallbackInv boot (postMode st id body now).1.
Proof.
  intros Hinv. unfold postMode. destruct (getDevice st id); [|done].
  fold (published st (commandTopic id) {[ "mode" := get body "mode" ]}).
  set (st0 := published st _ _).
  pose proof (updateDevice_inv boot st0 id {[ "mode" := get body "mode" ]} now
                (published_inv boot st _ _ Hinv)) as Hupd.
  destruct (updateDevice st0 id _ now) as [st1 updated]. simpl in *.
  apply Hupd. apply singleton_camel. set_solver.
Qed.

Lemma onPumpControl_inv boot st id action now :
  fallbackInv boot st → fallbackInv boot (onPumpControl st id action now).
Proof.
  intros Hinv. unfold onPumpControl.
  fold (published st (commandTopic id)
          {[ "pump" := VBool (str_eq action "on") ]}).
  set (st0 := published st _ _).
  pose proof (updateDevice_inv boot st0 id (pumpUpdates (str_eq action "on"))
                now (published_inv boot st _ _ Hinv) (pumpUpdates_camel _))
    as Hupd.
  by destruct (updateDevice st0 id _ now) as [st1 [updated|]].
Qed.

Lemma postDevices_inv boot st body now :
  fallbackInv boot st → fallbackInv boot (postDevices st body now).1.
Proof.
  intros (Hm & Hseed). unfold postDevices, createDevice.
  destruct (_ || _); [by split|].
  rewrite Hm. simpl. split; [done|].
  intros d [Hd|Hd]%elem_of_app Hid; [by apply Hseed|].
  apply list_elem_of_singleton in Hd as ->.
  apply has_id_true in Hid.
  change (get (newDevice body now) "id") with (VStr (newId now)) in Hid.
  injection Hid as Hid. by destruct (pretty_no_leading_zero now Hid).
Qed.

Lemma checkOfflineDevices_inv boot st now :
  fallbackInv boot st → fallbackInv boot (checkOfflineDevices st now).
Proof.
  intros (Hm & Hseed). rewrite checkOfflineDevices_spec.
  split; [done|]. simpl.
  intros d' (d & -> & Hd)%list_elem_of_fmap Hid.
  destruct (goesOffline _ now d); [|by apply Hseed].
  apply seedKept_markOffline, Hseed; [done|].
  by rewrite has_id_markOffline in Hid.
Qed.

Lemma deleteDevices_inv boot st id :
  fallbackInv boot st → fallbackInv boot (deleteDevices st id).1.
Proof.
  intros (Hm & Hseed). unfold deleteDevices, deleteDevice.
  destruct (getDevice st id); [|by split]. rewrite Hm.
  destruct (list_find _ _) as [[i d]|]; [|by split].
  split; [done|]. simpl. intros d' Hd'. apply Hseed.
  eauto using list_elem_of_delete_inv.
Qed.

Lemma step_inv boot st op :
  fallbackInv boot st → fallbackInv boot (step st op).
Proof.
  intros Hinv. destruct op as [[deviceId messageType [data|]| | | | | |] now];
    simpl; eauto using handleDeviceData_inv, postPump_inv, postMode_inv,
      onPumpControl_inv, postDevices_inv, checkOfflineDevices_inv.
  unfold onMqttMessage.
  repeat case_match;
    eauto using handleDeviceData_inv, handleDeviceStatus_inv.
Qed.

Lemma run_inv boot st ops :
  fallbackInv boot st → fallbackInv boot (run st ops).
Proof.
  revert st. unfold run.
  induction ops as [|op ops IH]; intros st Hinv; simpl; eauto using step_inv.
Qed.

Lemma performAll_inv boot st acts :
  fallbackInv boot st → fallbackInv boot (performAll st acts).
Proof.
  revert st. unfold performAll.
  induction acts as [|[[op|id] now] acts IH]; intros st Hinv; [done|..];
    cbn [foldl perform]; apply IH.
  - by apply step_inv.
  - by apply deleteDevices_inv.
Qed.

Lemma initial_inv boot : fallbackInv boot (initialMemoryState boot).
Proof.
  split; [done|]. intros d Hd%list_elem_of_singleton _. subst d.
  by split_and!.
Qed.

(** C10.  Without Supabase, after any sequence of telemetry and status
    messages, pump and mode commands, registrations, deletions and sweeps:
    [getDevices] is the stored array itself, and the record that
    [getDevice] returns for the seeded id, as long as the seed is
    registered, is an element of that array that still has [soil_moisture],
    [pump_active] and [last_update] with the values given at process start;
    no key is renamed on the way out.  An update of the seeded device with a
    patch of camelCase keys is stored: what [getDevice] and [getDevices]
    return afterwards is the record with each key of the patch as it is
    spelt and with [lastUpdate], beside the snake_case properties, which
    keep their values, and with every other property as it was.  So the
    record then has [lastUpdate] beside [last_update] (and, after
    telemetry, [soilMoisture] beside [soil_moisture] and [pumpActive]
    beside [pump_active]). *)
Theorem C10_fallback_keeps_snake_case_seed boot acts updates now :
  camelPatch updates →
  let st := performAll (initialMemoryState boot) acts in
  let st' := (updateDevice st "device_001" updates now).1 in
  getDevices st = memoryDevices st ∧
  ∀ d0, getDevice st "device_001" = Some d0 →
    d0 ∈ memoryDevices st ∧
    seedKept boot d0 ∧
    ∃ d1,
      (updateDevice st "device_001" updates now).2 = Some d1 ∧
      getDevice st' "device_001" = Some d1 ∧
      d1 ∈ getDevices st' ∧
      length (getDevices st') = length (getDevices st) ∧
      (∀ k v, updates !! k = Some v → k ≠ "lastUpdate" → d1 !! k = Some v) ∧
      d1 !! "lastUpdate" = Some (VDate now) ∧
      (∀ k, updates !! k = None → k ≠ "lastUpdate" → d1 !! k = d0 !! k) ∧
      seedKept boot d1.
Proof.
  intros Hpatch st st'.
  destruct (performAll_inv boot (initialMemoryState boot) acts
              (initial_inv boot)) as (Hm & Hseed).
  fold st in Hm, Hseed.
  split; [unfold getDevices; by rewrite Hm|].
  intros d0 Hd0.
  assert (d0 ∈ memoryDevices st ∧ has_id "device_001" d0 = true) as [Hin Hid].
  { unfold getDevice in Hd0. rewrite Hm in Hd0.
    apply fmap_Some in Hd0 as ([i d] & Hfind & ->).
    apply list_find_Some in Hfind as (Hi & Hid & _).
    split; [eauto using list_elem_of_lookup_2|by apply Is_true_true]. }
  pose proof (Hseed d0 Hin Hid) as Hkept.
  split; [done|]. split; [done|].
  destruct (updateDevice_found st "device_001" updates now d0 Hd0)
    as (st1 & d1 & i & Hupd & _ & _ & Hi' & Hlen & _ & _ & _ & Hmem & Hget);
    [congruence|].
  subst st'. rewrite Hupd. cbn [fst snd].
  rewrite (Hmem Hm) in *. exists (merged d0 updates now).
  split_and!; try done.
  - apply Hget, Hpatch.
  - eauto using list_elem_of_lookup_2.
  - intros k v Hk Hne. rewrite merged_lookup.
    rewrite decide_False by congruence. rewrite Hk.
    by destruct (d0 !! k).
  - by rewrite merged_lookup, decide_True.
  - intros k Hk Hne. rewrite merged_lookup.
    rewrite decide_False by congruence. rewrite Hk.
    by rewrite (left_id_L None _).
  - by apply seedKept_merged.
Qed.

Lemma C10_fallback_keeps_snake_case_seed_witness :
  camelPatch manualPatch ∧
  let st := performAll (initialMemoryState 1000) registerReportDelete in
  let st' := (updateDevice st "device_001" manualPatch 40000).1 in
  getDevices st = memoryDevices st ∧
  ∀ d0, getDevice st "device_001" = Some d0 →
    d0 ∈ memoryDevices st ∧
    seedKept 1000 d0 ∧
    ∃ d1,
      (updateDevice st "device_001" manualPatch 40000).2 = Some d1 ∧
      getDevice st' "device_001" = Some d1 ∧
      d1 ∈ getDevices st' ∧
      length (getDevices st') = length (getDevices st) ∧
      (∀ k v, manualPatch !! k = Some v → k ≠ "lastUpdate" →
              d1 !! k = Some v) ∧
      d1 !! "lastUpdate" = Some (VDate 40000) ∧
      (∀ k, manualPatch !! k = None → k ≠ "lastUpdate" →
            d1 !! k = d0 !! k) ∧
      seedKept 1000 d1.
Proof.
  split; [by split_and!|].
  apply (C10_fallback_keeps_snake_case_seed 1000 registerReportDelete
           manualPatch 40000).
  by split_and!.
Defined.

(** After the activities of the witness the seeded record has both
    spellings of each renamed property, with different values. *)
Example seed_has_both_spellings :
  let st := performAll (initialMemoryState 1000) registerReportDelete in
  (λ d, (d !! "soil_moisture", d !! "soilMoisture",
         d !! "pump_active", d !! "pumpActive",
         d !! "last_update", d !! "lastUpdate", d !! "status"))
    <$> getDevice st "device_001"
  = Some (Some (VNum 78%Q), Some (VNum 50%Q),
          Some (VBool false), Some (VBool false),
          Some (VDate 1000), Some (VDate 6000), Some (VStr "offline")).
Proof. reflexivity. Qed.

End fallback.

(** ** Devices do not interfere *)

Section interference.
Implicit Types (st : State) (id : string) (data updates d : Obj) (now : Z).

Lemma list_find_insert_irrelevant (P : Obj → Prop) `{!∀ x, Decision (P x)}
    (l : list Obj) i x y :
  l !! i = Some x → ¬ P x → ¬ P y →
  list_find P (<[i := y]> l) = list_find P l.
Proof.
  revert i. induction l as [|z l IH]; intros i Hi Hx Hy; [done|].
  destruct i as [|i]; simpl in Hi.
  - injection Hi as ->. simpl. by rewrite !decide_False.
  - simpl. case_decide; [done|]. by rewrite (IH i).
Qed.

Lemma updateDevice_same_periphery st id updates now :
  same_periphery st (updateDevice st id updates now).1.
Proof.
  unfold updateDevice. destruct (useDatabase st) eqn:Hm.
  - destruct (Supabase.update _ _ _); [|by repeat split].
    destruct (Supabase.select_single _ _); by repeat split.
  - destruct (list_find _ _) as [[i d]|]; by repeat split.
Qed.

(** An update addressed to one id leaves every other id's record as it
    is, in either storage mode. *)
Lemma updateDevice_other st id id' updates now :
  id ≠ id' → updates !! "id" = None →
  getDevice (updateDevice st id updates now).1 id' = getDevice st id'.
Proof.
  intros Hne Hnoid.
  destruct (useDatabase st) eqn:Hmode.
  - destruct (Supabase.typed Supabase.devices (dbUpdatesOf updates now))
      as [cols|] eqn:Hc; [|by rewrite updateDevice_refused].
    rewrite (updateDevice_database _ _ _ _ cols) by done.
    unfold getDevice, Supabase.select_single.
    destruct (list_find _ (db_devices st)) as [[i row]|] eqn:Hfind;
      simpl; rewrite Hmode; [|done].
    rewrite find_patch by eauto using typed_dbUpdatesOf_id.
    destruct (list_find (λ r, has_id id' r) (db_devices st))
      as [[j row']|] eqn:Hfind'; [|done].
    simpl. apply list_find_Some in Hfind' as (_ & Hrow & _).
    apply Is_true_true in Hrow.
    by rewrite (has_id_distinct id' id row').
  - unfold getDevice, updateDevice. rewrite Hmode.
    destruct (list_find _ (memoryDevices st)) as [[i d]|] eqn:Hfind;
      simpl; rewrite Hmode; [|done].
    apply list_find_Some in Hfind as (Hi & Hd & _).
    apply Is_true_true in Hd.
    assert (has_id id' d = false) as E by by apply (has_id_distinct id id').
    assert (has_id id' (merged d updates now) = false) as E'.
    { rewrite <- E. apply has_id_same_id.
      rewrite get_merged, decide_False by done. by rewrite Hnoid. }
    f_equal. apply (list_find_insert_irrelevant _ _ i d); [done|..]; simpl.
    + rewrite E. by intros [].
    + fold (merged d updates now). rewrite E'. by intros [].
Qed.

Lemma handleDeviceData_lastSeen st id data now :
  deviceLastSeen (handleDeviceData st id data now)
    = <[id := now]> (deviceLastSeen st).
Proof.
  unfold handleDeviceData. set (st0 := set_deviceLastSeen st _).
  pose proof (updateDevice_same_periphery st0 id (telemetryUpdates data) now)
    as (_ & _ & _ & Hls & _).
  destruct (updateDevice st0 id _ now) as [st1 [device|]]; simpl in *;
    [|done].
  by destruct (storeSensorHistory_devices st1 id data now)
    as (_ & _ & _ & _ & ->).
Qed.

Lemma handleDeviceData_other st id id' data now :
  id ≠ id' →
  getDevice (handleDeviceData st id data now) id' = getDevice st id'.
Proof.
  intros Hne. unfold handleDeviceData. set (st0 := set_deviceLastSeen st _).
  pose proof (updateDevice_other st0 id id' (telemetryUpdates data) now Hne)
    as Hother.
  destruct (updateDevice st0 id _ now) as [st1 [device|]]; simpl in *.
  - rewrite <- (getDevice_ext st st0 id') by done.
    rewrite <- Hother by done.
    by apply getDevice_ext; apply storeSensorHistory_devices.
  - rewrite Hother by done. by apply getDevice_ext.
Qed.

Lemma handleDeviceData_stays_registered st id id' data now :
  is_Some (getDevice st id') →
  is_Some (getDevice (handleDeviceData st id data now) id').
Proof.
  intros [d Hd]. destruct (decide (id = id')) as [->|Hne].
  - destruct (useDatabase st) eqn:Hm.
    + destruct (Supabase.typed Supabase.devices
                  (dbUpdatesOf (telemetryUpdates data) now)) eqn:Hc.
      * destruct (handleDeviceData_found st id' data now d Hd)
          as (st1 & d' & _ & _ & _ & Hget & _); [by rewrite Hc|eauto].
      * rewrite handleDeviceData_refused by done.
        rewrite (getDevice_ext st) by done. eauto.
    + destruct (handleDeviceData_found st id' data now d Hd)
        as (st1 & d' & _ & _ & _ & Hget & _); [congruence|eauto].
  - rewrite handleDeviceData_other by done. eauto.
Qed.

Lemma handleDeviceData_mode st id data now :
  useDatabase (handleDeviceData st id data now) = useDatabase st.
Proof.
  unfold handleDeviceData. set (st0 := set_deviceLastSeen st _).
  pose proof (updateDevice_same_periphery st0 id (telemetryUpdates data) now)
    as (Hm & _).
  destruct (updateDevice st0 id _ now) as [st1 [device|]]; simpl in *;
    [|done].
  by destruct (storeSensorHistory_devices st1 id data now) as (-> & _).
Qed.

Lemma ingest_mode st msgs : useDatabase (ingest st msgs) = useDatabase st.
Proof.
  revert st. unfold ingest.
  induction msgs as [|m msgs IH]; intros st; [done|].
  simpl. rewrite IH. apply handleDeviceData_mode.
Qed.

Lemma ingest_other st id msgs :
  Forall (λ m : string * Obj * Z, m.1.1 ≠ id) msgs →
  getDevice (ingest st msgs) id = getDevice st id.
Proof.
  intros H. revert st. unfold ingest.
  induction H as [|m msgs Hm _ IH]; intros st; [done|].
  simpl. rewrite IH. by apply handleDeviceData_other.
Qed.

Lemma ingest_stays_registered st id msgs :
  is_Some (getDevice st id) → is_Some (getDevice (ingest st msgs) id).
Proof.
  revert st. unfold ingest.
  induction msgs as [|m msgs IH]; intros st Hd; [done|].
  simpl. apply IH. by apply handleDeviceData_stays_registered.
Qed.

(** X1.  Last writer wins, without interference between devices: after any
    stream of telemetry, a registered device shows the readings of the last
    message addressed to it, whatever was sent to it earlier and whatever
    is sent to other devices before or after.  (With the database the
    readings are ones that the columns keep: a temperature and a humidity
    that single precision holds as they are written, a soil moisture that
    is a whole number of 32 bits.) *)
Theorem last_telemetry_wins st id data now before after :
  is_Some (getDevice st id) →
  acceptedTelemetry data = true →
  (useDatabase st = true → keptReadings data) →
  Forall (λ m : string * Obj * Z, m.1.1 ≠ id) after →
  ∃ d',
    getDevice (ingest st (before ++ (id, data, now) :: after)) id = Some d' ∧
    get d' "temperature" = get data "temperature" ∧
    get d' "humidity" = get data "humidity" ∧
    get d' "soilMoisture" = get data "soilPercent" ∧
    get d' "status" = statusOfPump (get data "pumpActive") ∧
    get d' "lastUpdate" = VDate now.
Proof.
  intros Hreg Hacc Hkept Hafter.
  destruct (ingest_stays_registered st id before Hreg) as [d Hd].
  pose proof Hacc as Hacc'.
  unfold acceptedTelemetry, requiredNumeric in Hacc.
  apply andb_true_iff in Hacc as [Hnum Hflag].
  apply andb_true_iff in Hnum as [Hnum Hsoil].
  apply andb_true_iff in Hnum as [Htemp Hhum].
  destruct (handleDeviceData_found (ingest st before) id data now d Hd)
    as (st1 & d' & _ & _ & _ & Hget & _ & Hlast & Hstatus & _ & _ & Hset & _).
  { rewrite ingest_mode. intros Hm. by apply keptReadings_storable; auto. }
  destruct (get_telemetryUpdates data) as (Et & Eh & Es).
  exists d'. split.
  - unfold ingest. rewrite foldl_app. simpl.
    fold (ingest st before).
    fold (ingest (handleDeviceData (ingest st before) id data now) after).
    by rewrite ingest_other.
  - rewrite ingest_mode in Hset. split_and!; try done.
    + rewrite <- Et. apply Hset; [done| |].
      * rewrite Et. by destruct (get data "temperature").
      * intros Hm. rewrite Et. apply (Hkept Hm).
    + rewrite <- Eh. apply Hset; [done| |].
      * rewrite Eh. by destruct (get data "humidity").
      * intros Hm. rewrite Eh. apply (Hkept Hm).
    + rewrite <- Es. apply Hset; [done| |].
      * rewrite Es. by destruct (get data "soilPercent").
      * intros Hm. rewrite Es. apply (Hkept Hm).
Qed.

Lemma last_telemetry_wins_witness :
  is_Some (getDevice (initialDatabaseState 1000) "device_001") ∧
  acceptedTelemetry reading = true ∧
  keptReadings reading ∧
  ∃ d',
    getDevice
      (ingest (initialDatabaseState 1000)
         ([("device_001", wateringReading, 2000)] ++
          ("device_001", reading, 3000) ::
          [("device_002", wateringReading, 4000)])) "device_001" = Some d' ∧
    get d' "temperature" = get reading "temperature" ∧
    get d' "humidity" = get reading "humidity" ∧
    get d' "soilMoisture" = get reading "soilPercent" ∧
    get d' "status" = statusOfPump (get reading "pumpActive") ∧
    get d' "lastUpdate" = VDate 3000.
Proof.
  split; [by eexists|]. split; [reflexivity|].
  split; [by split_and!|].
  apply (last_telemetry_wins (initialDatabaseState 1000) "device_001" reading
           3000 [("device_001", wateringReading, 2000)]
           [("device_002", wateringReading, 4000)]).
  - by eexists.
  - reflexivity.
  - intros _. by split_and!.
  - constructor; [simpl; discriminate|constructor].
Defined.

End interference.

(** ** More on the liveness sweep *)

Section sweep_more.
Implicit Types (st : State) (id : string) (d device data : Obj) (now t : Z).
Implicit Types (ls : gmap string Z).

Lemma not_silent_not_swept ls now id d :
  silent (ls !! id) now = false → has_id id d = true →
  goesOffline ls now d = false.
Proof.
  intros Hls Hid%has_id_true. unfold goesOffline, lastSeenOf.
  by rewrite Hid, Hls.
Qed.

Lemma has_id_swept ls now id d : has_id id (swept ls now d) = has_id id d.
Proof.
  unfold swept. destruct (goesOffline ls now d); [|done].
  apply has_id_markOffline.
Qed.

Lemma swept_fixpoint ls now d : swept ls now (swept ls now d) = swept ls now d.
Proof.
  unfold swept at 2 3. destruct (goesOffline ls now d) eqn:E.
  - unfold swept. rewrite offline_not_swept; [done|].
    unfold markOffline. by rewrite get_insert.
  - unfold swept. by rewrite E.
Qed.

Lemma swept_not_selected ls now d : goesOffline ls now (swept ls now d) = false.
Proof.
  unfold swept. destruct (goesOffline ls now d) eqn:E; [|done].
  apply offline_not_swept. unfold markOffline. by rewrite get_insert.
Qed.

(** With the in-memory registry, what [getDevice] returns after a sweep is
    the swept form of what it returned before. *)
Lemma getDevice_sweep_memory st id now :
  useDatabase st = false →
  getDevice (checkOfflineDevices st now) id
    = swept (deviceLastSeen st) now <$> getDevice st id.
Proof.
  intros Hm. rewrite checkOfflineDevices_spec. unfold getDevice. simpl.
  rewrite Hm, list_find_fmap.
  rewrite (list_find_ext _ (λ d, has_id id d)).
  - by destruct (list_find _ (memoryDevices st)) as [[i d]|].
  - intros d. simpl. fold (swept (deviceLastSeen st) now d).
    by rewrite has_id_swept.
Qed.

(** One sweep, seen from a device whose last report is recent enough (or
    that has none). *)
Lemma sweep_spares st id now :
  silent (deviceLastSeen st !! id) now = false →
  getDevice (checkOfflineDevices st now) id = getDevice st id ∧
  (∀ i d, memoryDevices st !! i = Some d → has_id id d = true →
          memoryDevices (checkOfflineDevices st now) !! i = Some d) ∧
  ∃ events,
    ioEmitted (checkOfflineDevices st now) = ioEmitted st ++ events ∧
    silent_about id events.
Proof.
  intros Hls. rewrite checkOfflineDevices_spec.
  set (ls := deviceLastSeen st) in *.
  assert (Forall (λ d, has_id id d = false)
            (filter (λ d, goesOffline ls now d) (memoryDevices st))) as Hswept.
  { apply Forall_forall. intros d [Hgo _]%list_elem_of_filter.
    apply Is_true_true in Hgo. destruct (has_id id d) eqn:E; [|done].
    by rewrite (not_silent_not_swept ls now id d) in Hgo. }
  split_and!.
  - unfold getDevice, Supabase.select_single. simpl.
    destruct (useDatabase st).
    + by rewrite (find_swept_table (db_devices st) id now true _ Hswept).
    + rewrite list_find_fmap.
      rewrite (list_find_ext _ (λ d, has_id id d)).
      * destruct (list_find _ (memoryDevices st)) as [[i d]|] eqn:Hfind;
          [|done].
        simpl. apply list_find_Some in Hfind as (_ & Hd & _).
        apply Is_true_true in Hd.
        by rewrite (not_silent_not_swept ls now id d).
      * intros d. simpl.
        destruct (goesOffline ls now d); [|done].
        by rewrite has_id_markOffline.
  - intros i d Hi Hd. simpl. rewrite list_lookup_fmap, Hi. simpl.
    by rewrite (not_silent_not_swept ls now id d).
  - eexists. split; [done|]. unfold silent_about.
    apply Forall_fmap. eapply Forall_impl; [exact Hswept|].
    intros d Hd d' [= <-]. by rewrite has_id_markOffline.
Qed.

(** X2.  A device that has reported within the timeout is not demoted: a sweep
    at most [OFFLINE_TIMEOUT] after its last telemetry message returns the
    same record for it and emits no event about it. *)
Theorem recent_telemetry_is_not_swept st id data t now :
  now - t ≤ OFFLINE_TIMEOUT →
  getDevice (checkOfflineDevices (handleDeviceData st id data t) now) id
    = getDevice (handleDeviceData st id data t) id ∧
  ∃ events,
    ioEmitted (checkOfflineDevices (handleDeviceData st id data t) now)
      = ioEmitted (handleDeviceData st id data t) ++ events ∧
    silent_about id events.
Proof.
  intros Hrecent.
  destruct (sweep_spares (handleDeviceData st id data t) id now)
    as (Hget & _ & Hev); [|done].
  rewrite handleDeviceData_lastSeen, lookup_insert_eq. simpl.
  rewrite (proj2 (Z.ltb_ge _ _)) by done. apply andb_false_r.
Qed.

Lemma recent_telemetry_is_not_swept_witness :
  22000 - 2000 ≤ OFFLINE_TIMEOUT ∧
  getDevice
    (checkOfflineDevices
       (handleDeviceData (initialMemoryState 1000) "device_001" reading 2000)
       22000) "device_001"
    = getDevice
        (handleDeviceData (initialMemoryState 1000) "device_001" reading 2000)
        "device_001" ∧
  ∃ events,
    ioEmitted
      (checkOfflineDevices
         (handleDeviceData (initialMemoryState 1000) "device_001" reading 2000)
         22000)
      = ioEmitted
          (handleDeviceData (initialMemoryState 1000) "device_001" reading
             2000) ++ events ∧
    silent_about "device_001" events.
Proof.
  split; [unfold OFFLINE_TIMEOUT; lia|].
  apply (recent_telemetry_is_not_swept (initialMemoryState 1000) "device_001"
           reading 2000 22000).
  unfold OFFLINE_TIMEOUT; lia.
Defined.

(** X3.  A sweep writes the [status] of records and nothing else: the array
    keeps its length and order, every record keeps all its other
    properties, and [deviceLastSeen], both histories and the MQTT outbox are
    untouched. *)
Theorem sweep_changes_status_only st now :
  let st' := checkOfflineDevices st now in
  length (memoryDevices st') = length (memoryDevices st) ∧
  (∀ i d, memoryDevices st !! i = Some d →
     ∃ d', memoryDevices st' !! i = Some d' ∧
           (∀ k, k ≠ "status" → d' !! k = d !! k) ∧
           (d' = d ∨ get d' "status" = VStr "offline")) ∧
  deviceLastSeen st' = deviceLastSeen st ∧
  memorySensorHistory st' = memorySensorHistory st ∧
  db_history st' = db_history st ∧
  mqttPublished st' = mqttPublished st.
Proof.
  intros st'. subst st'. rewrite checkOfflineDevices_spec. simpl.
  split_and!; try done.
  - by rewrite length_fmap.
  - intros i d Hi. rewrite list_lookup_fmap, Hi. simpl.
    eexists. split; [done|].
    destruct (goesOffline _ now d).
    + split.
      * intros k Hk. unfold markOffline. by rewrite lookup_insert_ne.
      * right. unfold markOffline. by rewrite get_insert.
    + by split; [|left].
Qed.

Lemma sweep_changes_status_only_witness :
  ∃ d d',
    memoryDevices memoryDeviceWatering !! 0%nat = Some d ∧
    memoryDevices (checkOfflineDevices memoryDeviceWatering 30000) !! 0%nat
      = Some d' ∧
    (∀ k, k ≠ "status" → d' !! k = d !! k).
Proof.
  assert (is_Some (memoryDevices memoryDeviceWatering !! 0%nat)) as [d Hd]
    by (by eexists).
  destruct (sweep_changes_status_only memoryDeviceWatering 30000)
    as (_ & H & _).
  destruct (H 0%nat d Hd) as (d' & Hd' & Hk & _).
  exists d, d'. split; [exact Hd|]. split; [exact Hd'|exact Hk].
Defined.

(** X4.  Sweeping twice at the same instant is sweeping once, in either storage
    mode: the second pass selects no record, writes nothing and emits
    nothing. *)
Theorem sweep_is_idempotent st now :
  checkOfflineDevices (checkOfflineDevices st now) now
    = checkOfflineDevices st now.
Proof.
  rewrite (checkOfflineDevices_spec (checkOfflineDevices st now)).
  rewrite checkOfflineDevices_spec. simpl.
  set (ls := deviceLastSeen st). set (l := memoryDevices st).
  assert (filter (λ d, goesOffline ls now d)
            ((λ d, if goesOffline ls now d then markOffline d else d) <$> l)
          = []) as ->.
  { induction l as [|d l IH]; [done|]. simpl.
    rewrite filter_cons_False; [done|].
    fold (swept ls now d). rewrite swept_not_selected. by intros []. }
  simpl. rewrite app_nil_r. f_equal.
  rewrite <- list_fmap_compose. apply list_fmap_ext.
  intros i d _. simpl. fold (swept ls now d).
  fold (swept ls now (swept ls now d)). apply swept_fixpoint.
Qed.

End sweep_more.

(** ** What each handler leaves alone *)

Section periphery.
Implicit Types (st : State) (id : string) (data body updates d : Obj).
Implicit Types (now : Z).

Lemma same_ingest_state_refl st : same_ingest_state st st.
Proof. by repeat split. Qed.

Lemma same_ingest_state_trans st1 st2 st3 :
  same_ingest_state st1 st2 → same_ingest_state st2 st3 →
  same_ingest_state st1 st3.
Proof.
  intros (H1 & H2 & H3 & H4) (G1 & G2 & G3 & G4).
  repeat split; congruence.
Qed.

Lemma updateDevice_ingest_state st id updates now :
  same_ingest_state st (updateDevice st id updates now).1.
Proof.
  destruct (updateDevice_same_periphery st id updates now)
    as (H1 & H2 & H3 & H4 & _). by repeat split.
Qed.

Lemma published_ingest_state st topic payload :
  same_ingest_state st (published st topic payload).
Proof. unfold published. by destruct (mqttConnected st); repeat split. Qed.

Lemma handleDeviceStatus_ingest_state st id data now :
  same_ingest_state st (handleDeviceStatus st id data now).
Proof.
  unfold handleDeviceStatus.
  pose proof (updateDevice_ingest_state st id
                {[ "status" := get data "status" ]} now) as H.
  by destruct (updateDevice st id _ now) as [st1 [device|]].
Qed.

Lemma postPump_ingest_state st id body now :
  same_ingest_state st (postPump st id body now).1.
Proof.
  unfold postPump. destruct (getDevice st id); [|by repeat split].
  fold (published st (commandTopic id)
          {[ "pump" := VBool (str_eq (get body "action") "on") ]}).
  set (st0 := published st _ _).
  pose proof (updateDevice_ingest_state st0 id
                (pumpUpdates (str_eq (get body "action") "on")) now) as H.
  destruct (updateDevice st0 id _ now) as [st1 updated]. simpl in *.
  eapply same_ingest_state_trans; [apply published_ingest_state|exact H].
Qed.

Lemma postMode_ingest_state st id body now :
  same_ingest_state st (postMode st id body now).1.
Proof.
  unfold postMode. destruct (getDevice st id); [|by repeat split].
  fold (published st (commandTopic id) {[ "mode" := get body "mode" ]}).
  set (st0 := published st _ _).
  pose proof (updateDevice_ingest_state st0 id
                {[ "mode" := get body "mode" ]} now) as H.
  destruct (updateDevice st0 id _ now) as [st1 updated]. simpl in *.
  eapply same_ingest_state_trans; [apply published_ingest_state|exact H].
Qed.

Lemma onPumpControl_ingest_state st id action now :
  same_ingest_state st (onPumpControl st id action now).
Proof.
  unfold onPumpControl.
  fold (published st (commandTopic id)
          {[ "pump" := VBool (str_eq action "on") ]}).
  set (st0 := published st _ _).
  pose proof (updateDevice_ingest_state st0 id
                (pumpUpdates (str_eq action "on")) now) as H.
  destruct (updateDevice st0 id _ now) as [st1 [updated|]]; simpl in *;
    (eapply same_ingest_state_trans; [apply published_ingest_state|exact H]).
Qed.

Lemma postDevices_ingest_state st body now :
  same_ingest_state st (postDevices st body now).1.
Proof.
  unfold postDevices, createDevice.
  destruct (_ || _); [by repeat split|].
  destruct (useDatabase st) eqn:Hm; [|by repeat split].
  destruct (Supabase.insert _ _ now) as [[tbl data]|]; by repeat split.
Qed.

Lemma checkOfflineDevices_ingest_state st now :
  same_ingest_state st (checkOfflineDevices st now).
Proof. rewrite checkOfflineDevices_spec. by repeat split. Qed.

Lemma deleteDevices_periphery st id :
  let st' := (deleteDevices st id).1 in
  useDatabase st' = useDatabase st ∧
  deviceLastSeen st' = deviceLastSeen st ∧
  memorySensorHistory st' = memorySensorHistory st ∧
  (db_history st' = db_history st ∨
   useDatabase st = true ∧
   db_history st' = Supabase.delete_cascade (db_history st) id).
Proof.
  unfold deleteDevices, deleteDevice.
  destruct (getDevice st id); [|by split_and!; [..|left]].
  destruct (useDatabase st) eqn:Hm; [by split_and!; [..|right]|].
  destruct (list_find _ _) as [[i d]|]; by split_and!; [..|left].
Qed.

(** An operation that is not a telemetry message leaves [deviceLastSeen]
    and both histories alone. *)
Lemma step_ingest_state st op now :
  telemetryOf op = None → same_ingest_state st (step st (op, now)).
Proof.
  destruct op as [deviceId messageType [data|]| | | | | |]; simpl;
    try discriminate; intros Htel;
    eauto using same_ingest_state_refl, postPump_ingest_state,
      postMode_ingest_state, onPumpControl_ingest_state,
      postDevices_ingest_state, checkOfflineDevices_ingest_state.
  destruct (String.eqb messageType "data"); [done|].
  destruct (String.eqb messageType "status");
    eauto using same_ingest_state_refl, handleDeviceStatus_ingest_state.
Qed.

Lemma step_telemetry st op now id data :
  telemetryOf op = Some (id, data) →
  step st (op, now) = handleDeviceData st id data now.
Proof.
  destruct op as [deviceId messageType [body|]| | | | | |]; simpl;
    try discriminate.
  - destruct (String.eqb messageType "data"); [|done]. by intros [= -> ->].
  - by intros [= -> ->].
Qed.

(** X5.  [deviceLastSeen] is written by telemetry and by nothing else: a
    telemetry message, from a registered device or not, well-formed or not,
    sets the entry of its id to the time of arrival and leaves the other
    entries; every other operation leaves the map as it is.  No entry is
    ever removed.  (The id [__proto__] is left out: assigning to it creates
    no property.) *)
Theorem lastSeen_written_only_by_telemetry st op now :
  (∀ data, telemetryOf op ≠ Some ("__proto__", data)) →
  deviceLastSeen (step st (op, now)) =
    match telemetryOf op with
    | Some (id, _) => <[id := now]> (deviceLastSeen st)
    | None => deviceLastSeen st
    end.
Proof.
  intros _. destruct (telemetryOf op) as [[id data]|] eqn:Htel.
  - rewrite (step_telemetry st op now id data Htel).
    apply handleDeviceData_lastSeen.
  - by destruct (step_ingest_state st op now Htel) as (_ & -> & _).
Qed.

Lemma lastSeen_written_only_by_telemetry_witness :
  (∀ data,
     telemetryOf (HttpData "device_001" reading) ≠ Some ("__proto__", data)) ∧
  deviceLastSeen
    (step (initialMemoryState 1000) (HttpData "device_001" reading, 2000))
    = <["device_001" := 2000]> (deviceLastSeen (initialMemoryState 1000)).
Proof.
  split; [intros data; discriminate|].
  apply (lastSeen_written_only_by_telemetry (initialMemoryState 1000)
           (HttpData "device_001" reading) 2000).
  intros data; discriminate.
Defined.

End periphery.

(** ** The in-memory history *)

Section memory_history.
Implicit Types (st : State) (id : string) (data sample : Obj) (now t : Z).
Implicit Types (h : list Obj).

Lemma pushSample_full h sample :
  length h = 720%nat → pushSample h sample = drop 1 h ++ [sample].
Proof.
  intros Hlen. unfold pushSample. rewrite length_app, Hlen. simpl.
  by destruct h.
Qed.

Lemma pushSample_room h sample :
  (length h < 720)%nat → pushSample h sample = h ++ [sample].
Proof.
  intros Hlen. unfold pushSample. rewrite length_app. simpl.
  by rewrite (proj2 (Z.ltb_ge _ _)) by lia.
Qed.

Lemma pushSample_length h sample :
  (length h ≤ 720)%nat → (length (pushSample h sample) ≤ 720)%nat.
Proof.
  intros Hlen. destruct (decide (length h = 720%nat)) as [E|E].
  - rewrite pushSample_full by done.
    rewrite length_app, length_drop. simpl. lia.
  - rewrite pushSample_room by lia. rewrite length_app. simpl. lia.
Qed.

Lemma pushSample_sublist h sample :
  sublist (pushSample h sample) (h ++ [sample]).
Proof.
  unfold pushSample. destruct (720 <? _); [|done].
  destruct (h ++ [sample]); [done|]. simpl. by apply sublist_cons.
Qed.

Lemma storeSensorHistory_memory st id data now :
  memorySensorHistory (storeSensorHistory st id data now) =
    if useDatabase st then memorySensorHistory st
    else <[id := pushSample (default [] (memorySensorHistory st !! id))
                            (historySample data now)]>
           (memorySensorHistory st).
Proof.
  unfold storeSensorHistory.
  by destruct (useDatabase st); [destruct (Supabase.insert_sample _ _ _ _)|].
Qed.

(** What a telemetry message does to the in-memory histories: a sample is
    pushed onto the history of its device when the device is registered and
    the fallback is in use, and nothing happens otherwise. *)
Lemma handleDeviceData_history st id data now :
  memorySensorHistory (handleDeviceData st id data now) =
    if bool_decide (is_Some (getDevice st id)) && negb (useDatabase st)
    then <[id := pushSample (default [] (memorySensorHistory st !! id))
                            (historySample data now)]>
           (memorySensorHistory st)
    else memorySensorHistory st.
Proof.
  destruct (getDevice st id) as [d|] eqn:Hd;
    [|by rewrite handleDeviceData_missing].
  pose proof (updateDevice_ingest_state
                (set_deviceLastSeen st (<[id := now]> (deviceLastSeen st)))
                id (telemetryUpdates data) now) as (Hmode & _ & Hh & _).
  destruct (useDatabase st) eqn:Hm.
  - rewrite andb_false_r. unfold handleDeviceData.
    destruct (updateDevice _ id _ now) as [st1 [device|]]; simpl in *;
      [|done].
    by rewrite storeSensorHistory_memory, Hmode, Hm.
  - destruct (handleDeviceData_found st id data now d Hd)
      as (st1 & d' & Hupd & -> & _); [congruence|].
    rewrite Hupd in Hh, Hmode. simpl in *.
    by rewrite storeSensorHistory_memory, Hmode, Hm, Hh.
Qed.

Lemma step_history_cases st op now :
  memorySensorHistory (step st (op, now)) = memorySensorHistory st ∨
  ∃ id data,
    memorySensorHistory (step st (op, now)) =
      <[id := pushSample (default [] (memorySensorHistory st !! id))
                         (historySample data now)]>
        (memorySensorHistory st).
Proof.
  destruct (telemetryOf op) as [[id data]|] eqn:Htel.
  - rewrite (step_telemetry st op now id data Htel).
    rewrite handleDeviceData_history.
    destruct (_ && _); [right; by exists id, data|by left].
  - left. by destruct (step_ingest_state st op now Htel) as (_ & _ & -> & _).
Qed.

(** X6.  The in-memory history of a device never exceeds 720 samples, whatever
    the server is sent. *)
Theorem history_stays_bounded st ops :
  historyBounded st → historyBounded (run st ops).
Proof.
  revert st. unfold run.
  induction ops as [|[op now] ops IH]; intros st Hb; [done|].
  cbn [foldl]. apply IH. clear IH. intros id' h.
  destruct (step_history_cases st op now) as [->|(id & data & ->)];
    [apply Hb|].
  rewrite lookup_insert. case_decide as E.
  - intros [= <-]. apply pushSample_length.
    destruct (memorySensorHistory st !! id) as [h0|] eqn:Hh0; simpl.
    + by apply (Hb id h0).
    + lia.
  - apply Hb.
Qed.

Lemma history_stays_bounded_witness :
  historyBounded (initialMemoryState 1000) ∧
  historyBounded (run (initialMemoryState 1000) reportThenSweep).
Proof.
  assert (historyBounded (initialMemoryState 1000)) as H
    by (intros id h Hh; discriminate Hh).
  split; [exact H|].
  exact (history_stays_bounded (initialMemoryState 1000) reportThenSweep H).
Defined.

Lemma pushSample_recent h sample :
  (length h ≤ 720)%nat →
  pushSample h sample
    = drop (length (h ++ [sample]) - 720) (h ++ [sample]).
Proof.
  intros Hlen. destruct (decide (length h = 720%nat)) as [E|E].
  - rewrite pushSample_full by done. rewrite length_app, E. simpl.
    by destruct h.
  - rewrite pushSample_room by lia. rewrite length_app. simpl.
    by replace (length h + 1 - 720)%nat with 0%nat by lia.
Qed.

Lemma drop_recent h sample (rest : list Obj) :
  (length h ≤ 720)%nat →
  drop (length (pushSample h sample ++ rest) - 720)
       (pushSample h sample ++ rest)
  = drop (length (h ++ sample :: rest) - 720) (h ++ sample :: rest).
Proof.
  intros Hlen. destruct (decide (length h = 720%nat)) as [E|E].
  - rewrite pushSample_full by done.
    destruct h as [|x h]; [done|]. simpl in E.
    change (drop 1 (x :: h)) with h. rewrite <- app_assoc.
    change ((x :: h) ++ sample :: rest) with (x :: (h ++ sample :: rest)).
    change ([sample] ++ rest) with (sample :: rest).
    replace (length (x :: h ++ sample :: rest) - 720)%nat
      with (S (length (h ++ sample :: rest) - 720))%nat; [done|].
    simpl. rewrite length_app. simpl. lia.
  - rewrite pushSample_room by lia. by rewrite <- app_assoc.
Qed.

(** X7.  The in-memory history of a device holds the 720 most recent
    samples stored for it: after any number of samples, what is kept is
    what was there followed by the new samples, without the oldest
    entries beyond 720.  (An id that names a property inherited from
    [Object.prototype] is excluded: for it [memorySensorHistory[id]] is
    never initialised.) *)
Theorem history_keeps_most_recent st id (readings : list (Obj * Z)) h :
  id ∉ objectPrototypeKeys →
  useDatabase st = false →
  default [] (memorySensorHistory st !! id) = h →
  (length h ≤ 720)%nat →
  default []
    (memorySensorHistory
       (foldl (λ s r, storeSensorHistory s id r.1 r.2) st readings) !! id)
  = drop (length (h ++ ((λ r, historySample r.1 r.2) <$> readings)) - 720)
         (h ++ ((λ r, historySample r.1 r.2) <$> readings)).
Proof.
  intros _. revert st h.
  induction readings as [|[data now] readings IH]; intros st h Hm Hh Hlen.
  - simpl. rewrite Hh, app_nil_r.
    by replace (length h - 720)%nat with 0%nat by lia.
  - cbn [foldl fmap list_fmap fst snd].
    rewrite (IH (storeSensorHistory st id data now)
               (pushSample h (historySample data now))).
    + by apply drop_recent.
    + by destruct (storeSensorHistory_devices st id data now) as (-> & _).
    + rewrite storeSensorHistory_memory, Hm, lookup_insert_eq. simpl.
      by rewrite Hh.
    + by apply pushSample_length.
Qed.

Lemma history_keeps_most_recent_witness :
  ("device_001" ∉ objectPrototypeKeys) ∧
  useDatabase (initialMemoryState 1000) = false ∧
  default []
    (memorySensorHistory
       (foldl (λ s r, storeSensorHistory s "device_001" r.1 r.2)
          (initialMemoryState 1000)
          [(reading, 2000); (wateringReading, 3000)]) !! "device_001")
  = [historySample reading 2000; historySample wateringReading 3000].
Proof.
  assert ("device_001" ∉ objectPrototypeKeys) as Hkey
    by (apply (bool_decide_unpack _); exact I).
  split; [exact Hkey|]. split; [reflexivity|].
  exact (history_keeps_most_recent (initialMemoryState 1000) "device_001"
           [(reading, 2000); (wateringReading, 3000)] [] Hkey eq_refl eq_refl
           ltac:(simpl; lia)).
Defined.

Lemma StronglySorted_sublist {A} (R : relation A) (k l : list A) :
  sublist k l → StronglySorted R l → StronglySorted R k.
Proof.
  induction 1 as [|x k l Hkl IH|x k l Hkl IH]; [done|..];
    rewrite !StronglySorted_cons.
  - intros [Hx Hl]. split; [|by apply IH].
    eapply Forall_impl; [|done].
    apply Forall_forall. intros y Hy.
    eapply Forall_forall; [exact Hx|]. by eapply sublist_subseteq.
  - intros [_ Hl]. by apply IH.
Qed.

Lemma timestamps_app h1 h2 :
  timestamps (h1 ++ h2) = timestamps h1 ++ timestamps h2.
Proof. unfold timestamps. apply fmap_app. Qed.

Lemma timestamps_sublist h1 h2 :
  sublist h1 h2 → sublist (timestamps h1) (timestamps h2).
Proof. unfold timestamps. apply fmap_sublist. Qed.

Lemma pushSample_chronological h data now t :
  t ≤ now →
  StronglySorted Z.le (timestamps h) → Forall (λ ts, ts ≤ t) (timestamps h) →
  StronglySorted Z.le (timestamps (pushSample h (historySample data now))) ∧
  Forall (λ ts, ts ≤ now) (timestamps (pushSample h (historySample data now))).
Proof.
  intros Hle Hs Hb.
  assert (timestamps (h ++ [historySample data now])
          = timestamps h ++ [now]) as Happ by by rewrite timestamps_app.
  assert (Forall (λ ts, ts ≤ now) (timestamps h ++ [now])) as Hb'.
  { apply Forall_app. split.
    - eapply Forall_impl; [exact Hb|]. simpl. lia.
    - by apply Forall_singleton. }
  assert (StronglySorted Z.le (timestamps h ++ [now])) as Hs'.
  { apply StronglySorted_app_2; [|done|repeat constructor].
    intros x1 x2 Hx1 ->%list_elem_of_singleton.
    eapply Forall_forall in Hb; [|exact Hx1]. simpl in Hb. lia. }
  pose proof (timestamps_sublist _ _ (pushSample_sublist h
                (historySample data now))) as Hsub.
  rewrite Happ in Hsub. split.
  - eauto using StronglySorted_sublist.
  - apply Forall_forall. intros ts Hts.
    apply (proj1 (Forall_forall _ _) Hb').
    by eapply sublist_subseteq.
Qed.

Lemma historyChronological_mono t t' st :
  t ≤ t' → historyChronological t st → historyChronological t' st.
Proof.
  intros Hle Hc id h Hh. destruct (Hc id h Hh) as [Hs Hb].
  split; [done|]. eapply Forall_impl; [exact Hb|]. simpl. lia.
Qed.

Lemma step_chronological t st op now :
  t ≤ now → historyChronological t st →
  historyChronological now (step st (op, now)).
Proof.
  intros Hle Hc.
  destruct (step_history_cases st op now) as [E|(id & data & E)];
    intros id' h; rewrite E.
  - intros Hh. by apply (historyChronological_mono t now st Hle Hc id' h).
  - rewrite lookup_insert. case_decide as Hid.
    + intros [= <-]. apply (pushSample_chronological _ _ _ t); [done|..];
        destruct (memorySensorHistory st !! id) as [h0|] eqn:Hh0; simpl;
        try by constructor.
      * by destruct (Hc id h0 Hh0).
      * by destruct (Hc id h0 Hh0).
    + intros Hh. by apply (historyChronological_mono t now st Hle Hc id' h).
Qed.

Lemma run_chronological t st ops :
  monotone t ops → historyChronological t st →
  ∃ t', historyChronological t' (run st ops).
Proof.
  revert t st. unfold run.
  induction ops as [|[op now] ops IH]; intros t st Hmono Hc; [by exists t|].
  destruct Hmono as [Hle Hmono]. cbn [foldl].
  eauto using step_chronological.
Qed.

(** X8.  With the in-memory history, a query with a positive limit and bounds
    on both sides returns at most [limit] samples, all of them inside the
    bounds, in the order in which they were stored. *)
Theorem memory_history_query_respects_limit st id limit s e :
  id ∉ objectPrototypeKeys →
  useDatabase st = false →
  0 < limit →
  Z.of_nat (length (getSensorHistory st id limit (GoodDate s) (GoodDate e)))
    ≤ limit ∧
  (∀ sample ts,
     sample ∈ getSensorHistory st id limit (GoodDate s) (GoodDate e) →
     getTime (get sample "timestamp") = Some ts → s ≤ ts ≤ e) ∧
  sublist (getSensorHistory st id limit (GoodDate s) (GoodDate e))
          (default [] (memorySensorHistory st !! id)).
Proof.
  intros _ Hm Hpos.
  exact (getSensorHistory_memory_positive_limit st id limit s e Hm Hpos).
Qed.

Lemma memory_history_query_respects_limit_witness :
  ("device_001" ∉ objectPrototypeKeys) ∧
  useDatabase twoSamples = false ∧
  0 < 1 ∧
  Z.of_nat
    (length (getSensorHistory twoSamples "device_001" 1 (GoodDate 0)
               (GoodDate 5000))) ≤ 1.
Proof.
  assert ("device_001" ∉ objectPrototypeKeys) as Hkey
    by (apply (bool_decide_unpack _); exact I).
  split; [exact Hkey|]. split; [reflexivity|]. split; [lia|].
  exact (proj1 (memory_history_query_respects_limit twoSamples "device_001" 1
                  0 5000 Hkey eq_refl eq_refl)).
Defined.

(** X9.  With the in-memory history and no date bounds, for a device id
    that is not a property name inherited from [Object.prototype], a
    negative limit [-n] does not cap anything: [slice(n)] drops the [n]
    oldest samples and returns all the others. *)
Theorem memory_history_query_negative_limit st id (n : nat) :
  id ∉ objectPrototypeKeys →
  useDatabase st = false →
  getSensorHistory st id (- Z.of_nat n) NoDate NoDate
    = drop n (default [] (memorySensorHistory st !! id)).
Proof.
  intros _ Hm. unfold getSensorHistory. rewrite Hm. simpl.
  unfold slice_from. rewrite Z.opp_involutive.
  rewrite (proj2 (Z.ltb_ge _ _)) by lia.
  set (l := default [] _).
  destruct (decide (n ≤ length l)%nat).
  - by rewrite Z.min_l, Nat2Z.id by lia.
  - rewrite Z.min_r, Nat2Z.id by lia. by rewrite !drop_ge by lia.
Qed.

Lemma memory_history_query_negative_limit_witness :
  ("device_001" ∉ objectPrototypeKeys) ∧
  useDatabase twoSamples = false ∧
  getSensorHistory twoSamples "device_001" (- Z.of_nat 1) NoDate NoDate
    = drop 1 (default [] (memorySensorHistory twoSamples !! "device_001")).
Proof.
  assert ("device_001" ∉ objectPrototypeKeys) as Hkey
    by (apply (bool_decide_unpack _); exact I).
  split; [exact Hkey|]. split; [reflexivity|].
  exact (memory_history_query_negative_limit twoSamples "device_001" 1 Hkey
           eq_refl).
Defined.

(** X10.  As long as the clock does not go backwards, the in-memory fallback
    answers every history query for a device id that is not a property
    name inherited from [Object.prototype] in chronological order,
    whatever the limit and the bounds of the query. *)
Theorem memory_history_query_is_chronological boot ops id limit
    startDate endDate :
  id ∉ objectPrototypeKeys →
  monotone boot ops →
  StronglySorted Z.le
    (timestamps (getSensorHistory (run (initialMemoryState boot) ops)
                   id limit startDate endDate)).
Proof.
  intros _ Hmono.
  destruct (run_chronological boot (initialMemoryState boot) ops Hmono)
    as [t' Hc]; [by intros ? ? ?|].
  assert (useDatabase (run (initialMemoryState boot) ops) = false) as Hm.
  { by destruct (run_inv boot _ ops (initial_inv boot)) as [-> _]. }
  unfold getSensorHistory. rewrite Hm.
  set (stored := default [] _).
  assert (StronglySorted Z.le (timestamps stored)) as Hs.
  { unfold stored.
    destruct (memorySensorHistory _ !! id) as [h|] eqn:Hh; simpl.
    - apply (Hc id h Hh).
    - constructor. }
  eapply StronglySorted_sublist; [|exact Hs].
  apply timestamps_sublist. unfold slice_from.
  etrans; [apply sublist_drop|].
  destruct (_ || _); [apply sublist_filter|done].
Qed.

Lemma memory_history_query_is_chronological_witness :
  ("device_001" ∉ objectPrototypeKeys) ∧
  monotone 1000 reportThenSweep ∧
  StronglySorted Z.le
    (timestamps
       (getSensorHistory (run (initialMemoryState 1000) reportThenSweep)
          "device_001" 100 NoDate NoDate)).
Proof.
  assert ("device_001" ∉ objectPrototypeKeys) as Hkey
    by (apply (bool_decide_unpack _); exact I).
  assert (monotone 1000 reportThenSweep) as Hmono by (simpl; lia).
  split; [exact Hkey|]. split; [exact Hmono|].
  exact (memory_history_query_is_chronological 1000 reportThenSweep
           "device_001" 100 NoDate NoDate Hkey Hmono).
Defined.

End memory_history.

(** ** Status messages *)

Section status_messages.
Implicit Types (st : State) (id : string) (data d : Obj) (now t : Z).

Lemma handleDeviceStatus_known st id data now d :
  getDevice st id = Some d →
  ∃ d',
    getDevice (handleDeviceStatus st id data now) id = Some d' ∧
    ioEmitted (handleDeviceStatus st id data now)
      = ioEmitted st ++ [("deviceUpdate", Some d')] ∧
    (get data "status" ≠ VUndef →
     (useDatabase st = true → textual (get data "status")) →
     get d' "status" = get data "status") ∧
    (∀ k, k ≠ "status" → k ≠ "lastUpdate" → get d' k = get d k) ∧
    get d' "lastUpdate" = VDate now ∧
    (useDatabase st = false →
     d' = merged d {[ "status" := get data "status" ]} now).
Proof.
  intros Hd. unfold handleDeviceStatus.
  destruct (updateDevice_found st id {[ "status" := get data "status" ]}
              now d Hd)
    as (st1 & d' & i & Hupd & Hper & _ & _ & _ & Hlast & Hframe & Hset
        & Hmem & Hget).
  { intros _. apply storable_typed, text_patch_storable. by left. }
  destruct Hper as (_ & _ & _ & _ & _ & _ & Hio).
  rewrite Hupd. exists d'. split_and!; try done.
  - rewrite <- Hget by done. by apply getDevice_ext.
  - simpl. by rewrite Hio.
  - intros Hdef Htext. rewrite Hset; [|done| |]; unfold get at 1;
      rewrite ?lookup_singleton_eq; try done.
    intros Hm. rewrite (proj1 (written_text _)).
    by apply keeps_textual; auto.
  - intros k Hk Hl. apply Hframe; [|congruence].
    by rewrite lookup_singleton_ne.
Qed.

(** X11.  A status message for a registered device sets its status to the value
    reported (a string or [null], with the database) and emits one
    [deviceUpdate] event; the other properties of the record stay, apart
    from [lastUpdate].  It is not recorded as a sign
    of life: [deviceLastSeen] and the histories are left as they are.  For
    an unknown device the state does not change at all. *)
Theorem status_message_sets_status_only st id data now :
  let st' := handleDeviceStatus st id data now in
  same_ingest_state st st' ∧
  match getDevice st id with
  | None => st' = st
  | Some d =>
      ∃ d',
        getDevice st' id = Some d' ∧
        ioEmitted st' = ioEmitted st ++ [("deviceUpdate", Some d')] ∧
        (get data "status" ≠ VUndef →
         (useDatabase st = true → textual (get data "status")) →
         get d' "status" = get data "status") ∧
        (∀ k, k ≠ "status" → k ≠ "lastUpdate" → get d' k = get d k)
  end.
Proof.
  intros st'. subst st'. split; [apply handleDeviceStatus_ingest_state|].
  destruct (getDevice st id) as [d|] eqn:Hd.
  - destruct (handleDeviceStatus_known st id data now d Hd)
      as (d' & Hget & Hio & Hset & Hframe & _).
    exists d'. by split_and!.
  - unfold handleDeviceStatus. by rewrite updateDevice_missing.
Qed.

Lemma status_message_sets_status_only_witness :
  ∃ d',
    getDevice
      (handleDeviceStatus (initialMemoryState 1000) "device_001"
         {[ "status" := VStr "rebooting" ]} 2000) "device_001" = Some d' ∧
    get d' "status" = VStr "rebooting" ∧
    get d' "name" = get (seedDevice 1000) "name".
Proof.
  pose proof (proj2 (status_message_sets_status_only
                      (initialMemoryState 1000) "device_001"
                      {[ "status" := VStr "rebooting" ]} 2000)) as H.
  change (getDevice (initialMemoryState 1000) "device_001")
    with (Some (seedDevice 1000)) in H.
  destruct H as (d' & Hget & _ & Hset & Hframe).
  exists d'. split; [exact Hget|]. split.
  - apply Hset; discriminate.
  - apply Hframe; discriminate.
Defined.

(** X12.  With the in-memory registry, a device whose last telemetry is older
    than the timeout is demoted by the next sweep even if it has just sent
    a status message saying it is up: only telemetry counts as a sign of
    life. *)
Theorem status_message_is_no_sign_of_life st id data t now0 now d :
  useDatabase st = false →
  getDevice st id = Some d →
  deviceLastSeen st !! id = Some t →
  t ≠ 0 →
  OFFLINE_TIMEOUT < now - t →
  get data "status" ≠ VStr "offline" →
  ∃ d',
    getDevice (checkOfflineDevices (handleDeviceStatus st id data now0) now) id
      = Some d' ∧
    get d' "status" = VStr "offline".
Proof.
  intros Hm Hd Hls Ht Hold Hstatus.
  destruct (handleDeviceStatus_known st id data now0 d Hd)
    as (d1 & Hget & _ & _ & _ & _ & Hmem).
  destruct (handleDeviceStatus_ingest_state st id data now0)
    as (Hm' & Hls' & _).
  rewrite getDevice_sweep_memory, Hget by congruence. simpl.
  assert (get d "id" = VStr id) as Hid.
  { unfold getDevice in Hd. rewrite Hm in Hd.
    apply fmap_Some in Hd as ([i d0] & Hfind & ->).
    apply list_find_Some in Hfind as (_ & Hid & _).
    by apply has_id_true, Is_true_true. }
  assert (goesOffline (deviceLastSeen (handleDeviceStatus st id data now0))
            now d1 = true) as Hgo.
  { apply goesOffline_iff. exists t. rewrite Hls', (Hmem Hm).
    unfold lastSeenOf. rewrite !get_merged, lookup_singleton_eq.
    rewrite !decide_False by done. rewrite lookup_singleton_ne by done.
    by rewrite Hid. }
  eexists. split; [done|]. unfold swept. rewrite Hgo.
  unfold markOffline. by rewrite get_insert.
Qed.

Lemma status_message_is_no_sign_of_life_witness :
  ∃ d',
    getDevice
      (checkOfflineDevices
         (handleDeviceStatus
            (handleDeviceData (initialMemoryState 1000) "device_001" reading
               2000)
            "device_001" {[ "status" := VStr "online" ]} 29000)
         30000) "device_001" = Some d' ∧
    get d' "status" = VStr "offline".
Proof.
  eapply (status_message_is_no_sign_of_life
            (handleDeviceData (initialMemoryState 1000) "device_001" reading
               2000)
            "device_001" {[ "status" := VStr "online" ]} 2000 29000 30000).
  - reflexivity.
  - reflexivity.
  - reflexivity.
  - lia.
  - unfold OFFLINE_TIMEOUT; lia.
  - discriminate.
Defined.

End status_messages.

(** ** Status and pump flag *)

Section status_and_pump.
Implicit Types (st : State) (id : string) (d data row : Obj) (now : Z).
Implicit Types (tbl : list Obj).

(** Marking a device offline in the table writes [status] and
    [last_update] and no other column, whichever row is looked up. *)
Lemma find_markOfflineInDB_row tbl id d now i row :
  list_find (λ r, has_id id r) tbl = Some (i, row) →
  ∃ row',
    list_find (λ r, has_id id r) (markOfflineInDB tbl d now) = Some (i, row') ∧
    (get row' "status" = get row "status" ∨
     get row' "status" = VStr "offline") ∧
    ∀ c, c ≠ "status" → c ≠ "last_update" → get row' c = get row c.
Proof.
  intros Hfind. rewrite markOfflineInDB_patch.
  destruct (get d "id") as [| | | |id'|]; try (exists row; split_and!; by auto).
  rewrite find_patch, Hfind by done. simpl.
  destruct (has_id id' row); [|exists row; split_and!; by auto].
  eexists. split; [done|]. split; [right; by rewrite get_assign|]. intros c Hs Hl.
  rewrite get_assign, lookup_insert_ne, lookup_singleton_ne by done. done.
Qed.

Lemma find_swept_table_row tbl id now (useDb : bool) (sel : list Obj) i row :
  list_find (λ r, has_id id r) tbl = Some (i, row) →
  ∃ row',
    list_find (λ r, has_id id r)
      (foldl (λ t d, if useDb then markOfflineInDB t (markOffline d) now else t)
             tbl sel) = Some (i, row') ∧
    (get row' "status" = get row "status" ∨
     get row' "status" = VStr "offline") ∧
    ∀ c, c ≠ "status" → c ≠ "last_update" → get row' c = get row c.
Proof.
  revert tbl row. induction sel as [|d sel IH]; intros tbl row Hfind.
  - exists row. split_and!; by auto.
  - simpl. destruct useDb.
    + destruct (find_markOfflineInDB_row tbl id (markOffline d) now i row Hfind)
        as (row1 & Hfind1 & Hst1 & Hrow1).
      destruct (IH _ _ Hfind1) as (row' & Hfind' & Hst' & Hrow').
      exists row'. split; [done|]. split.
      * destruct Hst' as [->| ->]; auto.
      * intros c Hs Hl. by rewrite Hrow', Hrow1.
    + by apply IH.
Qed.

(** A sweep changes the status of a record, and with the database its
    [lastUpdate]; every other field, [pumpActive] among them, is left as
    it was. *)
Lemma sweep_keeps_fields st id now d :
  getDevice st id = Some d →
  ∃ d',
    getDevice (checkOfflineDevices st now) id = Some d' ∧
    (get d' "status" = get d "status" ∨ get d' "status" = VStr "offline") ∧
    ∀ k, k ≠ "status" → k ≠ "lastUpdate" → get d' k = get d k.
Proof.
  destruct (useDatabase st) eqn:Hm.
  - rewrite checkOfflineDevices_spec.
    unfold getDevice, Supabase.select_single. simpl. rewrite Hm.
    intros (row & ([i row0] & Hfind & ->)%fmap_Some & ->)%fmap_Some.
    simpl.
    destruct (find_swept_table_row (db_devices st) id now true
                (filter (λ d, goesOffline (deviceLastSeen st) now d)
                        (memoryDevices st)) i row0 Hfind)
      as (row' & -> & Hst' & Hrow').
    simpl. eexists. split; [done|]. split.
    + exact Hst'.
    + intros k Hs Hl. rewrite !get_mapDeviceFromDB. unfold columns.
      rewrite !lookup_insert, lookup_singleton.
      repeat (case_decide; [subst k; simpl; try done; by apply Hrow'|]).
      done.
  - intros Hd. rewrite getDevice_sweep_memory, Hd by done. simpl.
    eexists. split; [done|]. unfold swept.
    destruct (goesOffline _ now d).
    + split; [right; unfold markOffline; by rewrite get_insert|].
      intros k Hs Hl. unfold markOffline.
      by rewrite get_insert, decide_False by done.
    + by split; [left|].
Qed.

(** C3 (as amended).  For a registered device, after a telemetry message
    (any payload with the in-memory registry; with the database a payload
    that the [devices] table takes and whose flag is a boolean or absent)
    and after a pump command, by HTTP or by Socket.io, the status is
    [watering] exactly when [pumpActive] is set; a mode command changes
    neither field.  A status message and a liveness sweep leave
    [pumpActive] as it was and set the status alone: the message to the
    status it reports (a string or [null], with the database), the sweep
    to [offline] if to anything. *)
Theorem C3_status_follows_pump st id d now :
  getDevice st id = Some d →
  (∀ data,
     useDatabase st = false ∨
     (storable (telemetryUpdates data) ∧
      is_flag (get data "pumpActive") = true) →
     ∃ d', getDevice (handleDeviceData st id data now) id = Some d' ∧
           status_matches_pump d') ∧
  (∀ body,
     ∃ d', getDevice (fst (postPump st id body now)) id = Some d' ∧
           status_matches_pump d') ∧
  (∀ action,
     ∃ d', getDevice (onPumpControl st id action now) id = Some d' ∧
           status_matches_pump d') ∧
  (∀ body,
     ∃ d', getDevice (fst (postMode st id body now)) id = Some d' ∧
           get d' "status" = get d "status" ∧
           get d' "pumpActive" = get d "pumpActive") ∧
  (∀ data,
     ∃ d', getDevice (handleDeviceStatus st id data now) id = Some d' ∧
           (get data "status" ≠ VUndef →
            (useDatabase st = true → textual (get data "status")) →
            get d' "status" = get data "status") ∧
           get d' "pumpActive" = get d "pumpActive") ∧
  (∃ d', getDevice (checkOfflineDevices st now) id = Some d' ∧
         (get d' "status" = get d "status" ∨
          get d' "status" = VStr "offline") ∧
         get d' "pumpActive" = get d "pumpActive").
Proof.
  intros Hd. split_and!.
  - intros data Hdata.
    destruct (handleDeviceData_found st id data now d Hd)
      as (st1 & d' & _ & _ & _ & Hget & _ & _ & Hstatus & Hpump & _).
    { intros Hm. destruct Hdata as [Hmem|[Hst _]]; [congruence|].
      by apply storable_typed. }
    exists d'. split; [done|]. unfold status_matches_pump.
    rewrite Hstatus, Hpump by (destruct Hdata as [?|[_ ?]]; auto).
    unfold statusOfPump, js_or.
    by destruct (truthy (get data "pumpActive")) eqn:E; rewrite ?E.
  - intros body.
    destruct (postPump_known st id body now d Hd)
      as (d' & Hget & _ & _ & Hset & _).
    exists d'. eauto using pump_set_matches.
  - intros action.
    destruct (onPumpControl_known st id action now d Hd)
      as (d' & Hget & _ & Hset & _).
    exists d'. eauto using pump_set_matches.
  - intros body.
    destruct (postMode_known st id body now d Hd)
      as (d' & Hget & _ & _ & _ & Hframe).
    exists d'. split_and!; [done|by apply Hframe..].
  - intros data.
    destruct (handleDeviceStatus_known st id data now d Hd)
      as (d' & Hget & _ & Hset & Hframe & _).
    exists d'. split_and!; [done|done|by apply Hframe].
  - destruct (sweep_keeps_fields st id now d Hd)
      as (d' & Hget & Hstatus & Hframe).
    exists d'. split_and!; [done|done|by apply Hframe].
Qed.

Lemma C3_status_follows_pump_witness :
  let st := initialDatabaseState 1000 in
  let id := "device_001" in
  let d := mapDeviceFromDB (seedRow 1000) in
  getDevice st id = Some d ∧
  (∀ data,
     useDatabase st = false ∨
     (storable (telemetryUpdates data) ∧
      is_flag (get data "pumpActive") = true) →
     ∃ d', getDevice (handleDeviceData st id data 2000) id = Some d' ∧
           status_matches_pump d') ∧
  (∀ body,
     ∃ d', getDevice (fst (postPump st id body 2000)) id = Some d' ∧
           status_matches_pump d') ∧
  (∀ action,
     ∃ d', getDevice (onPumpControl st id action 2000) id = Some d' ∧
           status_matches_pump d') ∧
  (∀ body,
     ∃ d', getDevice (fst (postMode st id body 2000)) id = Some d' ∧
           get d' "status" = get d "status" ∧
           get d' "pumpActive" = get d "pumpActive") ∧
  (∀ data,
     ∃ d', getDevice (handleDeviceStatus st id data 2000) id = Some d' ∧
           (get data "status" ≠ VUndef →
            (useDatabase st = true → textual (get data "status")) →
            get d' "status" = get data "status") ∧
           get d' "pumpActive" = get d "pumpActive") ∧
  (∃ d', getDevice (checkOfflineDevices st 2000) id = Some d' ∧
         (get d' "status" = get d "status" ∨
          get d' "status" = VStr "offline") ∧
         get d' "pumpActive" = get d "pumpActive").
Proof.
  intros st id d. split; [reflexivity|].
  apply (C3_status_follows_pump st id d 2000). reflexivity.
Defined.

(** C3, counterexample.  The seeded device reports with its pump running
    and then falls silent: after the sweep its status is [offline] while
    [pumpActive] is still [true].  And a status message that says
    [watering] sets that status on a record whose pump flag is not set. *)
Lemma C3_sweep_and_status_message_break_the_equivalence :
  (∃ d, getDevice (checkOfflineDevices memoryDeviceWatering 30000)
                  "device_001" = Some d ∧
        get d "status" = VStr "offline" ∧
        get d "pumpActive" = VBool true ∧
        ¬ status_matches_pump d) ∧
  (∃ d, getDevice (handleDeviceStatus (initialMemoryState 1000) "device_001"
                     {[ "status" := VStr "watering" ]} 2000)
                  "device_001" = Some d ∧
        get d "status" = VStr "watering" ∧
        get d "pumpActive" = VUndef ∧
        ¬ status_matches_pump d).
Proof.
  split.
  - exists (markOffline
              (merged (seedDevice 1000) (telemetryUpdates wateringReading) 2000)).
    split_and!; try reflexivity.
    intros [_ H]. discriminate H. reflexivity.
  - exists (merged (seedDevice 1000) {[ "status" := VStr "watering" ]} 2000).
    split_and!; try reflexivity.
    intros [H _]. discriminate H. reflexivity.
Qed.

End status_and_pump.

(** ** The database format and device creation *)

Section creation_more.
Implicit Types (st : State) (id k c : string) (device body row d : Obj).
Implicit Types (now : Z) (v : Value).

Lemma inb_other k (l : list string) : Forall (λ x, k ≠ x) l → inb k l = false.
Proof.
  intros H. apply bool_decide_eq_false_2. intros Hin.
  by eapply Forall_forall in H.
Qed.

Lemma get_round_trip device k :
  get (mapDeviceFromDB (mapDeviceToDB device)) k = roundTripField device k.
Proof.
  rewrite get_mapDeviceFromDB. unfold columns, roundTripField, dbDefaults.
  rewrite !lookup_insert, !lookup_singleton.
  repeat
    match goal with
    | |- from_option _ _ (if decide (?a = k) then _ else _) = _ =>
        destruct (decide (a = k)) as [<-|?]; [reflexivity|]
    end.
  cbn [from_option]. rewrite inb_other; [done|].
  repeat constructor; congruence.
Qed.

(** A device whose defaulted fields are truthy, or already equal to their
    default, survives the round trip on all eleven columns. *)
Lemma round_trip_identity device k :
  (∀ dflt, dbDefaults !! k = Some dflt →
           truthy (get device k) = true ∨ get device k = dflt) →
  k ∈ ["id"; "name"; "ip"] ∨ is_Some (dbDefaults !! k) →
  get (mapDeviceFromDB (mapDeviceToDB device)) k = get device k.
Proof.
  intros Hok Hk. rewrite get_round_trip. unfold roundTripField.
  destruct (dbDefaults !! k) as [dflt|] eqn:E.
  - unfold js_or. destruct (Hok dflt eq_refl) as [->|Heq]; [done|].
    by destruct (truthy (get device k)).
  - destruct Hk as [Hk|[? ?]]; [|done].
    unfold inb. by rewrite bool_decide_eq_true_2.
Qed.

Lemma get_inserted_row row now c :
  insertDefaults now !! c = None →
  get (json_strip row ∪ insertDefaults now) c = get row c.
Proof.
  intros Hc. unfold get. rewrite lookup_union, json_strip_lookup, Hc.
  destruct (row !! c) as [v|]; simpl; [|done].
  unfold defined. by case_decide.
Qed.

Lemma get_inserted_last_update row now :
  get row "last_update" = VUndef →
  get (json_strip row ∪ insertDefaults now) "last_update" = VDate now.
Proof.
  unfold get. rewrite lookup_union, json_strip_lookup.
  destruct (row !! "last_update") as [v|]; simpl; [|done].
  intros ->. done.
Qed.

(** What a client reads of a row just inserted from [mapDeviceToDB]. *)
Lemma get_inserted_device device now k :
  get (mapDeviceFromDB
         (json_strip (mapDeviceToDB device) ∪ insertDefaults now)) k =
    if decide ("lastUpdate" = k) then VDate now
    else roundTripField device k.
Proof.
  rewrite <- get_round_trip, !get_mapDeviceFromDB. unfold columns.
  rewrite !lookup_insert, lookup_singleton.
  repeat
    match goal with
    | |- from_option _ _ (if decide (?a = k) then _ else _) = _ =>
        destruct (decide (a = k)) as [<-|?];
        [cbn [from_option];
         first [ by rewrite get_inserted_row
               | by rewrite get_inserted_last_update ]|]
    end.
  done.
Qed.

Lemma js_or_idem a b : js_or (js_or a b) b = js_or a b.
Proof.
  unfold js_or. destruct (truthy a) eqn:Ea; [by rewrite Ea|].
  by destruct (truthy b).
Qed.

(** X13.  Through [mapDeviceToDB] and back through [mapDeviceFromDB], [id],
    [name] and [ip] come back as they were, each of the eight defaulted
    fields comes back as [field || default], and every other property of
    the device, [lastUpdate] included, is lost.  A second round trip
    changes nothing more. *)
Theorem toDB_fromDB_round_trip device k :
  let stored := mapDeviceFromDB (mapDeviceToDB device) in
  get stored k = roundTripField device k ∧
  get (mapDeviceFromDB (mapDeviceToDB stored)) k = get stored k.
Proof.
  intros stored. subst stored. split; [apply get_round_trip|].
  rewrite (get_round_trip (mapDeviceFromDB (mapDeviceToDB device)) k).
  unfold roundTripField at 1.
  destruct (dbDefaults !! k) as [dflt|] eqn:E.
  - rewrite get_round_trip. unfold roundTripField. rewrite E.
    apply js_or_idem.
  - destruct (inb k _) eqn:Hin; rewrite get_round_trip;
      unfold roundTripField; by rewrite E, Hin.
Qed.

(** The record that the create route builds is one that the database
    format keeps whole. *)
Lemma newDevice_round_trip body now k :
  roundTripField (newDevice body now) k = get (newDevice body now) k.
Proof.
  device_key_cases k; try reflexivity.
  - exact (js_or_idem (get body "zone") (VStr "garden")).
  - exact (js_or_idem _ (VStr "🌳 สวน")).
  - unfold roundTripField, dbDefaults, newDevice, get.
    rewrite !lookup_insert_ne, !lookup_singleton_ne by done.
    by rewrite inb_other by (repeat constructor; congruence).
Qed.

Lemma find_appended (l : list Obj) id (x : Obj) :
  list_find (λ d, has_id id d) l = None → has_id id x = true →
  list_find (λ d, has_id id d) (l ++ [x]) = Some (length l, x).
Proof.
  intros Hnone Hx. rewrite list_find_app_r by done. simpl.
  rewrite decide_True by by rewrite Hx. done.
Qed.

Lemma mapDeviceToDB_lookup device c :
  mapDeviceToDB device !! c =
    if decide ("id" = c) then Some (get device "id")
    else if decide ("name" = c) then Some (get device "name")
    else if decide ("zone" = c) then
      Some (js_or (get device "zone") (VStr "garden"))
    else if decide ("zone_label" = c) then
      Some (js_or (get device "zoneLabel") (VStr "🌳 สวน"))
    else if decide ("ip" = c) then Some (get device "ip")
    else if decide ("status" = c) then
      Some (js_or (get device "status") (VStr "offline"))
    else if decide ("temperature" = c) then
      Some (js_or (get device "temperature") (VNum 0%Q))
    else if decide ("humidity" = c) then
      Some (js_or (get device "humidity") (VNum 0%Q))
    else if decide ("soil_moisture" = c) then
      Some (js_or (get device "soilMoisture") (VNum 0%Q))
    else if decide ("pump_active" = c) then
      Some (js_or (get device "pumpActive") (VBool false))
    else if decide ("mode" = c) then
      Some (js_or (get device "mode") (VStr "auto"))
    else None.
Proof.
  unfold mapDeviceToDB. rewrite !lookup_insert, lookup_singleton.
  by repeat case_decide.
Qed.

Lemma integral_kept v : integral v → keeps Supabase.INTEGER v.
Proof.
  intros (n & -> & Hlo & Hhi). unfold keeps. simpl.
  unfold Supabase.integerColumn, Supabase.isInteger, Supabase.wholeOf. simpl.
  rewrite Z.mod_1_r, Z.div_1_r. simpl.
  rewrite (proj2 (Z.leb_le _ _)) by (simpl in *; lia).
  by rewrite (proj2 (Z.ltb_lt _ _)) by (simpl in *; lia).
Qed.

(** A field written as [field || default] is kept when the field is
    falsy or kept, and the default is kept. *)
Lemma defaulted_kept (P : Value → Prop) ty v dflt :
  defaulted P v → (∀ w, P w → keeps ty w) → keeps ty dflt →
  keeps ty (js_or v dflt).
Proof.
  intros [Hf|HP] HPk Hd; unfold js_or.
  - by rewrite Hf.
  - destruct (truthy v); auto.
Qed.

Lemma fitsSchema_cast device id c v :
  get device "id" = VStr id → fitsSchema device →
  mapDeviceToDB device !! c = Some v →
  Supabase.cast Supabase.devices c v = Some v.
Proof.
  intros Hid ((name & Hname) & Hip & Hzone & Hlabel & Hstatus & Hmode & Htemp
              & Hhum & Hsoil & Hpump).
  assert (∀ w, (∃ s, w = VStr s) → keeps Supabase.TEXT w) as Htext
    by (by intros w [s ->]).
  rewrite mapDeviceToDB_lookup.
  repeat (case_decide; [subst c; intros [= <-]|]); [..|done].
  - by rewrite Hid.
  - by rewrite Hname.
  - by apply (defaulted_kept _ Supabase.TEXT _ _ Hzone).
  - by apply (defaulted_kept _ Supabase.TEXT _ _ Hlabel).
  - by destruct Hip as [->|[s ->]].
  - by apply (defaulted_kept _ Supabase.TEXT _ _ Hstatus).
  - by apply (defaulted_kept _ Supabase.REAL _ _ Htemp).
  - by apply (defaulted_kept _ Supabase.REAL _ _ Hhum).
  - apply (defaulted_kept _ Supabase.INTEGER _ _ Hsoil); [|done].
    apply integral_kept.
  - apply (defaulted_kept _ Supabase.BOOLEAN _ _ Hpump); [|done].
    by intros w [b ->].
  - by apply (defaulted_kept _ Supabase.TEXT _ _ Hmode).
Qed.

(** The table takes a record that fits its columns as it is given. *)
Lemma typed_fitsSchema device id :
  get device "id" = VStr id → fitsSchema device →
  Supabase.typed Supabase.devices (mapDeviceToDB device)
    = Some (json_strip (mapDeviceToDB device)).
Proof.
  intros Hid Hfits.
  assert (∀ c v, json_strip (mapDeviceToDB device) !! c = Some v →
                 Supabase.cast Supabase.devices c v = Some v) as Hcast.
  { intros c v. rewrite json_strip_lookup.
    destruct (mapDeviceToDB device !! c) as [w|] eqn:Hw; [|done]. simpl.
    unfold defined. case_decide; [done|]. intros [= <-].
    eauto using fitsSchema_cast. }
  unfold Supabase.typed. rewrite decide_True.
  - f_equal. apply map_eq. intros c. rewrite map_lookup_imap.
    destruct (json_strip (mapDeviceToDB device) !! c) as [v|] eqn:Hv; [|done].
    simpl. eauto.
  - intros c v Hv. rewrite (Hcast c v Hv). done.
Qed.

(** The row of a record that fits the columns has a value for every
    column but the three that the table fills in. *)
Lemma inserted_row_defaults device id now :
  get device "id" = VStr id → fitsSchema device →
  json_strip (mapDeviceToDB device) ∪ Supabase.defaults now
  = json_strip (mapDeviceToDB device) ∪ insertDefaults now.
Proof.
  intros Hid ((name & Hname) & Hip & _).
  assert (∀ a b, b ≠ VUndef → is_Some (defined (js_or a b))) as Hor.
  { intros a b Hb. unfold js_or, defined.
    destruct (truthy a) eqn:Ea; case_decide as E; try (by eauto).
    rewrite E in Ea. discriminate. }
  apply map_eq. intros c. rewrite !lookup_union.
  destruct (json_strip (mapDeviceToDB device) !! c) as [w|] eqn:Hw.
  { by destruct (Supabase.defaults now !! c), (insertDefaults now !! c). }
  rewrite !(left_id_L None _).
  revert Hw. rewrite json_strip_lookup, mapDeviceToDB_lookup.
  unfold Supabase.defaults, insertDefaults.
  rewrite !lookup_insert, !lookup_singleton.
  repeat (case_decide; [subst c; simpl; intros Hw|]); try done.
  all: try match goal with
           | Hw : defined (js_or ?a ?b) = None |- _ =>
               destruct (Hor a b) as [? E]; [done|by rewrite E in Hw]
           end.
  revert Hw. unfold defined. by destruct Hip as [->|[s ->]].
Qed.

Lemma createDevice_database st device id now :
  useDatabase st = true →
  get device "id" = VStr id →
  getDevice st id = None →
  fitsSchema device →
  createDevice st device now =
    (set_db_devices st
       (db_devices st
          ++ [json_strip (mapDeviceToDB device) ∪ insertDefaults now]),
     Some (mapDeviceFromDB
             (json_strip (mapDeviceToDB device) ∪ insertDefaults now))).
Proof.
  intros Hm Hid Hnone Hfits. revert Hnone.
  unfold getDevice, createDevice. rewrite Hm.
  rewrite fmap_None. intros Hnone.
  unfold Supabase.insert. rewrite (typed_fitsSchema device id) by done.
  rewrite get_json_strip, get_mapDeviceToDB_id, Hid.
  destruct Hfits as ((name & Hname) & Hrest).
  rewrite get_json_strip.
  assert (get (mapDeviceToDB device) "name" = VStr name) as -> by done.
  rewrite Hnone. fold (insertDefaults now).
  by rewrite (inserted_row_defaults device id now Hid
                (conj (ex_intro _ name Hname) Hrest)).
Qed.

(** The record that the create route builds from a well-formed request
    fits the columns of the table. *)
Lemma newDevice_fitsSchema body now :
  registrationFields body → fitsSchema (newDevice body now).
Proof.
  intros ((name & Hname) & (ip & Hip) & Hzone).
  split; [by exists name|]. split; [right; by exists ip|].
  assert (get (newDevice body now) "zone"
            = js_or (get body "zone") (VStr "garden")) as -> by done.
  split_and!; try (right; by eauto).
  - right. unfold js_or. destruct Hzone as [->|(z & -> & _)]; simpl.
    + by eexists.
    + destruct (negb _); by eexists.
  - right.
    assert (get (newDevice body now) "zoneLabel" =
              js_or (match get body "zone" with
                     | VStr z => default VUndef (zoneLabels !! z)
                     | _ => VUndef
                     end) (VStr "🌳 สวน")) as -> by done.
    destruct (get body "zone") as [| | | |z|]; try by eexists.
    unfold zoneLabels. rewrite !lookup_insert, lookup_singleton.
    repeat (case_decide; [by eexists|]). by eexists.
  - by left.
Qed.
(** X14.  Insert, then look up: a device created under an id that is not yet
    registered is returned by [getDevice] under that id and comes last in
    [getDevices], after the devices that were there, which are unchanged.
    With the fallback the record is the one passed in; with the database,
    for a record that fits the columns of the table, it is its round trip,
    with [lastUpdate] set to the time of creation. *)
Theorem created_device_can_be_read st device id now :
  get device "id" = VStr id →
  getDevice st id = None →
  (useDatabase st = true → fitsSchema device) →
  ∃ d,
    (createDevice st device now).2 = Some d ∧
    getDevice (createDevice st device now).1 id = Some d ∧
    getDevices (createDevice st device now).1 = getDevices st ++ [d] ∧
    (∀ k, get d k =
          if useDatabase st then
            if decide ("lastUpdate" = k) then VDate now
            else roundTripField device k
          else get device k).
Proof.
  intros Hid Hnone Hfits. destruct (useDatabase st) eqn:Hm.
  - rewrite (createDevice_database st device id now Hm Hid Hnone)
      by by apply Hfits.
    eexists. split; [done|].
    unfold getDevice, getDevices, Supabase.select_single in *. simpl.
    rewrite Hm in *. apply fmap_None, fmap_None in Hnone.
    split_and!.
    + rewrite (find_appended _ id); [done..|].
      apply has_id_true.
      rewrite get_inserted_row by done. by rewrite get_mapDeviceToDB_id.
    + by rewrite fmap_app.
    + intros k. apply get_inserted_device.
  - unfold createDevice. rewrite Hm. exists device. split; [done|].
    unfold getDevice, getDevices in *. simpl. rewrite Hm in *.
    apply fmap_None in Hnone. split_and!; [|done..].
    rewrite (find_appended _ _ _ Hnone); [done|]. by apply has_id_true.
Qed.

Lemma created_device_can_be_read_witness :
  get (newDevice registration 5000) "id" = VStr "device_5000" ∧
  getDevice (initialDatabaseState 1000) "device_5000" = None ∧
  ∃ d,
    getDevice
      (createDevice (initialDatabaseState 1000) (newDevice registration 5000)
         5000).1 "device_5000" = Some d ∧
    getDevices
      (createDevice (initialDatabaseState 1000) (newDevice registration 5000)
         5000).1
      = getDevices (initialDatabaseState 1000) ++ [d] ∧
    get d "lastUpdate" = VDate 5000.
Proof.
  split; [reflexivity|]. split; [reflexivity|].
  assert (fitsSchema (newDevice registration 5000)) as Hfits.
  { apply newDevice_fitsSchema.
    split; [by eexists|]. split; [by eexists|by left]. }
  destruct (created_device_can_be_read (initialDatabaseState 1000)
              (newDevice registration 5000) "device_5000" 5000
              eq_refl eq_refl (λ _, Hfits))
    as (d & _ & Hget & Hall & Hfields).
  exists d. split; [exact Hget|]. split; [exact Hall|].
  exact (Hfields "lastUpdate").
Defined.

Lemma created_device_fields st body now :
  registrationFields body →
  getDevice st (newId now) = None →
  ∃ d,
    (createDevice st (newDevice body now) now).2 = Some d ∧
    getDevice (createDevice st (newDevice body now) now).1 (newId now)
      = Some d ∧
    getDevices (createDevice st (newDevice body now) now).1
      = getDevices st ++ [d] ∧
    ioEmitted (createDevice st (newDevice body now) now).1 = ioEmitted st ∧
    (∀ k, "lastUpdate" ≠ k → get d k = get (newDevice body now) k).
Proof.
  intros Hfields Hfree.
  assert (get (newDevice body now) "id" = VStr (newId now)) as Hid
    by reflexivity.
  destruct (useDatabase st) eqn:Hm.
  - rewrite (createDevice_database st _ _ now Hm Hid Hfree)
      by by apply newDevice_fitsSchema.
    eexists. split; [done|].
    unfold getDevice, getDevices, Supabase.select_single in *. simpl.
    rewrite Hm in *. apply fmap_None, fmap_None in Hfree.
    split_and!.
    + rewrite (find_appended _ (newId now)); [done..|].
      apply has_id_true. by rewrite get_inserted_row.
    + by rewrite fmap_app.
    + done.
    + intros k Hk. rewrite get_inserted_device, decide_False by done.
      apply newDevice_round_trip.
  - unfold createDevice. rewrite Hm. exists (newDevice body now).
    split; [done|].
    unfold getDevice, getDevices in *. simpl. rewrite Hm in *.
    apply fmap_None in Hfree. split_and!; [|done..].
    rewrite (find_appended _ _ _ Hfree); [done|]. by apply has_id_true.
Qed.

(** X15.  The create route: a request without a name or without an address is
    refused and changes nothing; one with a name and an address (strings),
    when the id of the current millisecond is free, registers a device that is [offline], has zero
    readings, pump off and mode [auto], is announced by one [deviceAdded]
    event and is returned by [getDevice] from then on, in either storage
    mode. *)
Theorem registration_creates_offline_device st body now :
  let st' := (postDevices st body now).1 in
  let reply := (postDevices st body now).2 in
  if negb (truthy (get body "name")) || negb (truthy (get body "ip")) then
    reply = BadRequest ∧ st' = st
  else
    registrationFields body →
    getDevice st (newId now) = None →
    ∃ d,
      reply = Created d ∧
      getDevice st' (newId now) = Some d ∧
      getDevices st' = getDevices st ++ [d] ∧
      ioEmitted st' = ioEmitted st ++ [("deviceAdded", Some d)] ∧
      (∀ k, "lastUpdate" ≠ k → get d k = get (newDevice body now) k) ∧
      get d "name" = get body "name" ∧
      get d "ip" = get body "ip" ∧
      get d "status" = VStr "offline" ∧
      get d "pumpActive" = VBool false ∧
      get d "soilMoisture" = VNum 0%Q ∧
      get d "mode" = VStr "auto".
Proof.
  intros st' reply. subst st' reply. unfold postDevices.
  destruct (_ || _); [done|]. intros Hbody Hfree.
  destruct (created_device_fields st body now Hbody Hfree)
    as (d & Hres & Hget & Hlist & Hio & Hfields).
  destruct (createDevice st (newDevice body now) now) as [st1 [created|]];
    simpl in Hres; [|done].
  injection Hres as ->. cbn [fst snd] in *. exists d.
  split; [done|].
  split; [rewrite <- Hget; by apply getDevice_ext|].
  split; [rewrite <- Hlist; by apply getDevices_ext|].
  split; [simpl; by rewrite Hio|].
  split; [done|]. split_and!; by rewrite Hfields.
Qed.

Lemma registration_creates_offline_device_witness :
  getDevice (initialMemoryState 1000) (newId 5000) = None ∧
  ∃ d,
    (postDevices (initialMemoryState 1000) registration 5000).2 = Created d ∧
    getDevice (postDevices (initialMemoryState 1000) registration 5000).1
      (newId 5000) = Some d ∧
    get d "status" = VStr "offline".
Proof.
  split; [reflexivity|].
  assert (registrationFields registration) as Hfields
    by (split; [by eexists|]; split; [by eexists|by left]).
  destruct (registration_creates_offline_device (initialMemoryState 1000)
              registration 5000 Hfields eq_refl)
    as (d & Hreply & Hget & _ & _ & _ & _ & _ & Hstatus & _).
  exists d. split; [exact Hreply|]. split; [exact Hget|exact Hstatus].
Defined.

End creation_more.

(** ** Device deletion *)

Section deletion.
Implicit Types (st : State) (id : string) (d data : Obj) (now : Z).

Lemma find_after_delete_other (P : Obj → Prop) `{!∀ x, Decision (P x)}
    (l : list Obj) i x :
  l !! i = Some x → ¬ P x →
  snd <$> list_find P (delete i l) = snd <$> list_find P l.
Proof.
  revert i. induction l as [|y l IH]; intros i Hi Hx; [done|].
  destruct i as [|i]; simpl in Hi.
  - injection Hi as ->. simpl. rewrite decide_False by done.
    by destruct (list_find P l) as [[j z]|].
  - simpl. case_decide; [done|].
    specialize (IH i Hi Hx).
    by destruct (list_find P (delete i l)) as [[j z]|],
                (list_find P l) as [[j' z']|]; simplify_eq/=.
Qed.

Lemma find_after_filter (P Q : Obj → Prop) `{!∀ x, Decision (P x)}
    `{!∀ x, Decision (Q x)} (l : list Obj) :
  (∀ x, P x → Q x) →
  snd <$> list_find P (filter Q l) = snd <$> list_find P l.
Proof.
  intros HPQ. induction l as [|y l IH]; [done|].
  destruct (decide (Q y)) as [Hq|Hq].
  - rewrite filter_cons_True by done. simpl. case_decide; [done|].
    by destruct (list_find P (filter Q l)) as [[j z]|],
                (list_find P l) as [[j' z']|]; simplify_eq/=.
  - rewrite filter_cons_False by done. simpl.
    rewrite decide_False by naive_solver.
    by destruct (list_find P (filter Q l)) as [[j z]|],
                (list_find P l) as [[j' z']|]; simplify_eq/=.
Qed.

Lemma deleteDevice_other st id id' :
  id ≠ id' → getDevice (deleteDevice st id).1 id' = getDevice st id'.
Proof.
  intros Hne. unfold getDevice, deleteDevice, Supabase.select_single.
  destruct (useDatabase st) eqn:Hm; simpl.
  - rewrite Hm. f_equal. unfold Supabase.delete.
    apply (find_after_filter (λ row, has_id id' row)).
    intros row Hrow. apply Is_true_true in Hrow.
    by apply (has_id_distinct id' id).
  - destruct (list_find _ _) as [[i d]|] eqn:Hfind; simpl; rewrite Hm;
      [|done].
    apply list_find_Some in Hfind as (Hi & Hd & _).
    apply Is_true_true in Hd.
    apply (find_after_delete_other _ _ i d); [done|].
    rewrite (has_id_distinct id id' d) by done. by intros [].
Qed.

Lemma deleteDevice_gone st id :
  useDatabase st = true ∨ uniqueIds st →
  getDevice (deleteDevice st id).1 id = None.
Proof.
  intros Hu. unfold getDevice, deleteDevice, Supabase.select_single.
  destruct (useDatabase st) eqn:Hm; simpl.
  - rewrite Hm. apply fmap_None, fmap_None, list_find_None, Forall_forall.
    intros row [Hrow _]%list_elem_of_filter. rewrite Hrow. by intros [].
  - destruct Hu as [|Hu]; [done|].
    destruct (list_find _ _) as [[i d]|] eqn:Hfind; simpl; rewrite Hm;
      [|by rewrite Hfind].
    apply fmap_None, list_find_None, Forall_forall.
    intros y Hy Hyid.
    apply list_find_Some in Hfind as (Hi & Hd & _).
    apply Is_true_true, has_id_true in Hd, Hyid.
    apply list_elem_of_lookup in Hy as [j Hj].
    assert (∃ j', j' ≠ i ∧ memoryDevices st !! j' = Some y) as (j' & Hne & Hj').
    { destruct (decide (j < i)%nat).
      - exists j. split; [lia|]. by rewrite list_lookup_delete_lt in Hj.
      - exists (S j). split; [lia|]. by rewrite list_lookup_delete_ge in Hj by lia. }
    apply Hne. apply (NoDup_lookup _ j' i (VStr id) Hu);
      by rewrite list_lookup_fmap, ?Hj', ?Hi; simpl; congruence.
Qed.

Lemma deleted_device_lookup st id d :
  getDevice st id = Some d →
  useDatabase st = true ∨ uniqueIds st →
  getDevice (deleteDevices st id).1 id = None.
Proof.
  intros Hd Hu. pose proof (deleteDevice_gone st id Hu) as Hgone.
  unfold deleteDevices. rewrite Hd.
  destruct (deleteDevice st id) as [st1 [|]]; cbn [fst] in *; [|done].
  rewrite <- Hgone. by apply getDevice_ext.
Qed.

Lemma cascade_clears_history (history : list Obj) id :
  filter (λ r, str_eq (get r "device_id") id = true)
         (Supabase.delete_cascade history id) = [].
Proof.
  unfold Supabase.delete_cascade. induction history as [|r history IH];
    [done|].
  destruct (str_eq (get r "device_id") id) eqn:E.
  - by rewrite (filter_cons_False _ r history) by by rewrite E.
  - rewrite (filter_cons_True _ r history) by done.
    by rewrite filter_cons_False by by rewrite E.
Qed.

Lemma cascade_spares_others (history : list Obj) id id' :
  id ≠ id' →
  filter (λ r, str_eq (get r "device_id") id' = true)
         (Supabase.delete_cascade history id)
  = filter (λ r, str_eq (get r "device_id") id' = true) history.
Proof.
  intros Hne. unfold Supabase.delete_cascade.
  induction history as [|r history IH]; [done|].
  destruct (str_eq (get r "device_id") id) eqn:E.
  - rewrite (filter_cons_False _ r history) by by rewrite E.
    rewrite IH. rewrite filter_cons_False; [done|].
    apply str_eq_true in E. rewrite E. simpl.
    rewrite (proj2 (String.eqb_neq id id')) by done. by intros [=].
  - rewrite (filter_cons_True _ r history) by done.
    destruct (str_eq (get r "device_id") id') eqn:E'.
    + rewrite !filter_cons_True by done. by rewrite IH.
    + rewrite !filter_cons_False by by rewrite E'. done.
Qed.

Lemma getSensorHistory_ext st st' id limit startDate endDate :
  useDatabase st' = useDatabase st →
  memorySensorHistory st' = memorySensorHistory st →
  filter (λ r, str_eq (get r "device_id") id = true) (db_history st')
    = filter (λ r, str_eq (get r "device_id") id = true) (db_history st) →
  getSensorHistory st' id limit startDate endDate
    = getSensorHistory st id limit startDate endDate.
Proof. intros Hm Hmem Hrows. unfold getSensorHistory. by rewrite Hm, Hmem, Hrows. Qed.

(** X16.  The delete route: an unknown id is answered [NotFound] and changes
    nothing.  A known one is answered with success and one [deviceDeleted]
    event; the other devices and their histories are untouched; with the
    database, or with an in-memory array that has no duplicate ids, the id
    is then unknown.  With the database the stored samples of the device
    go with it ([ON DELETE CASCADE]) and a history query for it returns
    nothing; the in-memory history of the device and its [deviceLastSeen]
    entry are not cleaned up. *)
Theorem deleted_device_is_gone st id :
  let st' := (deleteDevices st id).1 in
  let reply := (deleteDevices st id).2 in
  match getDevice st id with
  | None => reply = NotFound ∧ st' = st
  | Some _ =>
      reply = Ok None ∧
      ioEmitted st'
        = ioEmitted st ++ [("deviceDeleted", Some {[ "id" := VStr id ]})] ∧
      (∀ id', id ≠ id' → getDevice st' id' = getDevice st id') ∧
      (useDatabase st = true ∨ uniqueIds st → getDevice st' id = None) ∧
      (∀ id' limit startDate endDate,
         id ≠ id' →
         getSensorHistory st' id' limit startDate endDate
           = getSensorHistory st id' limit startDate endDate) ∧
      (∀ limit startDate endDate,
         getSensorHistory st' id limit startDate endDate
           = if useDatabase st then []
             else getSensorHistory st id limit startDate endDate) ∧
      deviceLastSeen st' = deviceLastSeen st ∧
      memorySensorHistory st' = memorySensorHistory st
  end.
Proof.
  intros st' reply. subst st' reply.
  pose proof (deleteDevices_periphery st id) as Hperiphery.
  pose proof (deleteDevice_gone st id) as Hgone.
  pose proof (deleteDevice_other st id) as Hother.
  unfold deleteDevices in *.
  destruct (getDevice st id) as [d|] eqn:Hd; [|done].
  assert (∃ st1, deleteDevice st id = (st1, true) ∧
                 ioEmitted st1 = ioEmitted st ∧
                 db_history st1 =
                   if useDatabase st
                   then Supabase.delete_cascade (db_history st) id
                   else db_history st)
    as (st1 & Hdel & Hio & Hrows).
  { unfold deleteDevice, getDevice in *.
    destruct (useDatabase st); [by eexists|].
    destruct (list_find _ _) as [[i d0]|]; [by eexists|done]. }
  rewrite Hdel in *. cbn [fst snd] in *.
  destruct Hperiphery as (Hm & Hseen & Hmem & _).
  cbn [io_emit useDatabase deviceLastSeen memorySensorHistory db_history]
    in Hm, Hseen, Hmem.
  split; [done|]. split; [simpl; by rewrite Hio|].
  split; [|split; [|split; [|split; [|by split]]]].
  - intros id' Hne. rewrite <- (Hother id' Hne). by apply getDevice_ext.
  - intros Hu. rewrite <- (Hgone Hu). by apply getDevice_ext.
  - intros id' limit startDate endDate Hne.
    apply getSensorHistory_ext; [done..|]. simpl. rewrite Hrows.
    destruct (useDatabase st); [|done]. by apply cascade_spares_others.
  - intros limit startDate endDate.
    destruct (useDatabase st) eqn:Hdb.
    + unfold getSensorHistory. simpl. rewrite Hm, Hrows.
      rewrite cascade_clears_history.
      change (merge_sort newer_first []) with (@nil Obj).
      destruct startDate, endDate; try done;
        by rewrite ?filter_nil, take_nil.
    + apply getSensorHistory_ext; [simpl; congruence..|]. simpl.
      by rewrite Hrows.
Qed.

Lemma deleted_device_is_gone_witness :
  uniqueIds (initialMemoryState 1000) ∧
  (deleteDevices (initialMemoryState 1000) "device_001").2 = Ok None ∧
  getDevice (deleteDevices (initialMemoryState 1000) "device_001").1
    "device_001" = None.
Proof.
  assert (uniqueIds (initialMemoryState 1000)) as Hu
    by apply NoDup_singleton.
  split; [exact Hu|].
  destruct (deleted_device_is_gone (initialMemoryState 1000) "device_001")
    as (Hreply & _ & _ & Hgone & _).
  split; [exact Hreply|]. apply Hgone. by right.
Defined.

(** X17.  With the database, or with the in-memory registry when no two
    of its records have the same id, a deleted device is not brought back
    by what it sends afterwards: telemetry, status messages and
    [pumpControl] events for its id change no record and emit no event. *)
Theorem deleted_device_stays_deleted st id :
  is_Some (getDevice st id) →
  useDatabase st = true ∨ uniqueIds st →
  let st1 := (deleteDevices st id).1 in
  ∀ data action now,
    getDevices (handleDeviceData st1 id data now) = getDevices st1 ∧
    ioEmitted (handleDeviceData st1 id data now) = ioEmitted st1 ∧
    handleDeviceStatus st1 id data now = st1 ∧
    getDevices (onPumpControl st1 id action now) = getDevices st1 ∧
    ioEmitted (onPumpControl st1 id action now) = ioEmitted st1.
Proof.
  intros [d Hd] Hu st1 data action now.
  assert (getDevice st1 id = None) as Hnone.
  { pose proof (deleted_device_lookup st id d Hd Hu) as H. exact H. }
  split_and!.
  - by rewrite handleDeviceData_missing.
  - by rewrite handleDeviceData_missing.
  - unfold handleDeviceStatus. by rewrite updateDevice_missing.
  - rewrite onPumpControl_unknown by done.
    by apply getDevices_ext; apply published_devices.
  - rewrite onPumpControl_unknown by done. apply published_devices.
Qed.

Lemma deleted_device_stays_deleted_witness :
  is_Some (getDevice (initialMemoryState 1000) "device_001") ∧
  uniqueIds (initialMemoryState 1000) ∧
  getDevices
    (handleDeviceData (deleteDevices (initialMemoryState 1000) "device_001").1
       "device_001" reading 3000)
    = getDevices (deleteDevices (initialMemoryState 1000) "device_001").1.
Proof.
  assert (is_Some (getDevice (initialMemoryState 1000) "device_001")) as Hd
    by (by eexists).
  assert (uniqueIds (initialMemoryState 1000)) as Hu
    by apply NoDup_singleton.
  split; [exact Hd|]. split; [exact Hu|].
  exact (proj1 (deleted_device_stays_deleted (initialMemoryState 1000)
                  "device_001" Hd (or_intror Hu) reading (VStr "on") 3000)).
Defined.

End deletion.

(** ** Statistics *)

Section statistics_results.
Variable toNumber : Value → option Q.
Implicit Types (st : State) (d : Obj) (now : Z) (l : list Obj).

Lemma length_filter_le (P : Obj → Prop) `{!∀ x, Decision (P x)} l :
  (length (filter P l) ≤ length l)%nat.
Proof.
  induction l as [|x l IH]; [done|].
  destruct (decide (P x)).
  - rewrite filter_cons_True by done. simpl. lia.
  - rewrite filter_cons_False by done. simpl. lia.
Qed.

Lemma length_filter_impl (P Q : Obj → Prop) `{!∀ x, Decision (P x)}
    `{!∀ x, Decision (Q x)} l :
  (∀ x, P x → Q x) → (length (filter P l) ≤ length (filter Q l))%nat.
Proof.
  intros HPQ. induction l as [|x l IH]; [done|].
  destruct (decide (P x)) as [Hp|Hp].
  - rewrite filter_cons_True by done.
    rewrite (filter_cons_True Q) by auto. simpl. lia.
  - rewrite filter_cons_False by done.
    destruct (decide (Q x)).
    + rewrite (filter_cons_True Q) by done. simpl. lia.
    + by rewrite (filter_cons_False Q).
Qed.

(** X18.  The counters of the statistics are consistent with each other: every
    alert is an online device, and no counter exceeds the number of
    devices. *)
Theorem stats_are_consistent st :
  (alerts (getStats toNumber st) ≤ online (getStats toNumber st))%nat ∧
  (online (getStats toNumber st) ≤ total (getStats toNumber st))%nat ∧
  (watering (getStats toNumber st) ≤ total (getStats toNumber st))%nat.
Proof.
  unfold getStats. simpl. split_and!.
  - apply length_filter_impl. intros d. unfold isAlert.
    intros [_ H]%Is_true_true%andb_true_iff. by rewrite H.
  - apply length_filter_le.
  - apply length_filter_le.
Qed.

Lemma length_filter_demoted (P : Obj → bool) l l' :
  Forall2 demoted l l' →
  (∀ d d', demoted d d' → P d' = true → P d = true) →
  (length (filter (λ d, P d) l') ≤ length (filter (λ d, P d) l))%nat.
Proof.
  intros H HP. induction H as [|d d' l l' Hd _ IH]; [done|].
  destruct (P d') eqn:E'.
  - rewrite filter_cons_True by by rewrite E'.
    rewrite (filter_cons_True _ d) by by rewrite (HP d d' Hd E').
    simpl. lia.
  - rewrite filter_cons_False by (rewrite E'; by intros []).
    destruct (P d) eqn:E.
    + rewrite (filter_cons_True _ d) by by rewrite E. simpl. lia.
    + by rewrite (filter_cons_False _ d) by (rewrite E; by intros []).
Qed.

Lemma demoted_refl d : demoted d d.
Proof. by left. Qed.

Lemma demoted_trans d1 d2 d3 : demoted d1 d2 → demoted d2 d3 → demoted d1 d3.
Proof.
  intros [->|[Hs Hm]] [->|[Hs' Hm']]; [by left|by right..|right].
  split; [done|congruence].
Qed.

Lemma demoted_markOffline_row row now :
  demoted (mapDeviceFromDB row)
    (mapDeviceFromDB
       (assign row {[ "status" := VStr "offline";
                      "last_update" := VDate now ]})).
Proof.
  right.
  change (get (mapDeviceFromDB ?r) "status") with (get r "status").
  change (get (mapDeviceFromDB ?r) "soilMoisture")
    with (get r "soil_moisture").
  by rewrite !get_assign.
Qed.

Lemma Forall2_demoted_markOfflineInDB tbl d now :
  Forall2 demoted (mapDeviceFromDB <$> tbl)
    (mapDeviceFromDB <$> markOfflineInDB tbl d now).
Proof.
  rewrite markOfflineInDB_patch.
  destruct (get d "id") as [| | | |id|];
    try (apply Forall_Forall2_diag, Forall_forall; intros; apply demoted_refl).
  unfold Supabase.patch. rewrite <- list_fmap_compose.
  apply Forall2_fmap, Forall_Forall2_diag, Forall_forall. intros row _.
  simpl. destruct (has_id id row); [|apply demoted_refl].
  apply demoted_markOffline_row.
Qed.

Lemma Forall2_demoted_trans l1 l2 l3 :
  Forall2 demoted l1 l2 → Forall2 demoted l2 l3 → Forall2 demoted l1 l3.
Proof.
  intros H. revert l3. induction H as [|d1 d2 l1 l2 Hd _ IH]; intros l3 H3.
  - by inv H3.
  - inv H3. constructor; eauto using demoted_trans.
Qed.

Lemma Forall2_demoted_sweep st now :
  Forall2 demoted (getDevices st) (getDevices (checkOfflineDevices st now)).
Proof.
  rewrite checkOfflineDevices_spec. unfold getDevices. simpl.
  destruct (useDatabase st).
  - generalize (filter (λ d, goesOffline (deviceLastSeen st) now d)
                       (memoryDevices st)).
    intros sel. generalize (db_devices st). induction sel as [|d sel IH];
      intros tbl; simpl.
    + apply Forall_Forall2_diag, Forall_forall. intros; apply demoted_refl.
    + eapply Forall2_demoted_trans; [|apply IH].
      apply Forall2_demoted_markOfflineInDB.
  - apply Forall2_fmap_r, Forall_Forall2_diag, Forall_forall. intros d _.
    simpl. destruct (goesOffline (deviceLastSeen st) now d);
      [|apply demoted_refl].
    right. unfold markOffline. by rewrite !get_insert.
Qed.

(** X19.  A liveness sweep never raises a counter of the dashboard: the number
    of devices is the same, and neither the online count nor the alert
    count grows, in either storage mode. *)
Theorem sweep_never_raises_stats st now :
  let before := getStats toNumber st in
  let after := getStats toNumber (checkOfflineDevices st now) in
  total after = total before ∧
  (online after ≤ online before)%nat ∧
  (alerts after ≤ alerts before)%nat.
Proof.
  intros before after. subst before after. unfold getStats. simpl.
  pose proof (Forall2_demoted_sweep st now) as H.
  split_and!.
  - symmetry. by eapply Forall2_length.
  - apply length_filter_demoted; [done|].
    intros d d' [->|[Hs _]]; [done|]. unfold isOnline. by rewrite Hs.
  - apply length_filter_demoted; [done|].
    intros d d' [->|[Hs _]]; [done|]. unfold isAlert, isOnline.
    rewrite Hs. simpl. by rewrite andb_false_r.
Qed.

End statistics_results.

(** ** The history query on the database *)

Section database_history.
Implicit Types (st : State) (id : string) (h : Obj) (limit s e : Z).

#[local] Instance newer_first_transitive : Transitive newer_first.
Proof. unfold newer_first. intros x y z. lia. Qed.

#[local] Instance newer_first_total : Total newer_first.
Proof. unfold newer_first. intros x y. lia. Qed.

Lemma StronglySorted_reverse_flip {A} (R : relation A) `{!Transitive R}
    (l : list A) :
  StronglySorted R l → StronglySorted (flip R) (reverse l).
Proof.
  intros H. apply Sorted_StronglySorted; [by intros x y z ? ?; etrans|].
  by apply Sorted_reverse, StronglySorted_Sorted.
Qed.

(** The samples that the query returns are the image, oldest first, of a
    selection [data] of rows that is ordered newest first. *)
Lemma timestamps_of_rows (data : list Obj) :
  timestamps
    (reverse
       ((λ h, ({[ "timestamp" := get h "recorded_at";
                  "temperature" := get h "temperature";
                  "humidity" := get h "humidity";
                  "soilMoisture" := get h "soil_moisture" ]} : Obj))
          <$> data))
  = reverse (recorded_at <$> data).
Proof.
  unfold timestamps. rewrite fmap_reverse, <- list_fmap_compose.
  f_equal.
Qed.

Lemma rows_chronological (ordered data : list Obj) :
  StronglySorted newer_first ordered → sublist data ordered →
  StronglySorted Z.le (reverse (recorded_at <$> data)).
Proof.
  intros Hs Hsub.
  apply (StronglySorted_reverse_flip (flip Z.le)).
  apply (StronglySorted_fmap _ newer_first); [done|].
  eauto using StronglySorted_sublist.
Qed.

(** X20.  With the database, a history query with a limit that is not
    negative returns at most [limit] samples, oldest first, and none
    outside the bounds that were given. *)
Theorem database_history_query st id limit startDate endDate :
  useDatabase st = true →
  0 ≤ limit →
  let result := getSensorHistory st id limit startDate endDate in
  (length result ≤ Z.to_nat limit)%nat ∧
  StronglySorted Z.le (timestamps result) ∧
  (∀ s, startDate = GoodDate s → Forall (λ ts, s ≤ ts) (timestamps result)) ∧
  (∀ e, endDate = GoodDate e → Forall (λ ts, ts ≤ e) (timestamps result)).
Proof.
  intros Hdb _ result. subst result. unfold getSensorHistory. rewrite Hdb.
  set (rows := filter _ (db_history st)).
  pose proof (StronglySorted_merge_sort newer_first rows) as Hsorted.
  set (ordered := merge_sort newer_first rows) in *.
  assert (∀ data : list Obj, sublist data ordered →
            StronglySorted Z.le (reverse (recorded_at <$> data))) as Hchrono
    by eauto using rows_chronological.
  assert (∀ (data : list Obj) (P : Z → Prop),
            Forall (λ r, P (recorded_at r)) data →
            Forall P (reverse (recorded_at <$> data))) as Hwin.
  { intros data P H. apply Forall_reverse, Forall_fmap.
    eapply Forall_impl; [exact H|]. done. }
  destruct startDate as [| |s], endDate as [| |e];
    try (split_and!; [simpl; lia|constructor|by intros|by intros]);
    rewrite timestamps_of_rows, length_reverse, length_fmap, length_take;
    (split; [lia|]); (split; [apply Hchrono|]).
  - apply sublist_take.
  - by split; intros.
  - etrans; [apply sublist_take|apply sublist_filter].
  - split; [by intros|]. intros e' [= <-]. apply Hwin.
    apply Forall_forall. intros r Hr%subseteq_take.
    by apply list_elem_of_filter in Hr as [? _].
  - etrans; [apply sublist_take|apply sublist_filter].
  - split; [|by intros]. intros s' [= <-]. apply Hwin.
    apply Forall_forall. intros r Hr%subseteq_take.
    by apply list_elem_of_filter in Hr as [? _].
  - etrans; [apply sublist_take|].
    etrans; apply sublist_filter.
  - split.
    + intros s' [= <-]. apply Hwin.
      apply Forall_forall. intros r Hr%subseteq_take.
      apply list_elem_of_filter in Hr as [_ Hr].
      by apply list_elem_of_filter in Hr as [? _].
    + intros e' [= <-]. apply Hwin.
      apply Forall_forall. intros r Hr%subseteq_take.
      by apply list_elem_of_filter in Hr as [? _].
Qed.

Lemma database_history_query_witness :
  useDatabase databaseDeviceReported = true ∧
  0 ≤ 10 ∧
  (length (getSensorHistory databaseDeviceReported "device_5000" 10
             (GoodDate 0) NoDate) ≤ Z.to_nat 10)%nat ∧
  Forall (λ ts, 0 ≤ ts)
    (timestamps (getSensorHistory databaseDeviceReported "device_5000" 10
                   (GoodDate 0) NoDate)).
Proof.
  split; [reflexivity|]. split; [lia|].
  destruct (database_history_query databaseDeviceReported "device_5000" 10
              (GoodDate 0) NoDate eq_refl ltac:(lia))
    as (Hlen & _ & Hfrom & _).
  split; [exact Hlen|]. exact (Hfrom 0 eq_refl).
Defined.

End database_history.

(** ** Accounts and sessions *)

Section accounts.
Variable compareSync : string → string → bool.
Variable jsLength : string → nat.
Implicit Types (s : Auth.Store) (u : Auth.User) (name pass : string).
Implicit Types (users : list Auth.User) (db : bool) (now : Z).

Lemma findUser_inv name users u :
  Auth.findUser name users = Some u → Auth.username u = name ∧ u ∈ users.
Proof.
  unfold Auth.findUser. intros H.
  apply fmap_Some in H as ([i u'] & Hfind & ->).
  apply list_find_Some in Hfind as (Hi & Hname & _).
  split; [done|]. by eapply list_elem_of_lookup_2.
Qed.

Lemma findUser_None name users :
  Auth.findUser name users = None ↔ name ∉ Auth.username <$> users.
Proof.
  unfold Auth.findUser. rewrite fmap_None, list_find_None, Forall_forall.
  split.
  - intros H Hin. apply list_elem_of_fmap in Hin as (u & -> & Hu).
    by apply (H u).
  - intros H u Hu Hname. apply H, list_elem_of_fmap. by exists u.
Qed.

Lemma findUser_app_l name users users' u :
  Auth.findUser name users = Some u →
  Auth.findUser name (users ++ users') = Some u.
Proof.
  unfold Auth.findUser. intros H.
  apply fmap_Some in H as ([i u'] & Hfind & ->).
  by rewrite (list_find_app_l _ _ _ _ _ Hfind).
Qed.

Lemma findUser_appended name users u :
  Auth.findUser name users = None → Auth.username u = name →
  Auth.findUser name (users ++ [u]) = Some u.
Proof.
  unfold Auth.findUser. intros H Hname. apply fmap_None in H.
  rewrite list_find_app_r by done. simpl. by rewrite decide_True.
Qed.

Lemma findUser_app_other name users u :
  Auth.username u ≠ name →
  Auth.findUser name (users ++ [u]) = Auth.findUser name users.
Proof.
  unfold Auth.findUser. intros Hname.
  destruct (list_find _ users) as [[i u']|] eqn:Hfind.
  - by rewrite (list_find_app_l _ _ _ _ _ Hfind).
  - rewrite list_find_app_r by done. simpl. by rewrite decide_False.
Qed.

Lemma insertUser_Some users u rows :
  Auth.insertUser users u = Some rows →
  rows = users ++ [u] ∧ Auth.username u ∉ Auth.username <$> users.
Proof.
  unfold Auth.insertUser. case_decide as Hex; [done|]. intros [= <-].
  split; [done|]. intros Hin. apply Hex.
  apply list_elem_of_fmap in Hin as (u' & Heq & Hu').
  apply Exists_exists. exists u'. split; [done|]. by right.
Qed.

Lemma substring_whole (t : string) : String.substring 0 (String.length t) t = t.
Proof. induction t as [|a t IH]; simpl; by rewrite ?IH. Qed.

Lemma replaceFirst_bearer (t : string) :
  Auth.replaceFirst "Bearer " ("Bearer " +:+ t) = t.
Proof.
  destruct t as [|a t]; [reflexivity|].
  unfold Auth.replaceFirst.
  change (String.index 0 "Bearer " ("Bearer " +:+ String a t))
    with (Some 0%nat).
  change (String.substring 0 (String.length (String a t)) (String a t)
          = String a t).
  apply substring_whole.
Qed.

Lemma generateToken_not_inherited now random :
  Auth.generateToken now random ∉ objectPrototypeKeys.
Proof.
  unfold Auth.generateToken, objectPrototypeKeys. simpl. intros H.
  repeat (apply elem_of_cons in H as [H|H]; [discriminate H|]).
  by apply elem_of_nil in H.
Qed.

Lemma verify_bearer s now random :
  Auth.verify s (Some ("Bearer " +:+ Auth.generateToken now random)) =
    match Auth.activeTokens s !! Auth.generateToken now random with
    | Some user => Auth.TokenValid (Some user)
    | None => Auth.TokenInvalid
    end.
Proof.
  unfold Auth.verify. rewrite replaceFirst_bearer.
  pose proof (generateToken_not_inherited now random) as Hown.
  assert (∃ a t, Auth.generateToken now random = String a t)
    as (a & t & E) by (eexists _, _; reflexivity).
  rewrite E in *. destruct (Auth.activeTokens s !! _); [done|].
  unfold inb. by rewrite bool_decide_eq_false_2.
Qed.

Lemma given_Some (field : option string) name :
  Auth.given field = Some name → field = Some name.
Proof. destruct field as [[|a t]|]; simpl; congruence. Qed.

(** The three effects that a request can have on the store. *)
Lemma handle_cases db s r :
  let s' := Auth.handle compareSync jsLength db s r in
  s' = s ∨
  (∃ now random user,
     s' = Auth.mkStore (Auth.app_users s) (Auth.memoryUsers s)
            (<[Auth.generateToken now random := user]> (Auth.activeTokens s)))
  ∨
  (∃ u,
     Auth.role u = "user" ∧
     ((db = true ∧ (Auth.username u ∉ Auth.username <$> Auth.app_users s) ∧
       s' = Auth.mkStore (Auth.app_users s ++ [u]) (Auth.memoryUsers s)
              (Auth.activeTokens s)) ∨
      (db = false ∧
       (Auth.username u ∉ Auth.username <$> Auth.memoryUsers s) ∧
       s' = Auth.mkStore (Auth.app_users s) (Auth.memoryUsers s ++ [u])
              (Auth.activeTokens s)))).
Proof.
  destruct r as [[name pass random|name pass hash uuid|header] now]; simpl.
  - unfold Auth.login.
    destruct (Auth.given name) as [n|]; [|by left].
    destruct (Auth.given pass) as [p|]; [|by left].
    destruct (match (if db then _ else _) with Some _ => _ | None => _ end)
      as [user|]; [|by left].
    right; left. by exists now, random, user.
  - unfold Auth.register.
    destruct (Auth.given name) as [n|]; [|by left].
    destruct (Auth.given pass) as [p|]; [|by left].
    destruct (_ <? _)%nat; [by left|].
    destruct db.
    + destruct (Auth.findUser n (Auth.app_users s)); [by left|].
      destruct (Auth.insertUser _ _) as [rows|] eqn:Hins; [|by left].
      apply insertUser_Some in Hins as [-> Hfresh].
      right; right. exists (Auth.mkUser uuid n hash "user").
      split; [done|]. left. by split_and!.
    + destruct (Auth.findUser n (Auth.memoryUsers s)) eqn:Hfind; [by left|].
      apply findUser_None in Hfind.
      right; right.
      exists (Auth.mkUser ("user_" +:+ pretty now) n hash "user").
      split; [done|]. right. by split_and!.
  - by left.
Qed.

(** X21.  Register, log in, verify: an account that was just registered can
    log in with the same credentials, in either storage mode; the session
    carries its user name and the role [user], and the token that the
    login returns is accepted by the verify route, which answers with that
    session. *)
Theorem registered_user_can_log_in db s name pass hash uuid now now' random :
  (Auth.register jsLength db s (Some name) (Some pass) hash uuid now).2
    = Auth.Registered →
  compareSync pass hash = true →
  let s1 :=
    (Auth.register jsLength db s (Some name) (Some pass) hash uuid now).1 in
  let token := Auth.generateToken now' random in
  ∃ user,
    (Auth.login compareSync db s1 (Some name) (Some pass) now' random).2
      = Auth.LoggedIn token user ∧
    Auth.sessionUsername user = name ∧
    Auth.sessionRole user = "user" ∧
    Auth.verify
      (Auth.login compareSync db s1 (Some name) (Some pass) now' random).1
      (Some ("Bearer " +:+ token)) = Auth.TokenValid (Some user).
Proof.
  intros Hreg Hpass s1 token. subst s1 token.
  unfold Auth.register in *.
  destruct (Auth.given (Some name)) as [n|] eqn:Hn; [|done].
  destruct (Auth.given (Some pass)) as [p|] eqn:Hp; [|done].
  pose proof (given_Some _ _ Hn) as [= <-].
  pose proof (given_Some _ _ Hp) as [= <-].
  destruct (_ <? _)%nat; [done|].
  assert (∀ s1 u,
            Auth.username u = name → Auth.role u = "user" →
            Auth.passwordHash u = hash →
            (if db then Auth.findUser name (Auth.app_users s1) = Some u
             else Auth.findUser name (Auth.memoryUsers s1) = Some u) →
            ∃ user,
              (Auth.login compareSync db s1 (Some name) (Some pass) now'
                 random).2
                = Auth.LoggedIn (Auth.generateToken now' random) user ∧
              Auth.sessionUsername user = name ∧
              Auth.sessionRole user = "user" ∧
              Auth.verify
                (Auth.login compareSync db s1 (Some name) (Some pass) now'
                   random).1
                (Some ("Bearer " +:+ Auth.generateToken now' random))
                = Auth.TokenValid (Some user)) as Hlogin.
  { intros s1 u Hname Hrole Hhash Hfind. exists (Auth.sessionOf u).
    assert (Auth.login compareSync db s1 (Some name) (Some pass) now' random
            = (Auth.mkStore (Auth.app_users s1) (Auth.memoryUsers s1)
                 (<[Auth.generateToken now' random := Auth.sessionOf u]>
                    (Auth.activeTokens s1)),
               Auth.LoggedIn (Auth.generateToken now' random)
                 (Auth.sessionOf u))) as ->.
    { unfold Auth.login. rewrite Hn, Hp. unfold Auth.checkPassword.
      destruct db; by rewrite Hfind, Hhash, Hpass. }
    cbn [fst snd]. split; [done|]. split; [done|]. split; [done|].
    rewrite verify_bearer. cbn [Auth.activeTokens].
    by rewrite lookup_insert_eq. }
  destruct db.
  - destruct (Auth.findUser name (Auth.app_users s)) eqn:Hfind; [done|].
    destruct (Auth.insertUser _ _) as [rows|] eqn:Hins; [|done].
    apply insertUser_Some in Hins as [-> _].
    eapply Hlogin; [..|simpl; by apply findUser_appended]; done.
  - destruct (Auth.findUser name (Auth.memoryUsers s)) eqn:Hfind; [done|].
    eapply Hlogin; [..|simpl; by apply findUser_appended]; done.
Qed.

Lemma serve_keeps_admin db rows adminHash requests :
  Auth.findUser "admin"
    (Auth.memoryUsers
       (Auth.serve compareSync jsLength db (Auth.initialStore rows adminHash)
          requests))
    = Some (Auth.adminUser adminHash).
Proof.
  unfold Auth.serve.
  assert (Auth.findUser "admin"
            (Auth.memoryUsers (Auth.initialStore rows adminHash))
          = Some (Auth.adminUser adminHash)) as H by done.
  revert H. generalize (Auth.initialStore rows adminHash).
  induction requests as [|r requests IH]; intros s Hs; [done|].
  simpl. apply IH.
  destruct (handle_cases db s r)
    as [->|[(t & rnd & user & ->)|(u & _ & [(_ & _ & ->)|(_ & _ & ->)])]];
    simpl; try done.
  by apply findUser_app_l.
Qed.

(** X22.  The account created at process start cannot be displaced: whatever
    requests have been served, in either storage mode and whatever the
    table holds, a login as [admin] with the password that the start-up
    hash was made from succeeds.  Without the database the session is the
    built-in one, with the role [admin]. *)
Theorem builtin_admin_can_always_log_in db rows adminHash requests now random :
  compareSync "admin123" adminHash = true →
  let s :=
    Auth.serve compareSync jsLength db (Auth.initialStore rows adminHash)
      requests in
  ∃ user,
    (Auth.login compareSync db s (Some "admin") (Some "admin123") now random).2
      = Auth.LoggedIn (Auth.generateToken now random) user ∧
    Auth.sessionUsername user = "admin" ∧
    (db = false → user = Auth.sessionOf (Auth.adminUser adminHash)).
Proof.
  intros Hpass s. subst s.
  pose proof (serve_keeps_admin db rows adminHash requests) as Hadmin.
  set (s := Auth.serve _ _ _ _ _) in *.
  unfold Auth.login. simpl Auth.given. cbv beta iota. rewrite Hadmin.
  destruct db.
  - destruct (Auth.findUser "admin" (Auth.app_users s)) as [u|] eqn:Hfind;
      simpl.
    + destruct (compareSync "admin123" (Auth.passwordHash u)); simpl.
      * exists (Auth.sessionOf u). split; [done|]. split; [|done].
        apply findUser_inv in Hfind as [Hname _]. exact Hname.
      * rewrite Hpass. by eexists.
    + rewrite Hpass. by eexists.
  - simpl. rewrite Hpass. by eexists.
Qed.

(** X23.  Registration keeps user names unique in each store: no run of
    requests puts two accounts of the same name into the table or into the
    in-memory list. *)
Theorem usernames_stay_unique db s requests :
  Auth.uniqueNames s →
  Auth.uniqueNames (Auth.serve compareSync jsLength db s requests).
Proof.
  unfold Auth.serve. revert s.
  induction requests as [|r requests IH]; intros s Hs; [done|].
  simpl. apply IH. destruct Hs as [Htable Hmem].
  destruct (handle_cases db s r)
    as [->|[(t & rnd & user & ->)
           |(u & _ & [(_ & Hfresh & ->)|(_ & Hfresh & ->)])]];
    try done; split; simpl; try done;
    rewrite fmap_app; apply NoDup_app; (split; [done|]);
    (split; [|apply NoDup_singleton]);
    intros x Hx ->%list_elem_of_singleton; done.
Qed.

Lemma serve_keeps_tokens db s requests token :
  is_Some (Auth.activeTokens s !! token) →
  is_Some (Auth.activeTokens
             (Auth.serve compareSync jsLength db s requests) !! token).
Proof.
  unfold Auth.serve. revert s.
  induction requests as [|r requests IH]; intros s Hs; [done|].
  simpl. apply IH.
  destruct (handle_cases db s r)
    as [->|[(t & rnd & user & ->)|(u & _ & [(_ & _ & ->)|(_ & _ & ->)])]];
    simpl; try done.
  rewrite lookup_insert. case_decide; [by eexists|done].
Qed.

Lemma serve_keeps_session db s requests token :
  Forall (λ r, ¬ Auth.drawsToken token r) requests →
  Auth.activeTokens (Auth.serve compareSync jsLength db s requests) !! token
    = Auth.activeTokens s !! token.
Proof.
  unfold Auth.serve. revert s.
  induction requests as [|r requests IH]; intros s Hrs; [done|].
  apply Forall_cons in Hrs as [Hr Hrs]. simpl. rewrite (IH _ Hrs).
  destruct r as [[name pass random|name pass hash uuid|header] now]; simpl.
  - unfold Auth.login.
    destruct (Auth.given name) as [n|]; [|done].
    destruct (Auth.given pass) as [p|]; [|done].
    destruct (match (if db then _ else _) with Some _ => _ | None => _ end)
      as [user|]; [|done].
    simpl. by rewrite lookup_insert_ne.
  - unfold Auth.register.
    destruct (Auth.given name) as [n|]; [|done].
    destruct (Auth.given pass) as [p|]; [|done].
    destruct (_ <? _)%nat; [done|].
    destruct db.
    + destruct (Auth.findUser _ _); [done|].
      by destruct (Auth.insertUser _ _).
    + by destruct (Auth.findUser _ _).
  - done.
Qed.

(** X24.  Sessions do not expire and cannot be closed: a token returned by a
    login is accepted by the verify route after any further requests.  It
    still stands for the same session unless a later login has drawn the
    same token. *)
Theorem issued_token_never_expires db s (name pass : option string) now
    random token user requests :
  (Auth.login compareSync db s name pass now random).2
    = Auth.LoggedIn token user →
  let s' :=
    Auth.serve compareSync jsLength db
      (Auth.login compareSync db s name pass now random).1 requests in
  (∃ user',
     Auth.verify s' (Some ("Bearer " +:+ token))
       = Auth.TokenValid (Some user')) ∧
  (Forall (λ r, ¬ Auth.drawsToken token r) requests →
   Auth.verify s' (Some ("Bearer " +:+ token)) = Auth.TokenValid (Some user)).
Proof.
  intros Hlogin s'. subst s'.
  assert (token = Auth.generateToken now random ∧
          Auth.activeTokens (Auth.login compareSync db s name pass now random).1
            !! token = Some user) as [-> Hown].
  { unfold Auth.login in *.
    destruct (Auth.given name) as [n|]; [|done].
    destruct (Auth.given pass) as [p|]; [|done].
    destruct (match (if db then _ else _) with Some _ => _ | None => _ end)
      as [u|]; [|done].
    simpl in *. injection Hlogin as <- <-. by rewrite lookup_insert_eq. }
  split.
  - destruct (serve_keeps_tokens db _ requests _ (mk_is_Some _ _ Hown))
      as [user' Huser'].
    exists user'. by rewrite verify_bearer, Huser'.
  - intros Hfresh.
    by rewrite verify_bearer, (serve_keeps_session db _ requests _ Hfresh), Hown.
Qed.

Lemma serve_tokens_generated db rows adminHash requests k :
  is_Some (Auth.activeTokens
             (Auth.serve compareSync jsLength db
                (Auth.initialStore rows adminHash) requests) !! k) →
  ∃ now random, k = Auth.generateToken now random.
Proof.
  unfold Auth.serve.
  assert (∀ k, is_Some (Auth.activeTokens (Auth.initialStore rows adminHash)
                          !! k) →
               ∃ now random, k = Auth.generateToken now random) as H.
  { intros k' [x Hx]. simpl in Hx. by rewrite lookup_empty in Hx. }
  revert k H. generalize (Auth.initialStore rows adminHash).
  induction requests as [|r requests IH]; intros s k Hs; [apply Hs|].
  simpl. apply IH. clear k. intros k.
  destruct (handle_cases db s r)
    as [->|[(t & rnd & user & ->)|(u & _ & [(_ & _ & ->)|(_ & _ & ->)])]];
    simpl; try apply Hs.
  rewrite lookup_insert. case_decide as E; [|apply Hs].
  intros _. by exists t, rnd.
Qed.

(** X25.  The verify route accepts names that no login ever returned: in every
    reachable state, a request whose [Authorization] header is the name of
    a property that [activeTokens] inherits from [Object.prototype]
    ([constructor], [toString], [__proto__], ...) is answered with
    success, without a session behind it. *)
Theorem verify_accepts_inherited_names db rows adminHash requests k :
  k ∈ objectPrototypeKeys →
  Auth.verify
    (Auth.serve compareSync jsLength db (Auth.initialStore rows adminHash)
       requests) (Some k) = Auth.TokenValid None.
Proof.
  intros Hk.
  assert (Auth.activeTokens
            (Auth.serve compareSync jsLength db
               (Auth.initialStore rows adminHash) requests) !! k = None)
    as Hnone.
  { apply eq_None_not_Some. intros Hsome.
    apply serve_tokens_generated in Hsome as (now & random & ->).
    by apply generateToken_not_inherited in Hk. }
  revert Hnone. generalize (Auth.serve compareSync jsLength db
                              (Auth.initialStore rows adminHash) requests).
  intros s Hnone. unfold objectPrototypeKeys in Hk.
  repeat (apply elem_of_cons in Hk as [->|Hk];
          [unfold Auth.verify;
           match goal with
           | |- context [Auth.replaceFirst ?p ?h] =>
               change (Auth.replaceFirst p h) with h
           end; cbv iota; by rewrite Hnone|]).
  by apply elem_of_nil in Hk.
Qed.

End accounts.

Lemma registered_user_can_log_in_witness :
  (Auth.register String.length false (Auth.initialStore [] "") (Some "mali")
     (Some "secret") (Auth.plainHash "secret") "" 5000).2 = Auth.Registered ∧
  Auth.plainCompare "secret" (Auth.plainHash "secret") = true ∧
  ∃ user,
    (Auth.login Auth.plainCompare false
       (Auth.register String.length false (Auth.initialStore [] "")
          (Some "mali") (Some "secret") (Auth.plainHash "secret") "" 5000).1
       (Some "mali") (Some "secret") 6000 "k3x").2
      = Auth.LoggedIn (Auth.generateToken 6000 "k3x") user ∧
    Auth.sessionUsername user = "mali" ∧
    Auth.sessionRole user = "user".
Proof.
  split; [reflexivity|]. split; [reflexivity|].
  destruct (registered_user_can_log_in Auth.plainCompare String.length false
              (Auth.initialStore [] "") "mali" "secret"
              (Auth.plainHash "secret") "" 5000 6000 "k3x"
              eq_refl eq_refl)
    as (user & Hreply & Hname & Hrole & _).
  exists user. split; [exact Hreply|]. split; [exact Hname|exact Hrole].
Defined.

Lemma builtin_admin_can_always_log_in_witness :
  Auth.plainCompare "admin123" (Auth.plainHash "admin123") = true ∧
  ∃ user,
    (Auth.login Auth.plainCompare true
       (Auth.serve Auth.plainCompare String.length true
          (Auth.initialStore [] (Auth.plainHash "admin123"))
          [(Auth.Register (Some "admin") (Some "secret")
              (Auth.plainHash "secret") "0b1c", 5000)])
       (Some "admin") (Some "admin123") 6000 "k3x").2
      = Auth.LoggedIn (Auth.generateToken 6000 "k3x") user ∧
    Auth.sessionUsername user = "admin".
Proof.
  split; [reflexivity|].
  destruct (builtin_admin_can_always_log_in Auth.plainCompare String.length
              true [] (Auth.plainHash "admin123")
              [(Auth.Register (Some "admin") (Some "secret")
                  (Auth.plainHash "secret") "0b1c", 5000)]
              6000 "k3x" eq_refl)
    as (user & Hreply & Hname & _).
  exists user. split; [exact Hreply|exact Hname].
Defined.

Lemma usernames_stay_unique_witness :
  Auth.uniqueNames (Auth.initialStore [] "") ∧
  Auth.uniqueNames
    (Auth.serve Auth.plainCompare String.length false
       (Auth.initialStore [] "")
       [(Auth.Register (Some "mali") (Some "secret")
           (Auth.plainHash "secret") "", 5000);
        (Auth.Register (Some "mali") (Some "other")
           (Auth.plainHash "other") "", 6000)]).
Proof.
  assert (Auth.uniqueNames (Auth.initialStore [] "")) as H
    by (split; [apply NoDup_nil_2|apply NoDup_singleton]).
  split; [exact H|].
  exact (usernames_stay_unique Auth.plainCompare String.length false
           (Auth.initialStore [] "") _ H).
Defined.

Lemma issued_token_never_expires_witness :
  (Auth.login Auth.plainCompare false
     (Auth.initialStore [] (Auth.plainHash "admin123"))
     (Some "admin") (Some "admin123") 6000 "k3x").2
    = Auth.LoggedIn (Auth.generateToken 6000 "k3x")
        (Auth.sessionOf (Auth.adminUser (Auth.plainHash "admin123"))) ∧
  ∃ user',
    Auth.verify
      (Auth.serve Auth.plainCompare String.length false
         (Auth.login Auth.plainCompare false
            (Auth.initialStore [] (Auth.plainHash "admin123"))
            (Some "admin") (Some "admin123") 6000 "k3x").1
         [(Auth.Verify None, 7000)])
      (Some ("Bearer " +:+ Auth.generateToken 6000 "k3x"))
      = Auth.TokenValid (Some user').
Proof.
  split; [reflexivity|].
  exact (proj1 (issued_token_never_expires Auth.plainCompare String.length
                  false (Auth.initialStore [] (Auth.plainHash "admin123"))
                  (Some "admin") (Some "admin123") 6000 "k3x"
                  (Auth.generateToken 6000 "k3x")
                  (Auth.sessionOf (Auth.adminUser (Auth.plainHash "admin123")))
                  [(Auth.Verify None, 7000)] eq_refl)).
Defined.

Lemma verify_accepts_inherited_names_witness :
  ("constructor" ∈ objectPrototypeKeys) ∧
  Auth.verify
    (Auth.serve Auth.plainCompare String.length true
       (Auth.initialStore [] (Auth.plainHash "admin123")) [])
    (Some "constructor") = Auth.TokenValid None.
Proof.
  assert ("constructor" ∈ objectPrototypeKeys) as H
    by (apply (bool_decide_unpack _); exact I).
  split; [exact H|].
  exact (verify_accepts_inherited_names Auth.plainCompare String.length true
           [] (Auth.plainHash "admin123") [] "constructor" H).
Defined.

(** ** The chart of the dashboard *)

Section chart.
Context {A : Type}.
Implicit Types (data : list A) (idxs : list nat).
Implicit Types (fuel i step len maxPoints : nat).

Lemma ceilDiv_step len step :
  (0 < step)%nat → (0 < len)%nat →
  ceilDiv len step = S (ceilDiv (len - step) step).
Proof.
  intros Hs Hl. unfold ceilDiv.
  destruct (decide (step ≤ len)%nat).
  - replace (len + step - 1)%nat with ((len - step + step - 1) + 1 * step)%nat
      by lia.
    rewrite Nat.div_add by lia. lia.
  - replace (len - step)%nat with 0%nat by lia.
    rewrite (Nat.div_small (0 + step - 1)) by lia.
    symmetry. apply (Nat.div_unique _ _ _ (len - 1)); lia.
Qed.

Lemma ceilDiv_0 step : (0 < step)%nat → ceilDiv 0 step = 0%nat.
Proof. intros. unfold ceilDiv. apply Nat.div_small. lia. Qed.

Lemma ceilDiv_covers len m : (0 < m)%nat → (len ≤ ceilDiv len m * m)%nat.
Proof.
  intros Hm. unfold ceilDiv.
  pose proof (Nat.div_mod (len + m - 1) m ltac:(lia)).
  pose proof (Nat.mod_upper_bound (len + m - 1) m ltac:(lia)). nia.
Qed.

Lemma ceilDiv_le len step m :
  (0 < step)%nat → (len ≤ m * step)%nat → (ceilDiv len step ≤ m)%nat.
Proof.
  intros Hs Hle. unfold ceilDiv.
  apply Nat.lt_succ_r, Nat.Div0.div_lt_upper_bound. lia.
Qed.

Lemma ceilDiv_last len step :
  (0 < step)%nat → (0 < len)%nat → ((ceilDiv len step - 1) * step < len)%nat.
Proof.
  intros Hs Hl. unfold ceilDiv.
  pose proof (Nat.Div0.mul_div_le (len + step - 1) step). nia.
Qed.

(** The loop in closed form: the multiples of [step] below [len]. *)
Lemma sampleLoop_closed fuel i step len :
  (0 < step)%nat → (len - i ≤ fuel)%nat →
  sampleLoop fuel i step len
    = (λ k, i + k * step)%nat <$> seq 0 (ceilDiv (len - i) step).
Proof.
  intros Hs. revert i.
  induction fuel as [|fuel IH]; intros i Hfuel; simpl.
  - replace (len - i)%nat with 0%nat by lia. by rewrite ceilDiv_0.
  - destruct (i <? len)%nat eqn:Hi.
    + apply Nat.ltb_lt in Hi.
      rewrite (ceilDiv_step (len - i) step) by lia. simpl.
      f_equal; [lia|]. rewrite IH by lia.
      rewrite <- fmap_S_seq, <- list_fmap_compose.
      replace (len - (i + step))%nat with (len - i - step)%nat by lia.
      apply list_fmap_ext. intros j k _. simpl. lia.
    + apply Nat.ltb_ge in Hi.
      replace (len - i)%nat with 0%nat by lia. by rewrite ceilDiv_0.
Qed.

Lemma omap_length_le data idxs :
  (length (omap (λ i, data !! i) idxs) ≤ length idxs)%nat.
Proof.
  induction idxs as [|i idxs IH]; [done|]. simpl.
  destruct (data !! i); simpl;
    [apply le_n_S|apply Nat.le_le_succ_r]; exact IH.
Qed.

Lemma omap_lookup_nil idxs : omap (λ i, @nil A !! i) idxs = [].
Proof. by induction idxs. Qed.

Lemma omap_lookup_shift (x : A) data idxs :
  Forall (λ j, 0 < j)%nat idxs →
  omap (λ i, (x :: data) !! i) idxs = omap (λ i, data !! i) (Nat.pred <$> idxs).
Proof.
  induction 1 as [|j idxs Hj _ IH]; [done|].
  destruct j as [|j]; [lia|]. simpl.
  change (list_omap nat A (λ i, (x :: data) !! i) idxs)
    with (omap (λ i, (x :: data) !! i) idxs).
  by rewrite IH.
Qed.

Lemma sorted_pred idxs :
  Forall (λ j, 0 < j)%nat idxs → StronglySorted lt idxs →
  StronglySorted lt (Nat.pred <$> idxs).
Proof.
  intros Hpos Hsorted. induction Hsorted as [|j idxs Hs IH Hall]; simpl.
  - constructor.
  - apply Forall_cons in Hpos as [Hj Hpos].
    constructor; [by apply IH|].
    apply Forall_fmap. rewrite Forall_forall in *. intros k Hk. simpl.
    specialize (Hall k Hk). specialize (Hpos k Hk). simpl in *. lia.
Qed.

(** Elements taken at increasing positions form a sublist. *)
Lemma sublist_of_increasing data idxs :
  StronglySorted lt idxs → sublist (omap (λ i, data !! i) idxs) data.
Proof.
  revert idxs. induction data as [|x data IH]; intros idxs Hsorted.
  - by rewrite omap_lookup_nil.
  - destruct idxs as [|i rest]; [apply sublist_nil_l|].
    apply StronglySorted_inv in Hsorted as [Hrest Hall].
    assert (Forall (λ j, 0 < j)%nat rest) as Hpos.
    { eapply Forall_impl; [exact Hall|]. simpl. lia. }
    destruct i as [|i].
    + simpl. apply sublist_skip. rewrite omap_lookup_shift by done.
      apply IH. by apply sorted_pred.
    + apply sublist_cons.
      rewrite omap_lookup_shift by (constructor; [lia|done]).
      apply IH. apply (sorted_pred (S i :: rest)).
      * constructor; [lia|done].
      * by constructor.
Qed.

Lemma multiples_sorted step start n :
  (0 < step)%nat →
  StronglySorted lt ((λ k, 0 + k * step)%nat <$> seq start n).
Proof.
  intros Hs. revert start. induction n as [|n IH]; intros start.
  - constructor.
  - simpl. constructor; [apply IH|].
    apply Forall_fmap, Forall_forall. intros k Hk%elem_of_seq. simpl. nia.
Qed.

Lemma last_omap_lookup data idxs i (x : A) :
  last idxs = Some i → data !! i = Some x →
  last (omap (λ i, data !! i) idxs) = Some x.
Proof.
  intros Hlast Hx. apply last_Some in Hlast as [idxs' ->].
  rewrite omap_app. simpl. rewrite Hx. by rewrite last_snoc.
Qed.

(** X26.  What the chart is given.  A history of at most [maxPoints] rows is
    passed as it is.  A longer one is thinned: the rows kept are rows of
    the history in their order, the first and the last row are always
    among them, and there are at most [maxPoints + 1] of them, one more
    than the limit that the function is called with. *)
Theorem sampled_history_is_thinned data maxPoints :
  (0 < maxPoints)%nat →
  sublist (sampleData data maxPoints) data ∧
  (length (sampleData data maxPoints) ≤ maxPoints + 1)%nat ∧
  head (sampleData data maxPoints) = head data ∧
  last (sampleData data maxPoints) = last data ∧
  ((length data ≤ maxPoints)%nat → sampleData data maxPoints = data).
Proof.
  intros Hm. unfold sampleData.
  destruct (length data <=? maxPoints)%nat eqn:Hlen.
  { apply Nat.leb_le in Hlen. split_and!; [done|lia|done..]. }
  apply Nat.leb_gt in Hlen.
  set (len := length data) in *.
  set (step := ceilDiv len maxPoints).
  assert (len ≤ step * maxPoints)%nat as Hcover by by apply ceilDiv_covers.
  assert (0 < step)%nat as Hstep by nia.
  set (n := ceilDiv len step).
  assert (n ≤ maxPoints)%nat as Hn by (apply ceilDiv_le; lia).
  assert ((n - 1) * step < len)%nat as Hlast by (apply ceilDiv_last; lia).
  assert (0 < n)%nat as Hn0.
  { unfold n. rewrite (ceilDiv_step len step) by lia. lia. }
  assert (sampleLoop len 0 step len
          = (λ k, 0 + k * step)%nat <$> seq 0 n) as Hloop.
  { rewrite sampleLoop_closed by lia. by rewrite Nat.sub_0_r. }
  assert (is_Some (data !! (len - 1)%nat)) as [z Hz]
    by (apply lookup_lt_is_Some; lia).
  assert (last data = Some z) as Hlastdata.
  { rewrite last_lookup. rewrite <- Hz. f_equal. lia. }
  assert (head data = data !! 0%nat) as Hhead by by destruct data.
  assert (sampleIndices len maxPoints
          = if decide (last ((λ k, 0 + k * step)%nat <$> seq 0 n)
                       = Some (len - 1)%nat)
            then (λ k, 0 + k * step)%nat <$> seq 0 n
            else ((λ k, 0 + k * step)%nat <$> seq 0 n) ++ [(len - 1)%nat])
    as ->.
  { unfold sampleIndices. destruct maxPoints; [lia|]. fold step.
    by rewrite Hloop. }
  set (idxs := (λ k, 0 + k * step)%nat <$> seq 0 n).
  assert (StronglySorted lt idxs) as Hsorted by by apply multiples_sorted.
  assert (Forall (λ j, j < len)%nat idxs) as Hbelow.
  { apply Forall_fmap, Forall_forall. intros k Hk%elem_of_seq. simpl. nia. }
  assert (length idxs = n) as Hcount
    by (unfold idxs; by rewrite length_fmap, length_seq).
  assert (head idxs = Some 0%nat) as Hfirst.
  { unfold idxs. destruct n; [lia|]. done. }
  assert (∀ l, head l = Some 0%nat →
               head (omap (λ i, data !! i) l) = head data) as Hhd.
  { intros [|j l] [= ->]. simpl. rewrite Hhead.
    destruct (lookup_lt_is_Some_2 data 0) as [y ->]; [|done].
    change (0 < len)%nat. lia. }
  case_decide as Hend.
  - split_and!.
    + by apply sublist_of_increasing.
    + etrans; [apply omap_length_le|]. lia.
    + by apply Hhd.
    + rewrite Hlastdata. by eapply last_omap_lookup.
    + lia.
  - assert (Forall (λ j, j < len - 1)%nat idxs) as Hstrict.
    { destruct (proj2 (last_is_Some idxs)) as [b Hb];
        [intros Hnil; by rewrite Hnil in Hfirst|].
      pose proof Hb as [front Hfront]%last_Some.
      assert (b < len)%nat as Hblen.
      { apply (proj1 (Forall_forall _ _) Hbelow).
        by apply last_Some_elem_of. }
      apply Forall_forall. intros a Ha.
      rewrite Hfront in Ha, Hsorted.
      apply elem_of_app in Ha as [Ha|Ha%list_elem_of_singleton].
      - assert (a < b)%nat; [|lia].
        apply (StronglySorted_app_1_elem_of _ _ _ a b Hsorted Ha).
        by apply list_elem_of_singleton.
      - subst a. destruct (decide (b = len - 1)%nat) as [->|]; [|lia].
        by rewrite Hb in Hend. }
    split_and!.
    + apply sublist_of_increasing.
      apply StronglySorted_app_2; [|done|repeat constructor].
      intros a b Ha ->%list_elem_of_singleton.
      by apply (proj1 (Forall_forall _ _) Hstrict).
    + etrans; [apply omap_length_le|]. rewrite length_app. simpl. lia.
    + apply Hhd. by destruct idxs.
    + rewrite Hlastdata. rewrite omap_app. simpl. rewrite Hz.
      by rewrite last_snoc.
    + lia.
Qed.

(** X27.  The bound is reached: of a history twice as long as the limit, every
    second row is kept and the last row is added to them. *)
Theorem sampled_history_can_exceed_limit data maxPoints :
  (0 < maxPoints)%nat →
  length data = (2 * maxPoints)%nat →
  length (sampleData data maxPoints) = (maxPoints + 1)%nat.
Proof.
  intros Hm Hlen. unfold sampleData.
  rewrite (proj2 (Nat.leb_gt _ _)) by lia.
  unfold sampleIndices. destruct maxPoints as [|m]; [lia|].
  rewrite Hlen.
  assert (ceilDiv (2 * S m) (S m) = 2%nat) as ->.
  { unfold ceilDiv. symmetry. apply (Nat.div_unique _ _ _ m); lia. }
  rewrite sampleLoop_closed by lia. rewrite Nat.sub_0_r.
  assert (ceilDiv (2 * S m) 2 = S m) as ->.
  { unfold ceilDiv. symmetry. apply (Nat.div_unique _ _ _ 1); lia. }
  set (idxs := (λ k, 0 + k * 2)%nat <$> seq 0 (S m)).
  assert (Forall (λ j, j < 2 * S m - 1)%nat idxs) as Hbelow.
  { apply Forall_fmap, Forall_forall. intros k Hk%elem_of_seq. simpl. lia. }
  assert (length idxs = S m) as Hcount
    by (unfold idxs; by rewrite length_fmap, length_seq).
  assert (∀ l, Forall (λ j, j < length data)%nat l →
               length (omap (λ i, data !! i) l) = length l) as Hall.
  { induction 1 as [|j l Hj _ IH]; [done|]. simpl.
    destruct (lookup_lt_is_Some_2 data j Hj) as [x ->]. simpl.
    f_equal. exact IH. }
  rewrite decide_False.
  - rewrite Hall.
    + rewrite length_app, Hcount. simpl. lia.
    + apply Forall_app. split.
      * eapply Forall_impl; [exact Hbelow|]. simpl. lia.
      * repeat constructor. lia.
  - intros Hend. rewrite Forall_forall in Hbelow.
    specialize (Hbelow (2 * S m - 1)%nat). 
    assert (2 * S m - 1 < 2 * S m - 1)%nat; [|lia].
    apply Hbelow. apply last_Some in Hend as [front ->].
    apply elem_of_app. right. by apply list_elem_of_singleton.
Qed.

End chart.

Lemma sampled_history_is_thinned_witness :
  (0 < 2)%nat ∧
  sublist (sampleData [10; 20; 30; 40; 50] 2) [10; 20; 30; 40; 50] ∧
  (length (sampleData [10; 20; 30; 40; 50] 2) ≤ 2 + 1)%nat.
Proof.
  split; [lia|].
  destruct (sampled_history_is_thinned [10; 20; 30; 40; 50] 2 ltac:(lia))
    as (Hsub & Hlen & _).
  split; [exact Hsub|exact Hlen].
Defined.

Lemma sampled_history_can_exceed_limit_witness :
  (0 < 2)%nat ∧
  length [10; 20; 30; 40] = (2 * 2)%nat ∧
  length (sampleData [10; 20; 30; 40] 2) = (2 + 1)%nat.
Proof.
  split; [lia|]. split; [reflexivity|].
  exact (sampled_history_can_exceed_limit [10; 20; 30; 40] 2 ltac:(lia)
           eq_refl).
Defined.

(** ** The dashboard's copy of the registry *)

Section dashboard.
Implicit Types (st : State) (id : string) (d dev : Obj) (now : Z).
Implicit Types (m pre suf : list Obj) (updates : Obj).

Lemma strict_eq_string (v : Value) (s : string) :
  Dashboard.strict_eq v (VStr s) = str_eq v s.
Proof. by destruct v. Qed.

Lemma find_stripped id m :
  list_find (λ x, Dashboard.strict_eq (get x "id") (VStr id) = true)
            (json_strip <$> m)
  = prod_map (λ i, i) json_strip <$> list_find (λ x, has_id id x) m.
Proof.
  rewrite list_find_fmap. f_equal. apply list_find_ext. intros x. simpl.
  rewrite get_json_strip, strict_eq_string. unfold has_id.
  by destruct (str_eq (get x "id") id).
Qed.

Lemma follows_refl st st' :
  memoryDevices st' = memoryDevices st → ioEmitted st' = ioEmitted st →
  follows st st'.
Proof. intros Hm Hio. exists []. by rewrite Hm, Hio, app_nil_r. Qed.

Lemma follows_trans st1 st2 st3 :
  follows st1 st2 → follows st2 st3 → follows st1 st3.
Proof.
  intros (e1 & Hio1 & H1) (e2 & Hio2 & H2). exists (e1 ++ e2). split.
  - by rewrite Hio2, Hio1, app_assoc.
  - unfold Dashboard.receiveAll in *. by rewrite foldl_app, H1, H2.
Qed.

Lemma follows_one st st' e :
  ioEmitted st' = ioEmitted st ++ [e] →
  Dashboard.receive (json_strip <$> memoryDevices st) e
    = json_strip <$> memoryDevices st' →
  follows st st'.
Proof. intros Hio H. exists [e]. by split. Qed.

(** A [deviceUpdate] event for the record that the server has just
    replaced makes the dashboard replace the same record. *)
Lemma receive_update m dev id i d :
  list_find (λ x, has_id id x) m = Some (i, d) →
  get dev "id" = VStr id →
  Dashboard.receive (json_strip <$> m) ("deviceUpdate", Some dev)
    = json_strip <$> <[i := dev]> m.
Proof.
  intros Hfind Hid. simpl. unfold Dashboard.onDeviceUpdate.
  rewrite get_json_strip, Hid, find_stripped, Hfind. simpl.
  by rewrite list_fmap_insert.
Qed.

Lemma updateDevice_mirror st id updates now :
  useDatabase st = false → updates !! "id" = None →
  useDatabase (updateDevice st id updates now).1 = false ∧
  ioEmitted (updateDevice st id updates now).1 = ioEmitted st ∧
  (λ d, get d "id") <$> memoryDevices (updateDevice st id updates now).1
    = (λ d, get d "id") <$> memoryDevices st ∧
  Dashboard.receive (json_strip <$> memoryDevices st)
    ("deviceUpdate", (updateDevice st id updates now).2)
    = json_strip <$> memoryDevices (updateDevice st id updates now).1 ∧
  ((updateDevice st id updates now).2 = None →
   memoryDevices (updateDevice st id updates now).1 = memoryDevices st).
Proof.
  intros Hm Hup. unfold updateDevice. rewrite Hm.
  destruct (list_find _ _) as [[i d]|] eqn:Hfind; [|done].
  fold (merged d updates now). cbn [fst snd].
  pose proof Hfind as (Hi & Hd & _)%list_find_Some.
  apply Is_true_true, has_id_true in Hd.
  assert (get (merged d updates now) "id" = VStr id) as Hid.
  { rewrite get_merged, Hup. by rewrite decide_False. }
  split; [done|]. split; [done|]. split; [|split; [|done]].
  - cbn [memoryDevices set_memoryDevices]. rewrite list_fmap_insert, Hid.
    apply list_insert_id. by rewrite list_lookup_fmap, Hi; simpl; rewrite Hd.
  - by apply (receive_update _ _ id i d).
Qed.

(** The handlers that emit the updated record whether or not there is
    one. *)
Lemma follows_command st st0 id updates now :
  useDatabase st = false → updates !! "id" = None →
  useDatabase st0 = useDatabase st → memoryDevices st0 = memoryDevices st →
  ioEmitted st0 = ioEmitted st →
  let st' :=
    io_emit (updateDevice st0 id updates now).1 "deviceUpdate"
      (updateDevice st0 id updates now).2 in
  useDatabase st' = false ∧
  (λ d, get d "id") <$> memoryDevices st'
    = (λ d, get d "id") <$> memoryDevices st ∧
  follows st st'.
Proof.
  intros Hm Hup Hm0 Hdev0 Hio0 st'. subst st'.
  destruct (updateDevice_mirror st0 id updates now) as (Hm1 & Hio & Hids & H & _);
    [congruence|done|].
  split; [done|]. split; [simpl; by rewrite Hids, Hdev0|].
  eapply follows_one.
  - simpl. by rewrite Hio, Hio0.
  - rewrite <- Hdev0. exact H.
Qed.

(** The handlers that emit the updated record only when there is one. *)
Lemma follows_report st st0 id updates now (after : State → State) :
  useDatabase st = false → updates !! "id" = None →
  useDatabase st0 = useDatabase st → memoryDevices st0 = memoryDevices st →
  ioEmitted st0 = ioEmitted st →
  (∀ s, useDatabase (after s) = useDatabase s ∧
        memoryDevices (after s) = memoryDevices s ∧
        ioEmitted (after s) = ioEmitted s) →
  let st' :=
    match updateDevice st0 id updates now with
    | (s, Some device) => io_emit (after s) "deviceUpdate" (Some device)
    | (s, None) => s
    end in
  useDatabase st' = false ∧
  (λ d, get d "id") <$> memoryDevices st'
    = (λ d, get d "id") <$> memoryDevices st ∧
  follows st st'.
Proof.
  intros Hm Hup Hm0 Hdev0 Hio0 Hafter st'. subst st'.
  destruct (updateDevice_mirror st0 id updates now)
    as (Hm1 & Hio & Hids & H & Hnone); [congruence|done|].
  destruct (updateDevice st0 id updates now) as [s [device|]];
    cbn [fst snd] in *.
  - destruct (Hafter s) as (Ha1 & Ha2 & Ha3).
    split; [simpl; congruence|]. split; [simpl; by rewrite Ha2, Hids, Hdev0|].
    eapply follows_one.
    + simpl. by rewrite Ha3, Hio, Hio0.
    + simpl memoryDevices. rewrite Ha2, <- Hdev0. exact H.
  - split; [done|]. split; [by rewrite Hids, Hdev0|].
    apply follows_refl; [by rewrite Hnone|congruence].
Qed.

Lemma telemetryUpdates_no_id (data : Obj) : telemetryUpdates data !! "id" = None.
Proof. done. Qed.

Lemma pumpUpdates_no_id (turnOn : bool) : pumpUpdates turnOn !! "id" = None.
Proof. by destruct turnOn. Qed.

Lemma handleDeviceData_follows st id (data : Obj) now :
  useDatabase st = false →
  useDatabase (handleDeviceData st id data now) = false ∧
  (λ d, get d "id") <$> memoryDevices (handleDeviceData st id data now)
    = (λ d, get d "id") <$> memoryDevices st ∧
  follows st (handleDeviceData st id data now).
Proof.
  intros Hm. unfold handleDeviceData.
  apply (follows_report st _ id (telemetryUpdates data) now
           (λ s, storeSensorHistory s id data now)); try done.
  intros s. by destruct (storeSensorHistory_devices s id data now)
    as (? & _ & ? & ? & _).
Qed.

Lemma handleDeviceStatus_follows st id (data : Obj) now :
  useDatabase st = false →
  useDatabase (handleDeviceStatus st id data now) = false ∧
  (λ d, get d "id") <$> memoryDevices (handleDeviceStatus st id data now)
    = (λ d, get d "id") <$> memoryDevices st ∧
  follows st (handleDeviceStatus st id data now).
Proof.
  intros Hm. unfold handleDeviceStatus.
  by apply (follows_report st st id _ now (λ s, s)).
Qed.

Lemma onPumpControl_follows st id (action : Value) now :
  useDatabase st = false →
  useDatabase (onPumpControl st id action now) = false ∧
  (λ d, get d "id") <$> memoryDevices (onPumpControl st id action now)
    = (λ d, get d "id") <$> memoryDevices st ∧
  follows st (onPumpControl st id action now).
Proof.
  intros Hm. unfold onPumpControl.
  apply (follows_report st _ id _ now (λ s, s));
    try done; try apply pumpUpdates_no_id; by destruct (mqttConnected st).
Qed.

Lemma postPump_follows st id (body : Obj) now :
  useDatabase st = false →
  useDatabase (postPump st id body now).1 = false ∧
  (λ d, get d "id") <$> memoryDevices (postPump st id body now).1
    = (λ d, get d "id") <$> memoryDevices st ∧
  follows st (postPump st id body now).1.
Proof.
  intros Hm. unfold postPump.
  destruct (getDevice st id); [|by split_and!; [..|apply follows_refl]].
  set (st0 := if mqttConnected st then _ else st).
  pose proof (follows_command st st0 id
                (pumpUpdates (str_eq (get body "action") "on")) now Hm
                (pumpUpdates_no_id _)) as H.
  destruct (updateDevice st0 id _ now) as [s r]. cbn [fst snd] in *.
  apply H; unfold st0; by destruct (mqttConnected st).
Qed.

Lemma postMode_follows st id (body : Obj) now :
  useDatabase st = false →
  useDatabase (postMode st id body now).1 = false ∧
  (λ d, get d "id") <$> memoryDevices (postMode st id body now).1
    = (λ d, get d "id") <$> memoryDevices st ∧
  follows st (postMode st id body now).1.
Proof.
  intros Hm. unfold postMode.
  destruct (getDevice st id); [|by split_and!; [..|apply follows_refl]].
  set (st0 := if mqttConnected st then _ else st).
  pose proof (follows_command st st0 id {[ "mode" := get body "mode" ]} now Hm
                eq_refl) as H.
  destruct (updateDevice st0 id _ now) as [s r]. cbn [fst snd] in *.
  apply H; unfold st0; by destruct (mqttConnected st).
Qed.

Lemma goesOffline_string_id (ls : gmap string Z) now d :
  goesOffline ls now d = true → ∃ id, get d "id" = VStr id.
Proof.
  unfold goesOffline, lastSeenOf. intros [H _]%andb_true_iff.
  destruct (get d "id"); try done. by eexists.
Qed.

Lemma find_behind pre suf d id :
  get d "id" = VStr id →
  NoDup ((λ x, get x "id") <$> (pre ++ d :: suf)) →
  list_find (λ x, has_id id x) (pre ++ d :: suf) = Some (length pre, d).
Proof.
  intros Hid Hnd. apply list_find_Some. split_and!.
  - by rewrite lookup_app_r, Nat.sub_diag by lia.
  - apply Is_true_true. by apply has_id_true.
  - intros j y Hj Hlt Hy. apply Is_true_true, has_id_true in Hy.
    rewrite fmap_app in Hnd. apply NoDup_app in Hnd as (_ & Hdisj & _).
    rewrite lookup_app_l in Hj by done.
    apply (Hdisj (VStr id)).
    + apply list_elem_of_fmap. exists y. split; [done|].
      by eapply list_elem_of_lookup_2.
    + simpl. rewrite Hid. apply list_elem_of_here.
Qed.

(** The events of one sweep, received in order. *)
Lemma receive_sweep (ls : gmap string Z) now pre suf :
  NoDup ((λ x, get x "id") <$> (pre ++ suf)) →
  Dashboard.receiveAll (json_strip <$> (pre ++ suf))
    ((λ d, ("deviceUpdate", Some (markOffline d)))
       <$> filter (λ d, goesOffline ls now d) suf)
  = json_strip <$>
      (pre ++ ((λ d, if goesOffline ls now d then markOffline d else d)
                 <$> suf)).
Proof.
  revert pre. induction suf as [|d suf IH]; intros pre Hnd; [done|].
  destruct (goesOffline ls now d) eqn:Hgo.
  - rewrite filter_cons_True by by rewrite Hgo.
    destruct (goesOffline_string_id ls now d Hgo) as [id Hid].
    cbn [fmap list_fmap Dashboard.receiveAll foldl].
    rewrite (receive_update _ (markOffline d) id (length pre) d).
    + rewrite insert_app_r_alt, Nat.sub_diag by lia. cbn [insert list_insert].
      rewrite Hgo.
      replace (pre ++ markOffline d :: suf)
        with ((pre ++ [markOffline d]) ++ suf) by by rewrite <- app_assoc.
      fold (Dashboard.receiveAll
              (json_strip <$> (pre ++ [markOffline d]) ++ suf)
              ((λ d, ("deviceUpdate", Some (markOffline d)))
                 <$> filter (λ d, goesOffline ls now d) suf)).
      rewrite (IH (pre ++ [markOffline d])); [by rewrite <- app_assoc|].
      rewrite <- app_assoc. simpl.
      rewrite fmap_app in *. simpl in *.
      assert (get (markOffline d) "id" = get d "id") as ->; [|done].
      unfold markOffline. by rewrite get_insert.
    + by apply find_behind.
    + unfold markOffline. by rewrite get_insert.
  - rewrite filter_cons_False by (rewrite Hgo; by intros []).
    cbn [fmap list_fmap]. rewrite Hgo.
    replace (pre ++ d :: suf) with ((pre ++ [d]) ++ suf) in *
      by by rewrite <- app_assoc.
    rewrite (IH (pre ++ [d])); [by rewrite <- app_assoc|done].
Qed.

Lemma checkOfflineDevices_follows st now :
  useDatabase st = false → uniqueIds st →
  useDatabase (checkOfflineDevices st now) = false ∧
  (λ d, get d "id") <$> memoryDevices (checkOfflineDevices st now)
    = (λ d, get d "id") <$> memoryDevices st ∧
  follows st (checkOfflineDevices st now).
Proof.
  intros Hm Hu. rewrite checkOfflineDevices_spec. simpl. split; [done|].
  split.
  - rewrite <- list_fmap_compose. apply list_fmap_ext. intros i d _. simpl.
    destruct (goesOffline _ now d); [|done].
    unfold markOffline. by rewrite get_insert.
  - eexists. split; [done|]. simpl.
    apply (receive_sweep (deviceLastSeen st) now [] (memoryDevices st) Hu).
Qed.

Lemma postDevices_follows st (body : Obj) now :
  useDatabase st = false → uniqueIds st →
  getDevice st (newId now) = None →
  useDatabase (postDevices st body now).1 = false ∧
  uniqueIds (postDevices st body now).1 ∧
  follows st (postDevices st body now).1.
Proof.
  intros Hm Hu Hfree. unfold postDevices.
  destruct (_ || _); [by split_and!; [..|apply follows_refl]|].
  unfold createDevice. rewrite Hm. cbn [fst snd].
  split; [done|]. split.
  - unfold uniqueIds. simpl. rewrite fmap_app. apply NoDup_app.
    split; [done|]. split; [|apply NoDup_singleton].
    intros v Hv ->%list_elem_of_singleton.
    unfold getDevice in Hfree. rewrite Hm in Hfree.
    apply fmap_None in Hfree.
    apply list_elem_of_fmap in Hv as (d & Hd & Hin).
    eapply list_find_None, Forall_forall in Hfree; [|exact Hin].
    apply Hfree, Is_true_true, has_id_true. by rewrite <- Hd.
  - eapply follows_one; [done|]. simpl.
    unfold Dashboard.onDeviceAdded. by rewrite fmap_app.
Qed.

Lemma filter_keeps_all (P : Obj → Prop) `{!∀ x, Decision (P x)} m :
  Forall P m → filter P m = m.
Proof.
  induction 1 as [|x m Hx _ IH]; [done|].
  by rewrite filter_cons_True, IH.
Qed.

Lemma filter_out_unique (f : Obj → Value) m i d :
  NoDup (f <$> m) → m !! i = Some d →
  filter (λ x, f x ≠ f d) m = delete i m.
Proof.
  revert i. induction m as [|y m IH]; intros i Hnd Hi; [done|].
  rewrite fmap_cons in Hnd. apply NoDup_cons in Hnd as [Hy Hnd].
  destruct i as [|i].
  - injection Hi as ->. rewrite filter_cons_False by (intros H; by apply H).
    simpl. apply filter_keeps_all, Forall_forall. intros x Hx Heq.
    apply Hy. rewrite <- Heq. apply list_elem_of_fmap. by exists x.
  - simpl in Hi. rewrite filter_cons_True.
    + simpl. f_equal. by apply IH.
    + intros Heq. apply Hy. rewrite Heq.
      apply list_elem_of_fmap. exists d. split; [done|].
      by eapply list_elem_of_lookup_2.
Qed.

Lemma filter_stripped (P : Obj → Prop) `{!∀ x, Decision (P x)} m :
  filter P (json_strip <$> m)
    = json_strip <$> filter (λ x, P (json_strip x)) m.
Proof.
  induction m as [|x m IH]; [done|]. rewrite fmap_cons.
  destruct (decide (P (json_strip x))).
  - rewrite !filter_cons_True by done. by rewrite fmap_cons, IH.
  - by rewrite !filter_cons_False.
Qed.

Lemma deleteDevices_follows st id :
  useDatabase st = false → uniqueIds st →
  useDatabase (deleteDevices st id).1 = false ∧
  uniqueIds (deleteDevices st id).1 ∧
  follows st (deleteDevices st id).1.
Proof.
  intros Hm Hu. unfold deleteDevices, getDevice, deleteDevice. rewrite Hm.
  destruct (list_find _ _) as [[i d]|] eqn:Hfind; simpl;
    [|by split_and!; [..|apply follows_refl]].
  pose proof Hfind as (Hi & Hd & _)%list_find_Some.
  apply Is_true_true, has_id_true in Hd.
  split; [done|]. split.
  - unfold uniqueIds. simpl. rewrite list_fmap_delete.
    eapply sublist_NoDup; [exact Hu|apply sublist_delete].
  - eapply follows_one; [done|]. simpl.
    unfold Dashboard.onDeviceDeleted.
    rewrite get_json_strip, get_singleton. rewrite decide_True by done.
    rewrite filter_stripped.
    f_equal. rewrite <- (filter_out_unique (λ x, get x "id") _ i d Hu Hi).
    apply list_filter_iff. intros x. cbv beta.
    rewrite get_json_strip, strict_eq_string, Hd.
    rewrite str_eq_false. done.
Qed.

Lemma perform_follows st (a : Activity * Z) :
  useDatabase st = false → uniqueIds st →
  match a with
  | (Operation (HttpCreate _), now) => getDevice st (newId now) = None
  | _ => True
  end →
  useDatabase (perform st a) = false ∧
  uniqueIds (perform st a) ∧
  follows st (perform st a).
Proof.
  intros Hm Hu Hfresh.
  assert (∀ st', useDatabase st' = false ∧
                 (λ d, get d "id") <$> memoryDevices st'
                   = (λ d, get d "id") <$> memoryDevices st ∧
                 follows st st' →
                 useDatabase st' = false ∧ uniqueIds st' ∧ follows st st')
    as Hkeep.
  { intros st' (? & Hids & ?). split; [done|]. split; [|done].
    unfold uniqueIds. by rewrite Hids. }
  destruct a as [[[deviceId messageType [data|]|id body|id body|id body
                  |deviceId action|body|]|id] now]; simpl.
  - unfold onMqttMessage.
    destruct (String.eqb messageType "data");
      [by apply Hkeep, handleDeviceData_follows|].
    destruct (String.eqb messageType "status");
      [by apply Hkeep, handleDeviceStatus_follows|].
    by split_and!; [..|apply follows_refl].
  - by split_and!; [..|apply follows_refl].
  - by apply Hkeep, handleDeviceData_follows.
  - by apply Hkeep, postPump_follows.
  - by apply Hkeep, postMode_follows.
  - by apply Hkeep, onPumpControl_follows.
  - by apply postDevices_follows.
  - by apply Hkeep, checkOfflineDevices_follows.
  - by apply deleteDevices_follows.
Qed.

(** X28.  Without the database the dashboard stays in step with the
    registry.  A dashboard that connected, was sent the devices and then
    received every event that the server emitted shows, after any
    sequence of telemetry and status messages, commands, creations,
    deletions and sweeps, exactly the list that a dashboard connecting
    afterwards is sent, provided the ids of the devices are distinct and
    stay so (no device is created under an id that is taken). *)
Theorem dashboard_follows_memory_registry st (acts : list (Activity * Z)) :
  useDatabase st = false →
  uniqueIds st →
  createsFresh st acts →
  ∃ events,
    ioEmitted (performAll st acts) = ioEmitted st ++ events ∧
    Dashboard.receiveAll (Dashboard.onInitialData (getDevices st)) events
      = Dashboard.onInitialData (getDevices (performAll st acts)).
Proof.
  intros Hm Hu Hfresh.
  assert (useDatabase (performAll st acts) = false ∧
          follows st (performAll st acts)) as [Hm' Hfollows].
  { unfold performAll. revert st Hm Hu Hfresh.
    induction acts as [|a acts IH]; intros st Hm Hu Hfresh.
    - split; [done|]. by apply follows_refl.
    - destruct Hfresh as [Hnow Hfresh].
      assert (match a with
              | (Operation (HttpCreate _), now) =>
                  getDevice st (newId now) = None
              | _ => True
              end) as Hnow'.
      { by destruct a as [[[| | | | | |]|] now]. }
      destruct (perform_follows st a Hm Hu Hnow') as (Hm1 & Hu1 & Hf1).
      destruct (IH (perform st a) Hm1 Hu1 Hfresh) as [Hm2 Hf2].
      split; [done|]. by eapply follows_trans. }
  unfold getDevices. rewrite Hm, Hm'. exact Hfollows.
Qed.

End dashboard.

Lemma dashboard_follows_memory_registry_witness :
  useDatabase (initialMemoryState 1000) = false ∧
  uniqueIds (initialMemoryState 1000) ∧
  ∃ events,
    ioEmitted
      (performAll (initialMemoryState 1000)
         [(Operation (HttpData "device_001" reading), 2000);
          (Operation (HttpCreate registration), 5000);
          (HttpDelete "device_001", 6000);
          (Operation Sweep, 30000)])
      = ioEmitted (initialMemoryState 1000) ++ events ∧
    Dashboard.receiveAll
      (Dashboard.onInitialData (getDevices (initialMemoryState 1000))) events
      = Dashboard.onInitialData
          (getDevices
             (performAll (initialMemoryState 1000)
                [(Operation (HttpData "device_001" reading), 2000);
                 (Operation (HttpCreate registration), 5000);
                 (HttpDelete "device_001", 6000);
                 (Operation Sweep, 30000)])).
Proof.
  assert (uniqueIds (initialMemoryState 1000)) as Hu
    by apply NoDup_singleton.
  split; [reflexivity|]. split; [exact Hu|].
  apply (dashboard_follows_memory_registry (initialMemoryState 1000) _
           eq_refl Hu).
  split; [exact I|]. split; [reflexivity|]. split; [exact I|].
  split; [exact I|]. exact I.
Defined.
